(** * avalanche-circom-kit-hardhat: the Circuit pipeline and the Multiplier contract

    A shallow embedding of [utils/Circuit.ts] (artifact pipeline, toolchain
    locator, proof generation and the dual proof format) and of
    [contracts/Multiplier.sol] (the consuming contract), with the properties
    the specification states about them. *)

From Stdlib Require Import ZArith String Ascii List Bool Lia DecimalString.
From stdpp Require Import base option list strings gmap.
Import ListNotations.

Local Open Scope Z_scope.
Local Open Scope string_scope.
Local Open Scope list_scope.

(* ===================================================================== *)
(** * contracts/Multiplier.sol *)
(* ===================================================================== *)

Module Multiplier.

(** [uint] is a 256-bit word and [address] a 160-bit word; the contract does
    no arithmetic on either, so they are carried as [Z]. *)
Definition uint := Z.
Definition address := Z.

(** What a failed call returns to its caller: the payload of
    [Error(string)] (a failed [require]), of [Panic(uint256)] (a checked
    operation of the compiler), or any other bytes. *)
Inductive revert_data :=
| ErrorString (reason : string)
| Panic (code : Z)
| RawRevert (data : list Z).

(** The outcome of the external call [verifier.verifyProof(...)]: the callee
    returns a boolean, or the call reverts (the callee reverts, holds no
    code, or returns bytes that do not decode to a [bool]). *)
Inductive call_result :=
| CallReturned (ok : bool)
| CallReverted (data : revert_data).

(** [event Verified(uint256 resultC, address caller)] *)
Inductive log :=
| Verified (resultC : uint) (caller : address).

(** The outcome of a call to a function of [Multiplier]: a returned value
    together with the events emitted, or a revert, which discards them. *)
Inductive tx_result :=
| Success (ret : bool) (logs : list log)
| Reverted (data : revert_data).

(** [ICircomVerifier public verifier] *)
Record storage := { verifier : address }.

Record message := { sender : address }.

(** [constructor(address _verifier)] *)
Definition constructor (_verifier : address) : storage :=
  {| verifier := _verifier |}.

Section Check.

(** The chain the contract runs on: what a static call of
    [verifyProof(_pA, _pB, _pC, _pubSignals)] at an address yields. *)
Variable verifyProof :
  address -> list uint -> list (list uint) -> list uint -> list uint ->
  call_result.

(** [function check(...) external returns (bool)].  A revert of the callee
    is propagated with its data; [require(ok, "invalid proof")] reverts with
    [Error("invalid proof")]; [_pubSignals[0]] is a checked index into a
    dynamic calldata array and panics with code 0x32 when the array is
    empty. *)
Definition check (this : storage) (msg : message)
    (_pA : list uint) (_pB : list (list uint)) (_pC : list uint)
    (_pubSignals : list uint) : tx_result :=
  match verifyProof (verifier this) _pA _pB _pC _pubSignals with
  | CallReverted d => Reverted d
  | CallReturned ok =>
      if negb ok then Reverted (ErrorString "invalid proof")
      else
        match _pubSignals !! 0%nat with
        | None => Reverted (Panic 0x32)
        | Some resultC => Success true [Verified resultC (sender msg)]
        end
  end.

End Check.

End Multiplier.

(* ===================================================================== *)
(** * utils/Circuit.ts *)
(* ===================================================================== *)

Module Circuit.

(** ** Values of the host language *)

(** What a [throw] carries: an [Error] made by the program or by the
    runtime, with its message, or the [TypeError] the engine raises when a
    property of [undefined] is read. *)
Inductive exn :=
| Error (msg : string)
| TypeError (msg : string).

(** [error.message] *)
Definition message (e : exn) : string :=
  match e with Error m => m | TypeError m => m end.

(** A call either returns a value or throws. *)
Inductive outcome (A : Type) :=
| Return (x : A)
| Throw (e : exn).
Arguments Return {A} x.
Arguments Throw {A} e.

#[export] Instance outcome_ret : MRet outcome := @Return.
#[export] Instance outcome_bind : MBind outcome := fun A B f r =>
  match r with
  | Return x => f x
  | Throw e => Throw e
  end.

(** The character [U+0022]. *)
Definition dquote : string := String (ascii_of_nat 34) EmptyString.

(** Decimal rendering of an integer, as [String(n)] and template literals
    print one. *)
Definition string_of_Z (n : Z) : string :=
  NilZero.string_of_int (Z.to_int n).

(** [s.includes(needle)] *)
Fixpoint includes (needle s : string) : bool :=
  String.prefix needle s ||
  match s with
  | EmptyString => false
  | String _ rest => includes needle rest
  end.

(** [s.startsWith(p)] and [s.endsWith(p)] *)
Definition startsWith (p s : string) : bool := String.prefix p s.
Definition endsWith (p s : string) : bool :=
  (String.length p <=? String.length s)%nat &&
  String.eqb (substring (String.length s - String.length p) (String.length p) s) p.

(** ** Proofs in the two formats (the exported interfaces) *)

Record Proof := {
  pi_a : list string;
  pi_b : list (list string);
  pi_c : list string;
  protocol : string;
  curve : string;
}.

Module ProofData.
Record t := { proof : Proof; publicSignals : list string }.
End ProofData.

(** The tuple types [[string, string]] are arrays at run time; they are
    kept as lists so that their lengths are facts to prove. *)
Record OnchainProof := {
  a : list string;
  b : list (list string);
  c : list string;
}.

Module OnchainProofData.
Record t := { proof : OnchainProof; publicSignals : list string }.
End OnchainProofData.

Record ProofResults := {
  offchain : ProofData.t;
  onchain : OnchainProofData.t;
}.

(** [Record<string, string | string[]>] *)
Inductive signal :=
| Scalar (v : string)
| Vector (vs : list string).

Definition Input := gmap string signal.

(** ** The standard error stream *)

(** A chunk handed to [process.stderr.write]: a string, a [Buffer] (held by
    the text it decodes to), a [Uint8Array] that is not a [Buffer] (held by
    its bytes), or [null]/[undefined]. *)
Inductive chunk :=
| CNullish
| CString (s : string)
| CBuffer (s : string)
| CUint8Array (bytes : list Byte.byte).

(** [chunk?.toString() || '']: a [Buffer] prints as the text it holds, any
    other typed array as its elements in decimal, joined with commas. *)
Definition chunk_text (ch : chunk) : string :=
  match ch with
  | CNullish => ""
  | CString s => s
  | CBuffer s => s
  | CUint8Array bytes =>
      String.concat ","
        (List.map (fun b => string_of_Z (Z.of_nat (Byte.to_nat b))) bytes)
  end.

(** Callbacks are opaque; running one is recorded by its identity. *)
Definition callback := nat.

(** The second argument of [write]: absent, an encoding, or (in the
    two-argument form) the callback. *)
Inductive enc_arg :=
| EncUndefined
| Encoding (name : string)
| EncCallback (k : callback).

(** What has reached the underlying stream, oldest first. *)
Inductive sink_event :=
| Wrote (ch : chunk)
| Ran (k : callback).

Definition Sink := list sink_event.

(** A [write] function, taken by what a call of it does: to the stream, and
    as its result. *)
Definition write_fn :=
  chunk -> enc_arg -> option callback -> Sink -> Sink * outcome bool.

(** [f.bind(process.stderr)]: the bound function is a new function that
    calls [f]; by what a call of it does, it is [f]. *)
Definition bind_this (f : write_fn) : write_fn :=
  fun ch enc cb => f ch enc cb.

(** The function [generateProof] installs over [process.stderr.write]. *)
Definition stderrFilter (originalStderrWrite : write_fn) : write_fn :=
  fun ch enc cb sink =>
    let msg := chunk_text ch in
    if includes "Could not allocate" msg && includes "severe instability" msg
    then
      match enc, cb with
      | EncCallback k, _ => (sink ++ [Ran k], Return true)
      | _, Some k => (sink ++ [Ran k], Return true)
      | _, None => (sink, Return true)
      end
    else originalStderrWrite ch enc cb sink.

(** ** The runtime and the libraries the class calls *)

(** Options of [spawnSync]. *)
Record SpawnOptions := { stdio : string; spawn_cwd : string; shell : bool }.

(** The fields of the object [spawnSync] returns that the class reads:
    [status] is [null] when the child did not exit by itself. *)
Record SpawnResult := { error : option exn; status : option Z }.

(** [node:fs], [node:path], [node:child_process], [process] and [snarkjs]
    as the class uses them.  [FS] is the state of the file system; the
    file-system functions read it, [mkdirSync] and a spawned child change
    it.  [fullProve] is given the [write] function installed on
    [process.stderr] for the time it runs. *)
Class Runtime := {
  FS : Type;
  VKey : Type;
  cwd : string;
  platform : string;
  join : list string -> string;
  relative : string -> string -> string;
  existsSync : string -> FS -> bool;
  mkdirSync : string -> FS -> outcome FS;
  readdirSync : string -> FS -> outcome (list string);
  spawnSync : string -> list string -> SpawnOptions -> FS -> FS * SpawnResult;
  fullProve : Input -> string -> string -> FS -> write_fn -> Sink ->
              Sink * outcome (Proof * list string);
  exportVerificationKey : string -> FS -> outcome VKey;
  verify : VKey -> list string -> Proof -> outcome bool;
}.

(** What the program does that an observer sees, oldest first. *)
Inductive event :=
| ConsoleLog (line : string)
| Spawned (executable : string) (args : list string) (options : SpawnOptions).

(** The state of the process. *)
Record Process `{Runtime} := {
  fs : FS;
  trace : list event;
  stderr_write : write_fn;
  stderr : Sink;
}.

Section Program.
Context `{RT : Runtime}.

(** Computations: they change the process and return or throw. *)
Definition M (A : Type) : Type := Process -> Process * outcome A.

#[export] Instance M_ret : MRet M := fun A x p => (p, Return x).
#[export] Instance M_bind : MBind M := fun A B f m p =>
  match m p with
  | (p', Return x) => f x p'
  | (p', Throw e) => (p', Throw e)
  end.

Definition throw {A} (e : exn) : M A := fun p => (p, Throw e).

(** [try { body } catch (error) { handler }] *)
Definition try_catch {A} (body : M A) (handler : exn -> M A) : M A :=
  fun p =>
    match body p with
    | (p', Return x) => (p', Return x)
    | (p', Throw e) => handler e p'
    end.

Definition with_fs (f : FS -> FS) (p : Process) : Process :=
  {| fs := f (fs p); trace := trace p;
     stderr_write := stderr_write p; stderr := stderr p |}.
Definition with_trace (f : list event -> list event) (p : Process) : Process :=
  {| fs := fs p; trace := f (trace p);
     stderr_write := stderr_write p; stderr := stderr p |}.
Definition with_stderr_write (w : write_fn) (p : Process) : Process :=
  {| fs := fs p; trace := trace p; stderr_write := w; stderr := stderr p |}.
Definition with_stderr (s : Sink) (p : Process) : Process :=
  {| fs := fs p; trace := trace p;
     stderr_write := stderr_write p; stderr := s |}.

(** [console.log(line)] *)
Definition console_log (line : string) : M unit :=
  fun p => (with_trace (fun t => t ++ [ConsoleLog line]) p, Return tt).

(** [existsSync(path)] *)
Definition fs_existsSync (path : string) : M bool :=
  fun p => (p, Return (existsSync path (fs p))).

(** [mkdirSync(path, { recursive: true })] *)
Definition fs_mkdirSync (path : string) : M unit :=
  fun p =>
    match mkdirSync path (fs p) with
    | Return fs' => (with_fs (fun _ => fs') p, Return tt)
    | Throw e => (p, Throw e)
    end.

(** [spawnSync(executable, args, options)] *)
Definition child_spawnSync (executable : string) (args : list string)
    (options : SpawnOptions) : M SpawnResult :=
  fun p =>
    let '(fs', result) := spawnSync executable args options (fs p) in
    (with_trace (fun t => t ++ [Spawned executable args options])
       (with_fs (fun _ => fs') p),
     Return result).

(** ** [class Circuit] *)

Record Circuit := {
  circuitName : string;
  circuitPath : string;
  buildDir : string;
  wasmPath : string;
  zkeyPath : string;
  r1csPath : string;
}.

(** The fields as the constructor sets them. *)
Definition fields (circuitName : string) : Circuit :=
  let buildDir := join ["circuits"; "build"] in
  {| circuitName := circuitName;
     circuitPath := join ["circuits"; circuitName +:+ ".circom"];
     buildDir := buildDir;
     wasmPath := join [buildDir; circuitName +:+ "_js"; circuitName +:+ ".wasm"];
     zkeyPath := join [buildDir; circuitName +:+ ".zkey"];
     r1csPath := join [buildDir; circuitName +:+ ".r1cs"] |}.

(** [private findCircom2(): string | null].  It only reads the file system.
    [unshift] puts a store candidate in front of those found before it;
    [readdirSync] is the one call of the [try] block that can throw, and the
    [catch] leaves the list as it was. *)
Definition findCircom2 (files : FS) : option string :=
  let possiblePaths :=
    [ join [cwd; "node_modules"; "circom2"; "cli.js"];
      join [cwd; "node_modules"; ".bin"; "circom2"] ] in
  let pnpmDir := join [cwd; "node_modules"; ".pnpm"] in
  let possiblePaths :=
    if existsSync pnpmDir files then
      match readdirSync pnpmDir files with
      | Return entries =>
          fold_left
            (fun acc entry =>
               if startsWith "circom2@" entry then
                 let candidatePath :=
                   join [pnpmDir; entry; "node_modules"; "circom2"; "cli.js"] in
                 if existsSync candidatePath files
                 then candidatePath :: acc
                 else acc
               else acc)
            entries possiblePaths
      | Throw _ => possiblePaths
      end
    else possiblePaths in
  find (fun path => existsSync path files) possiblePaths.

(** [`${result.status}`] *)
Definition show_status (status : option Z) : string :=
  match status with
  | None => "null"
  | Some n => string_of_Z n
  end.

(** The two checks that follow every [spawnSync]:
    [if (result.error) throw result.error;
     if (result.status !== 0) throw new Error(`${what} exited with code ...`)]. *)
Definition check_result (what : string) (result : SpawnResult) : M unit :=
  match error result with
  | Some e => throw e
  | None =>
      match status result with
      | Some 0 => mret tt
      | st => throw (Error (what +:+ " exited with code " +:+ show_status st))
      end
  end.

(** [private runCommand(command: string, args: string[]): void] *)
Definition runCommand (command : string) (args : list string) : M unit :=
  '(useShell, executable) ←
    (if String.eqb command "pnpm" then
       if String.eqb platform "win32" then mret (true, command)
       else
         let possiblePaths :=
           [ join [cwd; "node_modules"; ".bin"; "pnpm"];
             "/usr/local/bin/pnpm";
             "/opt/homebrew/bin/pnpm" ] in
         fun p =>
           (p, Return (false,
                       default command
                         (find (fun path => existsSync path (fs p)) possiblePaths)))
     else mret (false, command));
  result ← child_spawnSync executable args
             {| stdio := "inherit"; spawn_cwd := cwd; shell := useShell |};
  check_result ("Command " +:+ dquote +:+ command +:+ dquote) result.

(** The arguments the compiler is run with. *)
Definition compile_args (circuitFile outputDir : string) : list string :=
  [circuitFile; "--r1cs"; "--wasm"; "--sym"; "-o"; outputDir].

(** The first block of [ensureCompiled]: compile when the witness generator
    is missing. *)
Definition compileIfMissing (this : Circuit) : M unit :=
  wasm ← fs_existsSync (wasmPath this);
  if negb wasm then
    console_log ("Compiling circuit " +:+ circuitName this +:+ "...");;
    let circuitsDir := join [cwd; "circuits"] in
    let circuitFile := circuitName this +:+ ".circom" in
    let outputDir := "build" in
    circom2Path ← (fun p => (p, Return (findCircom2 (fs p))));
    match circom2Path with
    | None | Some "" =>
        throw (Error "circom2 not found. Install it with: pnpm add -D circom2")
    | Some circom2Path =>
        try_catch
          (let circom2RelativePath := relative circuitsDir circom2Path in
           (if endsWith "cli.js" circom2Path then
              result ← child_spawnSync "node"
                         (circom2RelativePath :: compile_args circuitFile outputDir)
                         {| stdio := "inherit"; spawn_cwd := circuitsDir; shell := false |};
              check_result "circom2" result
            else
              result ← child_spawnSync circom2RelativePath
                         (compile_args circuitFile outputDir)
                         {| stdio := "inherit"; spawn_cwd := circuitsDir; shell := false |};
              check_result "circom2" result);;
           wasm ← fs_existsSync (wasmPath this);
           if negb wasm
           then throw (Error "Circuit compilation failed. Check errors above.")
           else mret tt)
          (fun error =>
             throw (Error ("Circuit compilation error: " +:+ message error +:+ ". " +:+
                           "Compile manually with: cd circuits && circom2 " +:+
                           circuitFile +:+ " --r1cs --wasm --sym -o " +:+ outputDir)))
    end
  else mret tt.

Definition ptauSize : Z := 8.

(** [ptauPath] and [ptauPreparedPath], the two constants of the block. *)
Definition ptauPath (this : Circuit) : string :=
  join [buildDir this; "pot" +:+ string_of_Z ptauSize +:+ "_0000.ptau"].
Definition ptauPreparedPath (this : Circuit) : string :=
  join [buildDir this; "pot" +:+ string_of_Z ptauSize +:+ "_0000_final.ptau"].

(** The three [snarkjs] command lines. *)
Definition ptau_new_args (this : Circuit) : list string :=
  ["exec"; "snarkjs"; "powersoftau"; "new"; "bn128";
   string_of_Z ptauSize; ptauPath this; "-v"].
Definition ptau_prepare_args (this : Circuit) : list string :=
  ["exec"; "snarkjs"; "powersoftau"; "prepare"; "phase2";
   ptauPath this; ptauPreparedPath this; "-v"].
Definition zkey_setup_args (this : Circuit) : list string :=
  let r1csFullPath := join [cwd; r1csPath this] in
  let zkeyFullPath := join [cwd; zkeyPath this] in
  ["exec"; "snarkjs"; "groth16"; "setup";
   r1csFullPath; join [cwd; ptauPreparedPath this]; zkeyFullPath].

(** The second block of [ensureCompiled]: the ceremony files and the key,
    when the key is missing. *)
Definition setupIfMissing (this : Circuit) : M unit :=
  zkey ← fs_existsSync (zkeyPath this);
  if negb zkey then
    console_log ("Generating zkey for " +:+ circuitName this +:+ "...");;
    prepared ← fs_existsSync (ptauPreparedPath this);
    (if negb prepared then
       raw ← fs_existsSync (ptauPath this);
       (if negb raw then
          console_log ("Generating initial trusted setup file (pot" +:+
                       string_of_Z ptauSize +:+ ")...");;
          runCommand "pnpm" (ptau_new_args this)
        else mret tt);;
       console_log "Preparing powers of tau for phase2...";;
       runCommand "pnpm" (ptau_prepare_args this)
     else mret tt);;
    console_log "Generating zkey...";;
    runCommand "pnpm" (zkey_setup_args this)
  else mret tt.

(** [private ensureCompiled()] *)
Definition ensureCompiled (this : Circuit) : M unit :=
  compileIfMissing this;;
  setupIfMissing this.

(** The block of the constructor that makes the build directory:
    [if (!existsSync(this.buildDir)) mkdirSync(this.buildDir, { recursive: true })]. *)
Definition ensureBuildDir (this : Circuit) : M unit :=
  present ← fs_existsSync (buildDir this);
  if negb present then fs_mkdirSync (buildDir this) else mret tt.

(** [constructor(circuitName: string)] *)
Definition constructor (circuitName : string) : M Circuit :=
  let this := fields circuitName in
  ensureBuildDir this;;
  ensureCompiled this;;
  mret this.

(** [undefined.toString()] throws; a string is its own [toString()]. *)
Definition toString (x : option string) : outcome string :=
  match x with
  | Some s => Return s
  | None =>
      Throw (TypeError "Cannot read properties of undefined (reading 'toString')")
  end.

(** [xs.map(f)] for an [f] that may throw: left to right, the first throw
    ends it. *)
Fixpoint array_map {A B} (f : A -> outcome B) (xs : list A) : outcome (list B) :=
  match xs with
  | [] => Return []
  | x :: rest =>
      y ← f x;
      ys ← array_map f rest;
      Return (y :: ys)
  end.

(** [rows[i][j]]: reading an index of [undefined] throws, reading an index
    past the end of an array gives [undefined]. *)
Definition index2 (rows : list (list string)) (i j : nat) : outcome (option string) :=
  match rows !! i with
  | None =>
      Throw (TypeError ("Cannot read properties of undefined (reading '" +:+
                        string_of_Z (Z.of_nat j) +:+ "')"))
  | Some row => Return (row !! j)
  end.

(** The conversion done inside [generateProof]: the object [onchainProof],
    then the three [map]s of the returned object. *)
Definition toOnchain (proof : Proof) : outcome OnchainProof :=
  let a0 := pi_a proof !! 0%nat in
  let a1 := pi_a proof !! 1%nat in
  b01 ← index2 (pi_b proof) 0 1;
  b00 ← index2 (pi_b proof) 0 0;
  b11 ← index2 (pi_b proof) 1 1;
  b10 ← index2 (pi_b proof) 1 0;
  let c0 := pi_c proof !! 0%nat in
  let c1 := pi_c proof !! 1%nat in
  a' ← array_map toString [a0; a1];
  b' ← array_map (array_map toString) [[b01; b00]; [b11; b10]];
  c' ← array_map toString [c0; c1];
  Return {| a := a'; b := b'; c := c' |}.

(** [await groth16.fullProve(input, this.wasmPath, this.zkeyPath)], run with
    whatever [write] is installed on [process.stderr]. *)
Definition groth16_fullProve (input : Input) (wasm zkey : string)
    : M (Proof * list string) :=
  fun p =>
    let '(sink, r) := fullProve input wasm zkey (fs p) (stderr_write p) (stderr p) in
    (with_stderr sink p, r).

(** [async generateProof(input): Promise<ProofResults>], as the settled
    promise: [Return] when it is fulfilled, [Throw] when it is rejected.  The
    [finally] block runs on both. *)
Definition generateProof (this : Circuit) (input : Input) : M ProofResults :=
  fun p =>
    let originalStderrWrite := bind_this (stderr_write p) in
    let p := with_stderr_write (stderrFilter originalStderrWrite) p in
    let '(p, r) :=
      ('(proof, publicSignals) ← groth16_fullProve input (wasmPath this) (zkeyPath this);
       match toOnchain proof with
       | Throw e => throw e
       | Return onchainProof =>
           mret {| offchain := {| ProofData.proof := proof;
                                  ProofData.publicSignals := publicSignals |};
                   onchain := {| OnchainProofData.proof := onchainProof;
                                 OnchainProofData.publicSignals := publicSignals |} |}
       end) p in
    (with_stderr_write originalStderrWrite p, r).

(** [async verifyProof(proof, publicSignals): Promise<boolean>] *)
Definition verifyProof (this : Circuit) (proof : Proof)
    (publicSignals : list string) : M bool :=
  fun p =>
    match exportVerificationKey (zkeyPath this) (fs p) with
    | Throw e => (p, Throw e)
    | Return vkey => (p, verify vkey publicSignals proof)
    end.


(** ** Vocabulary of the properties *)

(** [needle] occurs somewhere in [s]. *)
Definition occurs_in (needle s : string) : Prop :=
  exists before after, s = before +:+ needle +:+ after.

(** The chunks the filter is meant for: their text has both phrases. *)
Definition memory_diagnostic (ch : chunk) : Prop :=
  occurs_in "Could not allocate" (chunk_text ch) /\
  occurs_in "severe instability" (chunk_text ch).

(** The callback of a [write(chunk, enc, cb)] call, if it has one. *)
Definition callback_of (enc : enc_arg) (cb : option callback) : list callback :=
  match enc with
  | EncCallback k => [k]
  | _ => match cb with Some k => [k] | None => [] end
  end.

(** The three places the locator looks in. *)
Definition directPath : string := join [cwd; "node_modules"; "circom2"; "cli.js"].
Definition aliasPath : string := join [cwd; "node_modules"; ".bin"; "circom2"].
Definition storeDir : string := join [cwd; "node_modules"; ".pnpm"].
Definition storePath (entry : string) : string :=
  join [storeDir; entry; "node_modules"; "circom2"; "cli.js"].

(** The entries of the package-manager store in the order the directory
    lists them; a store that is missing or cannot be read has none. *)
Definition storeEntries (files : FS) : list string :=
  if existsSync storeDir files then
    match readdirSync storeDir files with
    | Return entries => entries
    | Throw _ => []
    end
  else [].

(** The installations found in the store, in the order of discovery. *)
Definition storeMatches (files : FS) : list string :=
  List.filter (fun path => existsSync path files)
    (List.map storePath (List.filter (startsWith "circom2@") (storeEntries files))).

(** The locator as the specification words it: the store match discovered
    last, else the direct installation, else the alias, else nothing. *)
Definition locate (files : FS) : option string :=
  match last (storeMatches files) with
  | Some path => Some path
  | None =>
      if existsSync directPath files then Some directPath
      else if existsSync aliasPath files then Some aliasPath
      else None
  end.

(** The call of the compiler for a located [circom2Path], as
    [compileIfMissing] makes it. *)
Definition compiler_call (this : Circuit) (circom2Path : string)
    : string * list string * SpawnOptions :=
  let circuitsDir := join [cwd; "circuits"] in
  let circom2RelativePath := relative circuitsDir circom2Path in
  let args := compile_args (circuitName this +:+ ".circom") "build" in
  let options := {| stdio := "inherit"; spawn_cwd := circuitsDir; shell := false |} in
  if endsWith "cli.js" circom2Path
  then ("node", circom2RelativePath :: args, options)
  else (circom2RelativePath, args, options).

Definition run_compiler (this : Circuit) (circom2Path : string) (files : FS)
    : FS * SpawnResult :=
  let '(executable, args, options) := compiler_call this circom2Path in
  spawnSync executable args options files.

(** The call [runCommand "pnpm" args] makes from the file system [files]:
    [pnpm] through a shell on win32, elsewhere the first of the three known
    locations that exists, or [pnpm] itself. *)
Definition pnpm_call (args : list string) (files : FS)
    : string * list string * SpawnOptions :=
  if String.eqb platform "win32" then
    ("pnpm", args, {| stdio := "inherit"; spawn_cwd := cwd; shell := true |})
  else
    (default "pnpm"
       (find (fun path => existsSync path files)
          [ join [cwd; "node_modules"; ".bin"; "pnpm"];
            "/usr/local/bin/pnpm";
            "/opt/homebrew/bin/pnpm" ]),
     args,
     {| stdio := "inherit"; spawn_cwd := cwd; shell := false |}).

Definition run_pnpm (args : list string) (files : FS) : FS * SpawnResult :=
  let '(executable, args, options) := pnpm_call args files in
  spawnSync executable args options files.

(** The text every error of the compilation handler ends with. *)
Definition manual_hint (this : Circuit) : string :=
  ". " +:+ "Compile manually with: cd circuits && circom2 " +:+
  (circuitName this +:+ ".circom") +:+ " --r1cs --wasm --sym -o " +:+ "build".

(** The command lines among the events, oldest first. *)
Definition commands (events : list event) : list (list string) :=
  omap (fun e => match e with Spawned _ args _ => Some args | ConsoleLog _ => None end)
    events.

(** The files a construction looks for. *)
Definition artifacts (this : Circuit) : list string :=
  [buildDir this; wasmPath this; zkeyPath this; ptauPath this; ptauPreparedPath this].

(** The stages a construction has to run, judged by what exists when it
    starts: the compilation when the witness generator is missing; when the
    key is missing, the two ceremony steps that the existing ceremony files
    leave to do, and the key derivation. *)
Definition compile_due (compile : list string) (this : Circuit) (files : FS)
    : list (list string) :=
  if existsSync (wasmPath this) files then [] else [compile].

Definition setup_due (this : Circuit) (files : FS) : list (list string) :=
  if existsSync (zkeyPath this) files then []
  else
    (if existsSync (ptauPreparedPath this) files then []
     else
       (if existsSync (ptauPath this) files then [] else [ptau_new_args this]) ++
       [ptau_prepare_args this]) ++
    [zkey_setup_args this].

Definition stages_due (compile : list string) (this : Circuit) (files : FS)
    : list (list string) :=
  compile_due compile this files ++ setup_due this files.

(** No artifact of the circuit is lost between two states of the file
    system. *)
Definition keeps (this : Circuit) (files files' : FS) : Prop :=
  forall path, In path (artifacts this) ->
    existsSync path files = true -> existsSync path files' = true.

(** What the external tools are relied on for, in the calls a construction
    makes and in no other: [mkdirSync] makes the build directory; the
    compiler that the locator finds and the three [snarkjs] steps, run as
    the class runs them, remove no artifact; and a [powersoftau prepare] or
    a [groth16 setup] that exits with 0 has written its output. *)
Record well_behaved (this : Circuit) : Prop := {
  mkdir_makes : forall files files',
    mkdirSync (buildDir this) files = Return files' ->
    existsSync (buildDir this) files' = true;
  mkdir_keeps : forall files files',
    mkdirSync (buildDir this) files = Return files' ->
    keeps this files files';
  compiler_keeps : forall files circom2Path,
    findCircom2 files = Some circom2Path ->
    keeps this files (fst (run_compiler this circom2Path files));
  snarkjs_keeps : forall files args,
    In args [ptau_new_args this; ptau_prepare_args this; zkey_setup_args this] ->
    keeps this files (fst (run_pnpm args files));
  prepare_writes : forall files,
    error (snd (run_pnpm (ptau_prepare_args this) files)) = None ->
    status (snd (run_pnpm (ptau_prepare_args this) files)) = Some 0 ->
    existsSync (ptauPreparedPath this) (fst (run_pnpm (ptau_prepare_args this) files))
    = true;
  setup_writes : forall files,
    error (snd (run_pnpm (zkey_setup_args this) files)) = None ->
    status (snd (run_pnpm (zkey_setup_args this) files)) = Some 0 ->
    existsSync (zkeyPath this) (fst (run_pnpm (zkey_setup_args this) files)) = true;
}.

(** What is relied on, in addition, for a construction that failed to be
    resumed where it stopped: a [powersoftau new] that exits with 0 has
    written its output. *)
Definition new_writes (this : Circuit) : Prop :=
  forall files,
    error (snd (run_pnpm (ptau_new_args this) files)) = None ->
    status (snd (run_pnpm (ptau_new_args this) files)) = Some 0 ->
    existsSync (ptauPath this) (fst (run_pnpm (ptau_new_args this) files)) = true.

End Program.

End Circuit.

(* ===================================================================== *)
(** * A small POSIX-like runtime *)
(* ===================================================================== *)

(** A concrete [Runtime] on which the class can be run: normalised absolute
    paths, a file system that is the list of its entries in directory order,
    a [circom2] script that writes the compiler's outputs, a [snarkjs] that
    writes the file each subcommand is asked for, and a stand-in prover for
    the [multiplier2] circuit.  The examples and the concrete runs below use
    it; the general theorems hold for every [Runtime]. *)
Module Posix.
Import Circuit.

Definition slash : ascii := ascii_of_nat 47.

(** ["a/b//c"] to [["a"; "b"; ""; "c"]]. *)
Fixpoint split_path (s : string) : list string :=
  match s with
  | EmptyString => [EmptyString]
  | String ch rest =>
      if Ascii.eqb ch slash then EmptyString :: split_path rest
      else
        match split_path rest with
        | seg :: segs => String ch seg :: segs
        | [] => [String ch EmptyString]
        end
  end.

(** Drop empty and ["."] segments and resolve [".."] against what precedes
    it; [stack] holds the segments kept so far, last first. *)
Fixpoint normalize_segments (absolute : bool) (stack segs : list string)
    : list string :=
  match segs with
  | [] => rev stack
  | seg :: rest =>
      if String.eqb seg "" || String.eqb seg "." then
        normalize_segments absolute stack rest
      else if String.eqb seg ".." then
        match stack with
        | top :: below =>
            if String.eqb top ".."
            then normalize_segments absolute (seg :: stack) rest
            else normalize_segments absolute below rest
        | [] =>
            if absolute
            then normalize_segments absolute [] rest
            else normalize_segments absolute [seg] rest
        end
      else normalize_segments absolute (seg :: stack) rest
  end.

Definition is_absolute (path : string) : bool := String.prefix "/" path.

(** [path.normalize] *)
Definition normalize (path : string) : string :=
  let absolute := is_absolute path in
  let body := String.concat "/" (normalize_segments absolute [] (split_path path)) in
  if absolute then "/" +:+ body
  else if String.eqb body "" then "." else body.

(** [path.join(...parts)] *)
Definition posix_join (parts : list string) : string :=
  normalize
    (String.concat "/" (List.filter (fun s => negb (String.eqb s "")) parts)).

(** [path.resolve(base, path)] for an absolute [base]. *)
Definition resolve (base path : string) : string :=
  if is_absolute path then normalize path else posix_join [base; path].

Fixpoint drop_common (xs ys : list string) : list string * list string :=
  match xs, ys with
  | x :: xs', y :: ys' =>
      if String.eqb x y then drop_common xs' ys' else (xs, ys)
  | _, _ => (xs, ys)
  end.

Definition posix_cwd : string := "/work".

(** [path.relative(from, to)] *)
Definition posix_relative (from to : string) : string :=
  let segs path :=
    normalize_segments true [] (split_path (resolve posix_cwd path)) in
  let '(up, down) := drop_common (segs from) (segs to) in
  String.concat "/" (List.map (fun _ => "..") up ++ down).

(** A file-system entry is a file or a directory, under its absolute path. *)
Inductive kind := File | Dir.

Definition Files := list (string * kind).

Definition lookup_path (path : string) (files : Files) : option kind :=
  snd <$> List.find (fun entry => String.eqb (fst entry) path) files.

Definition exists_at (base path : string) (files : Files) : bool :=
  match lookup_path (resolve base path) files with
  | Some _ => true
  | None => false
  end.

(** Add an entry unless one is there. *)
Definition touch (k : kind) (path : string) (files : Files) : Files :=
  match lookup_path path files with
  | Some _ => files
  | None => files ++ [(path, k)]
  end.

(** The directories from the root down to [segs], root excluded. *)
Fixpoint ancestors (prefix : string) (segs : list string) : list string :=
  match segs with
  | [] => []
  | seg :: rest =>
      let here := prefix +:+ "/" +:+ seg in
      here :: ancestors here rest
  end.

Definition mkdir_p (path : string) (files : Files) : Files :=
  fold_left (fun acc dir => touch Dir dir acc)
    (ancestors "" (normalize_segments true [] (split_path path))) files.

(** Write a file, creating the directories above it. *)
Definition write_file (path : string) (files : Files) : Files :=
  let segs := normalize_segments true [] (split_path path) in
  touch File path (mkdir_p (String.concat "/" ("" :: removelast segs)) files).

Definition is_file (path : string) (files : Files) : bool :=
  match lookup_path path files with
  | Some File => true
  | _ => false
  end.

(** [mkdirSync(path, { recursive: true })]: it fails on a regular file in
    the place of the directory or of one above it. *)
Definition posix_mkdirSync (path : string) (files : Files) : outcome Files :=
  let dir := resolve posix_cwd path in
  let above := ancestors "" (normalize_segments true [] (split_path dir)) in
  if is_file dir files then
    Throw (Error ("EEXIST: file already exists, mkdir '" +:+ path +:+ "'"))
  else if existsb (fun d => is_file d files) above then
    Throw (Error ("ENOTDIR: not a directory, mkdir '" +:+ path +:+ "'"))
  else Return (mkdir_p dir files).

(** The names directly under a directory, in directory order. *)
Definition posix_readdirSync (path : string) (files : Files)
    : outcome (list string) :=
  let dir := resolve posix_cwd path in
  match lookup_path dir files with
  | None => Throw (Error ("ENOENT: no such file or directory, scandir '" +:+ path +:+ "'"))
  | Some File => Throw (Error ("ENOTDIR: not a directory, scandir '" +:+ path +:+ "'"))
  | Some Dir =>
      let dsegs := normalize_segments true [] (split_path dir) in
      Return
        (omap (fun entry : string * kind =>
                 let esegs := normalize_segments true [] (split_path (fst entry)) in
                 if bool_decide (removelast esegs = dsegs) then last esegs else None)
           files)
  end.

Definition exited (code : Z) : SpawnResult :=
  {| error := None; status := Some code |}.

Definition spawn_failed (executable : string) : SpawnResult :=
  {| error := Some (Error ("spawnSync " +:+ executable +:+ " ENOENT"));
     status := None |}.

(** [name.circom] to [name]. *)
Definition strip_circom (file : string) : string :=
  substring 0 (String.length file - 7) file.

(** The [circom2] command line: it rejects a missing source, else it is to
    write the constraint system, the symbols and the witness generator.  A
    tool is described by the files it is to write and how it exits. *)
Definition run_circom (dir : string) (args : list string) (files : Files)
    : list string * SpawnResult :=
  match args with
  | [file; "--r1cs"; "--wasm"; "--sym"; "-o"; out] =>
      if exists_at dir file files then
        let name := strip_circom file in
        let out := resolve dir out in
        ([ posix_join [out; name +:+ ".r1cs"];
           posix_join [out; name +:+ ".sym"];
           posix_join [out; name +:+ "_js"; name +:+ ".wasm"] ],
         exited 0)
      else ([], exited 1)
  | _ => ([], exited 1)
  end.

(** [snarkjs] behind [pnpm exec]: each subcommand reads its inputs and
    writes its output file. *)
Definition run_snarkjs (dir : string) (args : list string) (files : Files)
    : list string * SpawnResult :=
  match args with
  | ["powersoftau"; "new"; "bn128"; _; out; "-v"] =>
      ([resolve dir out], exited 0)
  | ["powersoftau"; "prepare"; "phase2"; inp; out; "-v"] =>
      if exists_at dir inp files
      then ([resolve dir out], exited 0)
      else ([], exited 1)
  | ["groth16"; "setup"; r1cs; ptau; zkey] =>
      if exists_at dir r1cs files && exists_at dir ptau files
      then ([resolve dir zkey], exited 0)
      else ([], exited 1)
  | _ => ([], exited 1)
  end.

(** What a spawned child does: [node] runs a script that exists,
    [pnpm exec snarkjs] runs [snarkjs]; an executable that is not installed
    fails to spawn. *)
Definition run_child (executable : string) (args : list string)
    (options : SpawnOptions) (files : Files) : list string * SpawnResult :=
  let dir := spawn_cwd options in
  if String.eqb executable "node" then
    if exists_at "/" "/usr/bin/node" files then
      match args with
      | script :: rest =>
          if exists_at dir script files && endsWith "circom2/cli.js" (resolve dir script)
          then run_circom dir rest files
          else ([], exited 1)
      | [] => ([], exited 0)
      end
    else ([], spawn_failed executable)
  else if endsWith "pnpm" executable then
    if exists_at "/" "/usr/local/bin/pnpm" files then
      match args with
      | "exec" :: "snarkjs" :: rest => run_snarkjs dir rest files
      | _ => ([], exited 1)
      end
    else ([], spawn_failed executable)
  else if exists_at dir executable files && endsWith "circom2" executable then
    run_circom dir args files
  else ([], spawn_failed executable).

(** [spawnSync]: the child runs to its end and its files are written. *)
Definition posix_spawnSync (executable : string) (args : list string)
    (options : SpawnOptions) (files : Files) : Files * SpawnResult :=
  let '(written, result) := run_child executable args options files in
  (fold_left (fun acc path => write_file path acc) written files, result).

(** Decimal strings to integers and back. *)
Definition parse_decimal (s : string) : option Z :=
  Z.of_int <$> NilZero.int_of_string s.

(** The warning the prover's allocator prints on small machines. *)
Definition memory_warning : string :=
  "Could not allocate 1073741824 bytes. This may cause severe instability. Trying with 536870912 bytes".

(** A stand-in for [groth16.fullProve] on [multiplier2]: it needs both
    artifacts and the two inputs, prints the memory warning and a progress
    line, and returns the product as the one public signal with a proof whose
    coordinates are told apart by their names. *)
Definition posix_fullProve (input : Input) (wasm zkey : string) (files : Files)
    (write : write_fn) (sink : Sink) : Sink * outcome (Proof * list string) :=
  if exists_at posix_cwd wasm files && exists_at posix_cwd zkey files then
    let sink := fst (write (CString memory_warning) EncUndefined None sink) in
    let sink := fst (write (CString "witness computed") EncUndefined None sink) in
    match input !! "a", input !! "b" with
    | Some (Scalar x), Some (Scalar y) =>
        match parse_decimal x, parse_decimal y with
        | Some m, Some n =>
            (sink,
             Return ({| pi_a := ["ax"; "ay"; "1"];
                        pi_b := [["bx0"; "bx1"]; ["by0"; "by1"]; ["1"; "0"]];
                        pi_c := ["cx"; string_of_Z (m * n); "1"];
                        protocol := "groth16";
                        curve := "bn128" |},
                     [string_of_Z (m * n)]))
        | _, _ => (sink, Throw (Error "Cannot convert input to BigInt"))
        end
    | _, _ => (sink, Throw (Error "Not all inputs have been set"))
    end
  else (sink, Throw (Error "ENOENT: no such file or directory")).

(** Stand-ins for [zKey.exportVerificationKey] and [groth16.verify]: the key
    is the path it was read from.  The verifier reads one entry of the key
    for each public signal, and the key of [multiplier2] has the entry of
    one signal: on a longer list it reads an entry that is not there, which
    throws.  Otherwise a proof is accepted for the one public-signal list it
    was made for. *)
Definition posix_exportVerificationKey (zkey : string) (files : Files)
    : outcome string :=
  if exists_at posix_cwd zkey files then Return zkey
  else Throw (Error "ENOENT: no such file or directory").

Definition posix_verify (vkey : string) (publicSignals : list string)
    (proof : Proof) : outcome bool :=
  if (1 <? length publicSignals)%nat
  then Throw (TypeError "Cannot read properties of undefined (reading '0')")
  else
    Return (bool_decide (Some publicSignals = (fun s => [s]) <$> pi_c proof !! 1%nat)).

#[export] Instance runtime : Runtime := {|
  FS := Files;
  VKey := string;
  cwd := posix_cwd;
  platform := "linux";
  join := posix_join;
  relative := posix_relative;
  existsSync := exists_at posix_cwd;
  mkdirSync := posix_mkdirSync;
  readdirSync := posix_readdirSync;
  spawnSync := posix_spawnSync;
  fullProve := posix_fullProve;
  exportVerificationKey := posix_exportVerificationKey;
  verify := posix_verify;
|}.

(** The stream itself: it takes every chunk and runs the callback. *)
Definition native_write : write_fn :=
  fun ch enc cb sink =>
    (sink ++ [Wrote ch] ++
       match enc, cb with
       | EncCallback k, _ => [Ran k]
       | _, Some k => [Ran k]
       | _, None => []
       end,
     Return true).

Definition boot (files : Files) : Process :=
  {| fs := files; trace := []; stderr_write := native_write; stderr := [] |}.

(** A fresh checkout with the toolchain installed through pnpm. *)
Definition checkout : Files :=
  [ ("/usr", Dir); ("/usr/bin", Dir); ("/usr/bin/node", File);
    ("/usr/local", Dir); ("/usr/local/bin", Dir); ("/usr/local/bin/pnpm", File);
    ("/work", Dir); ("/work/circuits", Dir);
    ("/work/circuits/multiplier2.circom", File);
    ("/work/node_modules", Dir); ("/work/node_modules/.pnpm", Dir);
    ("/work/node_modules/.pnpm/circom2@0.2.22", Dir);
    ("/work/node_modules/.pnpm/circom2@0.2.22/node_modules", Dir);
    ("/work/node_modules/.pnpm/circom2@0.2.22/node_modules/circom2", Dir);
    ("/work/node_modules/.pnpm/circom2@0.2.22/node_modules/circom2/cli.js", File) ].

End Posix.


(* ===================================================================== *)
(** * Data of the concrete runs *)
(* ===================================================================== *)

(** A verifier that accepts everything, as the mock of the contract's tests
    does by default. *)
Definition accepting_verifier :
  Multiplier.address -> list Multiplier.uint -> list (list Multiplier.uint) ->
  list Multiplier.uint -> list Multiplier.uint -> Multiplier.call_result :=
  fun _ _ _ _ _ => Multiplier.CallReturned true.

(** The pipeline of the repository's tests, on the POSIX-like runtime. *)
Definition multiplier2 : Circuit.Circuit :=
  Eval vm_compute in Circuit.fields (RT := Posix.runtime) "multiplier2".

(** The file system after a first construction on a fresh checkout. *)
Definition built : Posix.Files :=
  Eval vm_compute in
    Circuit.fs (fst (Circuit.constructor "multiplier2" (Posix.boot Posix.checkout))).

(** A checkout to which the witness generator and the key were copied, but
    no ceremony file. *)
Definition keyed : Posix.Files :=
  Posix.checkout ++
  [ ("/work/circuits/build", Posix.Dir);
    ("/work/circuits/build/multiplier2_js", Posix.Dir);
    ("/work/circuits/build/multiplier2_js/multiplier2.wasm", Posix.File);
    ("/work/circuits/build/multiplier2.zkey", Posix.File) ].

(** A checkout on a machine without [node]. *)
Definition without_node : Posix.Files :=
  List.filter (fun entry => negb (String.eqb (fst entry) "/usr/bin/node"))
    Posix.checkout.

(** A checkout whose dependencies were not installed. *)
Definition uninstalled : Posix.Files :=
  [ ("/usr", Posix.Dir); ("/usr/bin", Posix.Dir); ("/usr/bin/node", Posix.File);
    ("/work", Posix.Dir); ("/work/circuits", Posix.Dir);
    ("/work/circuits/multiplier2.circom", Posix.File) ].

(** A checkout whose source the compiler rejects: the file is not there. *)
Definition without_source : Posix.Files :=
  List.filter
    (fun entry => negb (String.eqb (fst entry) "/work/circuits/multiplier2.circom"))
    Posix.checkout.

(** The input of the first test: a = 3, b = 11. *)
Definition input_3_11 : Circuit.Input :=
  {[ "a" := Circuit.Scalar "3"; "b" := Circuit.Scalar "11" ]}.

(** What [generateProof] is expected to return for that input. *)
Definition result_3_11 : Circuit.ProofResults :=
  {| Circuit.offchain :=
       {| Circuit.ProofData.proof :=
            {| Circuit.pi_a := ["ax"; "ay"; "1"];
               Circuit.pi_b := [["bx0"; "bx1"]; ["by0"; "by1"]; ["1"; "0"]];
               Circuit.pi_c := ["cx"; "33"; "1"];
               Circuit.protocol := "groth16";
               Circuit.curve := "bn128" |};
          Circuit.ProofData.publicSignals := ["33"] |};
     Circuit.onchain :=
       {| Circuit.OnchainProofData.proof :=
            {| Circuit.a := ["ax"; "ay"];
               Circuit.b := [["bx1"; "bx0"]; ["by1"; "by0"]];
               Circuit.c := ["cx"; "33"] |};
          Circuit.OnchainProofData.publicSignals := ["33"] |} |}.

(** A checkout with two versions of the compiler in the store. *)
Definition two_versions : Posix.Files :=
  Posix.checkout ++
  [ ("/work/node_modules/.pnpm/circom2@0.2.13", Posix.Dir);
    ("/work/node_modules/.pnpm/circom2@0.2.13/node_modules", Posix.Dir);
    ("/work/node_modules/.pnpm/circom2@0.2.13/node_modules/circom2", Posix.Dir);
    ("/work/node_modules/.pnpm/circom2@0.2.13/node_modules/circom2/cli.js", Posix.File);
    ("/work/node_modules/circom2", Posix.Dir);
    ("/work/node_modules/circom2/cli.js", Posix.File) ].

(** A checkout whose store is a file, so that it cannot be listed. *)
Definition broken_store : Posix.Files :=
  [ ("/work", Posix.Dir); ("/work/node_modules", Posix.Dir);
    ("/work/node_modules/.pnpm", Posix.File);
    ("/work/node_modules/.bin", Posix.Dir);
    ("/work/node_modules/.bin/circom2", Posix.File) ].

(** The message of the compilation handler around a failed spawn of [node]. *)
Definition spawn_failure_message : string :=
  "Circuit compilation error: spawnSync node ENOENT. Compile manually with: cd circuits && circom2 multiplier2.circom --r1cs --wasm --sym -o build".

(* ===================================================================== *)
(** * More of the class: the segments of [generateProof], frames *)
(* ===================================================================== *)

Module CircuitSegments.
Import Circuit.

Section Segments.
Context `{RT : Runtime}.

(** [generateProof] up to its [await]: what runs when the function is
    called.  It returns the function it saved in [originalStderrWrite]. *)
Definition generateProof_start (p : Process) : Process * write_fn :=
  let originalStderrWrite := bind_this (stderr_write p) in
  (with_stderr_write (stderrFilter originalStderrWrite) p, originalStderrWrite).

(** [generateProof] from its [await] to the end of the [try] block: the
    prover runs and its proof is converted. *)
Definition generateProof_body (this : Circuit) (input : Input) : M ProofResults :=
  '(proof, publicSignals) ← groth16_fullProve input (wasmPath this) (zkeyPath this);
  match toOnchain proof with
  | Throw e => throw e
  | Return onchainProof =>
      mret {| offchain := {| ProofData.proof := proof;
                             ProofData.publicSignals := publicSignals |};
              onchain := {| OnchainProofData.proof := onchainProof;
                            OnchainProofData.publicSignals := publicSignals |} |}
  end.

(** The [finally] block of [generateProof]: what runs when the awaited
    promise has settled. *)
Definition generateProof_finally (originalStderrWrite : write_fn) (p : Process)
    : Process :=
  with_stderr_write originalStderrWrite p.

(** Whether a native proof has the eight coordinates that [generateProof]
    reads: two in [pi_a] and in [pi_c], two in each of the first two rows of
    [pi_b]. *)
Definition has_coordinates (proof : Proof) : bool :=
  (2 <=? length (pi_a proof))%nat &&
  match pi_b proof with
  | row0 :: row1 :: _ => (2 <=? length row0)%nat && (2 <=? length row1)%nat
  | _ => false
  end &&
  (2 <=? length (pi_c proof))%nat.

(** A computation that loses no artifact of the circuit, however it ends. *)
Definition preserving (this : Circuit) {A} (m : M A) : Prop :=
  forall p, keeps this (fs p) (fs (fst (m p))).

(** The candidates [runCommand] tries for [pnpm], in order. *)
Definition pnpm_candidates : list string :=
  [ join [cwd; "node_modules"; ".bin"; "pnpm"];
    "/usr/local/bin/pnpm";
    "/opt/homebrew/bin/pnpm" ].

(** The message of [runCommand] for an exit status other than 0. *)
Definition exit_message (command : string) (status : option Z) : string :=
  ("Command " +:+ dquote +:+ command +:+ dquote) +:+ " exited with code " +:+
  show_status status.

(** How a [spawnSync] result makes [runCommand] throw [e]: it carries the
    spawn error [e], or it has no error, a status other than 0, and [e] is
    the exit message for [command]. *)
Definition fails_with (command : string) (result : SpawnResult) (e : exn) : Prop :=
  error result = Some e \/
  (error result = None /\ status result <> Some 0 /\
   e = Error (exit_message command (status result))).

End Segments.

End CircuitSegments.

(* ===================================================================== *)
(** * A runtime whose tools do nothing *)
(* ===================================================================== *)

(** The POSIX-like runtime with every spawned child exiting with 0 and
    writing nothing: a compiler or a [snarkjs] that only prints. *)
Module Idle.
Import Circuit.

Definition idle_spawnSync (executable : string) (args : list string)
    (options : SpawnOptions) (files : Posix.Files) : Posix.Files * SpawnResult :=
  (files, Posix.exited 0).

Definition runtime : Runtime := {|
  FS := Posix.Files;
  VKey := string;
  cwd := Posix.posix_cwd;
  platform := "linux";
  join := Posix.posix_join;
  relative := Posix.posix_relative;
  existsSync := Posix.exists_at Posix.posix_cwd;
  mkdirSync := Posix.posix_mkdirSync;
  readdirSync := Posix.posix_readdirSync;
  spawnSync := idle_spawnSync;
  fullProve := Posix.posix_fullProve;
  exportVerificationKey := Posix.posix_exportVerificationKey;
  verify := Posix.posix_verify;
|}.

Definition boot (files : Posix.Files) : @Process runtime :=
  @Build_Process runtime files [] Posix.native_write [].

End Idle.

(* ===================================================================== *)
(** * The contract's test double *)
(* ===================================================================== *)

(** [contract MockVerifier] of the contract's tests. *)
Module MockVerifier.

(** [bool public shouldVerify = true] *)
Record storage := { shouldVerify : bool }.

Definition deployed : storage := {| shouldVerify := true |}.

(** [function setVerifyResult(bool _result) external] *)
Definition setVerifyResult (_result : bool) (this : storage) : storage :=
  {| shouldVerify := _result |}.

(** [function verifyProof(...) external view returns (bool)]: the four
    arguments are not read. *)
Definition verifyProof (this : storage)
    (_pA : list Multiplier.uint) (_pB : list (list Multiplier.uint))
    (_pC : list Multiplier.uint) (_pubSignals : list Multiplier.uint) : bool :=
  shouldVerify this.

End MockVerifier.

(** [contract MultiplierTest]: the two contracts that [setUp] deploys, and
    the chain they make. *)
Module MultiplierTest.

Record state := {
  mockAddress : Multiplier.address;
  mockVerifier : MockVerifier.storage;
  multiplier : Multiplier.storage;
}.

(** [setUp()]: a fresh mock, at whatever address it gets, and a
    [Multiplier] constructed with that address. *)
Definition setUp (mockAddress : Multiplier.address) : state :=
  {| mockAddress := mockAddress;
     mockVerifier := MockVerifier.deployed;
     multiplier := Multiplier.constructor mockAddress |}.

(** [mockVerifier.setVerifyResult(_result)] *)
Definition setVerifyResult (_result : bool) (s : state) : state :=
  {| mockAddress := mockAddress s;
     mockVerifier := MockVerifier.setVerifyResult _result (mockVerifier s);
     multiplier := multiplier s |}.

(** A call of [verifyProof] on the chain of the test: the mock answers at
    its address; no other address holds code, and a call there reverts with
    no data. *)
Definition chain (s : state) (callee : Multiplier.address)
    (_pA : list Multiplier.uint) (_pB : list (list Multiplier.uint))
    (_pC : list Multiplier.uint) (_pubSignals : list Multiplier.uint)
    : Multiplier.call_result :=
  if Z.eqb callee (mockAddress s)
  then Multiplier.CallReturned
         (MockVerifier.verifyProof (mockVerifier s) _pA _pB _pC _pubSignals)
  else Multiplier.CallReverted (Multiplier.RawRevert []).

(** [multiplier.check(pA, pB, pC, pubSignals)] called by [caller]. *)
Definition check (s : state) (caller : Multiplier.address)
    (pA : list Multiplier.uint) (pB : list (list Multiplier.uint))
    (pC : list Multiplier.uint) (pubSignals : list Multiplier.uint)
    : Multiplier.tx_result :=
  Multiplier.check (chain s) (multiplier s) {| Multiplier.sender := caller |}
    pA pB pC pubSignals.

End MultiplierTest.

(* ===================================================================== *)
(** * Data of the further runs *)
(* ===================================================================== *)

(** A native proof that differs from that of [result_3_11] in its third
    coordinates and its tags only. *)
Definition other_tags : Circuit.Proof :=
  {| Circuit.pi_a := ["ax"; "ay"; "0"];
     Circuit.pi_b := [["bx0"; "bx1"; "z"]; ["by0"; "by1"]; ["0"; "1"]; []];
     Circuit.pi_c := ["cx"; "33"];
     Circuit.protocol := "plonk";
     Circuit.curve := "bls12381" |}.

(** A checkout on a machine without [pnpm]. *)
Definition without_pnpm : Posix.Files :=
  List.filter (fun entry => negb (String.eqb (fst entry) "/usr/local/bin/pnpm"))
    Posix.checkout.

(** The files a construction on [without_pnpm] leaves, with [pnpm] installed
    afterwards. *)
Definition repaired : Posix.Files :=
  Eval vm_compute in
    Circuit.fs (fst (Circuit.constructor "multiplier2" (Posix.boot without_pnpm)))
    ++ [("/usr/local/bin/pnpm", Posix.File)].

(** A checkout with the witness generator and the prepared ceremony file,
    and no key. *)
Definition unkeyed : Posix.Files :=
  Posix.checkout ++
  [ ("/work/circuits/build", Posix.Dir);
    ("/work/circuits/build/multiplier2_js", Posix.Dir);
    ("/work/circuits/build/multiplier2_js/multiplier2.wasm", Posix.File);
    ("/work/circuits/build/pot8_0000_final.ptau", Posix.File) ].

(** A checkout with only the prepared ceremony file of an earlier build. *)
Definition with_ceremony : Posix.Files :=
  Posix.checkout ++
  [ ("/work/circuits/build", Posix.Dir);
    ("/work/circuits/build/pot8_0000_final.ptau", Posix.File) ].

(* ===================================================================== *)
(** * The compile script *)
(* ===================================================================== *)

(** The script that compiles every circuit of the [circuits] directory
    (in the sources as [unnamed/part_001], lines 1 to 216).  It shares no
    code with the class; its [findCircom2] is the same text as the method of
    the class and is taken from there.  Log lines are held as the bytes of
    their UTF-8 encoding. *)
Module CompileScript.
Import Circuit.

(** How the script ends when it does not die of an uncaught exception: it
    runs to the end of [main], or calls [process.exit]. *)
Inductive ending :=
| Done
| Exit (code : Z).

(** The characters [\x1b] and [\n]. *)
Definition esc : string := String (ascii_of_nat 27) EmptyString.
Definition nl : string := String (ascii_of_nat 10) EmptyString.

(** [colors] *)
Definition reset : string := esc +:+ "[0m".
Definition green : string := esc +:+ "[32m".
Definition yellow : string := esc +:+ "[33m".
Definition blue : string := esc +:+ "[34m".
Definition red : string := esc +:+ "[31m".

(** [s.replace(pattern, replacement)] for a string pattern: the first
    occurrence is replaced. *)
Fixpoint replace_first (pattern replacement s : string) : string :=
  if String.prefix pattern s then
    replacement +:+
    substring (String.length pattern) (String.length s - String.length pattern) s
  else
    match s with
    | EmptyString => EmptyString
    | String ch rest => String ch (replace_first pattern replacement rest)
    end.

Section Script.
Context `{RT : Runtime}.

(** [process.argv.slice(2)] *)
Variable args : list string.

Definition CIRCUITS_DIR : string := join [cwd; "circuits"].
Definition BUILD_DIR : string := join [CIRCUITS_DIR; "build"].

Definition isProd : bool :=
  existsb (String.eqb "--prod") args || existsb (String.eqb "--production") args.

Definition PTAU_SIZE : Z := if isProd then 14 else 8.

(** [function log(message, color)]; every call of the script gives the
    colour. *)
Definition log (message color : string) : M unit :=
  console_log (color +:+ message +:+ reset).

(** [function runCommand(command, args, cwd?)] *)
Definition runCommand (command : string) (args : list string)
    (dir : option string) : M unit :=
  let useShell := String.eqb command "pnpm" && String.eqb platform "win32" in
  let executable := command in
  result ← child_spawnSync executable args
             {| stdio := "inherit";
                spawn_cwd := match dir with
                             | None | Some "" => cwd
                             | Some dir => dir
                             end;
                shell := useShell |};
  check_result ("Command " +:+ dquote +:+ command +:+ dquote) result.

(** [function compileCircuit(circuitFile)] *)
Definition compileCircuit (circuitFile : string) : M unit :=
  let circuitName := replace_first ".circom" "" circuitFile in
  log (nl +:+ "📝 Compiling " +:+ circuitName +:+ "...") blue;;
  circom2Path ← (fun p => (p, Return (findCircom2 (fs p))));
  match circom2Path with
  | None | Some "" =>
      throw (Error "circom2 not found. Install it with: pnpm add -D circom2")
  | Some circom2Path =>
      let circom2RelativePath := relative CIRCUITS_DIR circom2Path in
      (if endsWith "cli.js" circom2Path then
         result ← child_spawnSync "node"
                    (circom2RelativePath :: compile_args circuitFile "build")
                    {| stdio := "inherit"; spawn_cwd := CIRCUITS_DIR; shell := false |};
         check_result "circom2" result
       else
         result ← child_spawnSync circom2RelativePath
                    (compile_args circuitFile "build")
                    {| stdio := "inherit"; spawn_cwd := CIRCUITS_DIR; shell := false |};
         check_result "circom2" result);;
      log ("✅ Compiled " +:+ circuitName) green
  end.

(** The paths and command lines of [generateTrustedSetup]. *)
Definition script_ptauPath (ptauSize : Z) : string :=
  join [BUILD_DIR; "pot" +:+ string_of_Z ptauSize +:+ "_0000.ptau"].
Definition script_ptauPreparedPath (ptauSize : Z) : string :=
  join [BUILD_DIR; "pot" +:+ string_of_Z ptauSize +:+ "_0000_final.ptau"].
Definition script_new_args (ptauSize : Z) : list string :=
  ["exec"; "snarkjs"; "powersoftau"; "new"; "bn128";
   string_of_Z ptauSize; script_ptauPath ptauSize; "-v"].
Definition script_prepare_args (ptauSize : Z) : list string :=
  ["exec"; "snarkjs"; "powersoftau"; "prepare"; "phase2";
   script_ptauPath ptauSize; script_ptauPreparedPath ptauSize; "-v"].
Definition script_setup_args (circuitName : string) (ptauSize : Z) : list string :=
  let r1csPath := join [BUILD_DIR; circuitName +:+ ".r1cs"] in
  let zkeyPath := join [BUILD_DIR; circuitName +:+ ".zkey"] in
  ["exec"; "snarkjs"; "groth16"; "setup";
   r1csPath; script_ptauPreparedPath ptauSize; zkeyPath].

(** [function generateTrustedSetup(circuitName, ptauSize)] *)
Definition generateTrustedSetup (circuitName : string) (ptauSize : Z) : M unit :=
  log (nl +:+ "🔐 Generating trusted setup for " +:+ circuitName +:+ "...") blue;;
  log ("   Using Powers of Tau size: " +:+ string_of_Z ptauSize +:+ " " +:+
       (if isProd then "(PRODUCTION)" else "(DEVELOPMENT)")) yellow;;
  prepared ← fs_existsSync (script_ptauPreparedPath ptauSize);
  (if negb prepared then
     raw ← fs_existsSync (script_ptauPath ptauSize);
     (if negb raw then
        log ("   Generating powers of tau (pot" +:+ string_of_Z ptauSize +:+ ")...")
          yellow;;
        (if isProd then
           log ("   ⚠️  WARNING: Generating pot" +:+ string_of_Z ptauSize +:+
                " takes significant time and memory.") yellow;;
           log "   💡 Consider using pre-generated files from a trusted ceremony instead."
             yellow
         else mret tt);;
        runCommand "pnpm" (script_new_args ptauSize) None
      else mret tt);;
     log "   Preparing powers of tau for phase2..." yellow;;
     runCommand "pnpm" (script_prepare_args ptauSize) None
   else mret tt);;
  log "   Generating zkey..." yellow;;
  runCommand "pnpm" (script_setup_args circuitName ptauSize) None;;
  log ("✅ Generated trusted setup for " +:+ circuitName) green.

(** The [try] block of the loop of [main], for one circuit file. *)
Definition build_circuit (circuitFile : string) : M unit :=
  compileCircuit circuitFile;;
  let circuitName := replace_first ".circom" "" circuitFile in
  generateTrustedSetup circuitName PTAU_SIZE.

(** The loop of [main]: each file in turn; the [catch] block logs the error
    and calls [process.exit(1)], which ends the script there. *)
Fixpoint build_each (circuitFiles : list string) : M ending :=
  match circuitFiles with
  | [] => mret Done
  | circuitFile :: rest =>
      try_catch
        (build_circuit circuitFile;; mret None)
        (fun error =>
           log (nl +:+ "❌ Error compiling " +:+ circuitFile +:+ ": " +:+
                message error) red;;
           mret (Some (Exit 1)))
      ≫= (fun exited =>
            match exited with
            | Some e => mret e
            | None => build_each rest
            end)
  end.

(** [function main()] *)
Definition main : M ending :=
  let mode := if isProd then "PRODUCTION" else "DEVELOPMENT" in
  log ("🚀 Compiling Circom circuits (" +:+ mode +:+ " mode)..." +:+ nl) blue;;
  (if isProd then
     log ("   ⚠️  Production mode: Using pot" +:+ string_of_Z PTAU_SIZE +:+
          " (secure but slower)" +:+ nl) yellow
   else
     log ("   💡 Development mode: Using pot" +:+ string_of_Z PTAU_SIZE +:+
          " (fast for local testing)" +:+ nl) blue;;
     log ("   💡 Use --prod flag for production builds" +:+ nl) blue);;
  present ← fs_existsSync BUILD_DIR;
  (if negb present then fs_mkdirSync BUILD_DIR else mret tt);;
  files ← (fun p => (p, readdirSync CIRCUITS_DIR (fs p)));
  let circuitFiles := List.filter (endsWith ".circom") files in
  if (length circuitFiles =? 0)%nat then
    log "⚠️  No circuits found in circuits/ directory" yellow;;
    mret Done
  else
    log ("Found " +:+ string_of_Z (Z.of_nat (length circuitFiles)) +:+
         " circuit(s): " +:+ String.concat ", " circuitFiles +:+ nl) blue;;
    built ← build_each circuitFiles;
    match built with
    | Exit code => mret (Exit code)
    | Done =>
        log (nl +:+ "✨ All circuits compiled successfully!") green;;
        log (nl +:+ "💡 Next step: Generate Solidity verifiers with: npm run circuits:verifiers" +:+ nl)
          blue;;
        mret Done
    end.

(** ** Vocabulary for the properties of the script *)

(** The call of the compiler that [compileCircuit] makes for a located
    [circom2Path]. *)
Definition script_compiler_call (circuitFile circom2Path : string)
    : string * list string * SpawnOptions :=
  let circom2RelativePath := relative CIRCUITS_DIR circom2Path in
  let options :=
    {| stdio := "inherit"; spawn_cwd := CIRCUITS_DIR; shell := false |} in
  if endsWith "cli.js" circom2Path
  then ("node", circom2RelativePath :: compile_args circuitFile "build", options)
  else (circom2RelativePath, compile_args circuitFile "build", options).

(** The ceremony steps that the existing ceremony files leave to do. *)
Definition ceremony_due (ptauSize : Z) (files : FS) : list (list string) :=
  if existsSync (script_ptauPreparedPath ptauSize) files then []
  else
    (if existsSync (script_ptauPath ptauSize) files then []
     else [script_new_args ptauSize]) ++
    [script_prepare_args ptauSize].

(** The command lines of the build of one circuit file that runs to its
    end from the file system [files]: the compiler, the ceremony steps due
    when it has run, and the key derivation. *)
Definition build_commands (circuitFile circom2Path : string) (files : FS)
    : list (list string) :=
  let c := script_compiler_call circuitFile circom2Path in
  [c.1.2] ++
  ceremony_due PTAU_SIZE (fst (spawnSync c.1.1 c.1.2 c.2 files)) ++
  [script_setup_args (replace_first ".circom" "" circuitFile) PTAU_SIZE].

(** The line the [catch] block of the loop prints. *)
Definition error_line (circuitFile : string) (e : exn) : string :=
  red +:+
  (nl +:+ "❌ Error compiling " +:+ circuitFile +:+ ": " +:+ message e) +:+
  reset.

End Script.

End CompileScript.

(** A project directory in which [circuits] is a file. *)
Definition circuits_is_file : Posix.Files :=
  [ ("/work", Posix.Dir); ("/work/circuits", Posix.File) ].

(* ===================================================================== *)
(** * Properties of the contract *)
(* ===================================================================== *)

Section MultiplierCheck.

Variable verifyProof :
  Multiplier.address -> list Multiplier.uint -> list (list Multiplier.uint) ->
  list Multiplier.uint -> list Multiplier.uint -> Multiplier.call_result.

Local Abbreviation check := (Multiplier.check verifyProof).

(** C8, as amended.  When the call of the verifier returns, [check] reverts
    with the message "invalid proof" exactly when the verifier returned
    false; when it returned true and there is a first public signal, [check]
    returns true and emits [Verified] with that signal and the caller. *)
Theorem check_follows_verifier this msg pA pB pC pubSignals ok :
  verifyProof (Multiplier.verifier this) pA pB pC pubSignals
    = Multiplier.CallReturned ok ->
  (check this msg pA pB pC pubSignals
     = Multiplier.Reverted (Multiplier.ErrorString "invalid proof") <-> ok = false) /\
  (ok = true -> forall resultC rest, pubSignals = resultC :: rest ->
     check this msg pA pB pC pubSignals
       = Multiplier.Success true [Multiplier.Verified resultC (Multiplier.sender msg)]).
Proof.
  intros Hcall. unfold Multiplier.check. rewrite Hcall. split.
  - destruct ok; simpl; [|tauto].
    destruct (pubSignals !! 0%nat); split; discriminate.
  - intros -> resultC rest ->. reflexivity.
Qed.

(** C10.  With no public signal [check] never succeeds: it reverts with the
    index-out-of-bounds panic when the verifier returns true, with "invalid
    proof" when it returns false, and with the verifier's own revert data
    when the call of the verifier reverts. *)
Theorem check_without_signals_reverts this msg pA pB pC :
  (forall ret logs, check this msg pA pB pC [] <> Multiplier.Success ret logs) /\
  check this msg pA pB pC [] =
    match verifyProof (Multiplier.verifier this) pA pB pC [] with
    | Multiplier.CallReturned true => Multiplier.Reverted (Multiplier.Panic 0x32)
    | Multiplier.CallReturned false =>
        Multiplier.Reverted (Multiplier.ErrorString "invalid proof")
    | Multiplier.CallReverted data => Multiplier.Reverted data
    end.
Proof.
  unfold Multiplier.check.
  destruct (verifyProof _ pA pB pC []) as [[|]|data]; simpl; split;
    first [reflexivity | discriminate].
Qed.

End MultiplierCheck.

Lemma check_follows_verifier_witness :
  accepting_verifier 7 [0; 0] [[0; 0]; [0; 0]] [0; 0] [42]
    = Multiplier.CallReturned true /\
  Multiplier.check accepting_verifier {| Multiplier.verifier := 7 |}
    {| Multiplier.sender := 9 |} [0; 0] [[0; 0]; [0; 0]] [0; 0] [42]
  = Multiplier.Success true [Multiplier.Verified 42 9].
Proof.
  split; [reflexivity|].
  exact (proj2 (check_follows_verifier accepting_verifier
                  {| Multiplier.verifier := 7 |} {| Multiplier.sender := 9 |}
                  [0; 0] [[0; 0]; [0; 0]] [0; 0] [42] true eq_refl)
           eq_refl 42 [] eq_refl).
Defined.

(** C8 as stated fails: the verifier returns true, and [check] neither
    returns true nor emits the event, because there is no first public
    signal. *)
Lemma check_accepting_verifier_counterexample :
  ~ (accepting_verifier 7 [0; 0] [[0; 0]; [0; 0]] [0; 0] []
       = Multiplier.CallReturned true ->
     exists resultC,
       Multiplier.check accepting_verifier {| Multiplier.verifier := 7 |}
         {| Multiplier.sender := 9 |} [0; 0] [[0; 0]; [0; 0]] [0; 0] []
       = Multiplier.Success true [Multiplier.Verified resultC 9]).
Proof.
  intros H. destruct (H eq_refl) as [resultC Hc]. discriminate Hc.
Qed.

(* ===================================================================== *)
(** * Properties of the pipeline *)
(* ===================================================================== *)

Import Circuit.

(** ** Strings *)

Lemma app_String ch s t : String ch s +:+ t = String ch (s +:+ t).
Proof. reflexivity. Qed.

Lemma app_empty t : "" +:+ t = t.
Proof. reflexivity. Qed.

Lemma prefix_occurs needle s :
  String.prefix needle s = true <-> exists rest, s = needle +:+ rest.
Proof.
  revert s. induction needle as [|ch needle IH]; intros s.
  - split; [intros _; exists s; reflexivity | intros _; destruct s; reflexivity].
  - destruct s as [|ch' s]; cbn.
    + split; [discriminate|].
      intros [rest Hrest]. rewrite app_String in Hrest. discriminate.
    + destruct (ascii_dec ch ch') as [->|Hne].
      * rewrite IH. split; intros [rest H]; exists rest.
        -- rewrite app_String, H. reflexivity.
        -- rewrite app_String in H. congruence.
      * split; [discriminate|].
        intros [rest Hrest]. rewrite app_String in Hrest. congruence.
Qed.

Lemma includes_occurs needle s :
  includes needle s = true <-> occurs_in needle s.
Proof.
  unfold occurs_in. induction s as [|ch s IH]; cbn [includes].
  - rewrite orb_false_r, prefix_occurs. split.
    + intros [rest ->]. exists "", rest. reflexivity.
    + intros ([|ch before] & after & H).
      * rewrite app_empty in H. eauto.
      * rewrite app_String in H. discriminate.
  - rewrite orb_true_iff, IH, prefix_occurs. split.
    + intros [[rest ->]|(before & after & ->)].
      * exists "", rest. reflexivity.
      * exists (String ch before), after. reflexivity.
    + intros ([|ch' before] & after & H).
      * left. rewrite app_empty in H. eauto.
      * right. rewrite app_String in H. injection H as -> ->. eauto.
Qed.

Lemma memory_diagnostic_test ch :
  includes "Could not allocate" (chunk_text ch) &&
  includes "severe instability" (chunk_text ch) = true <-> memory_diagnostic ch.
Proof.
  unfold memory_diagnostic. rewrite andb_true_iff, !includes_occurs. tauto.
Qed.

(** A typed array prints as digits and commas. *)
Lemma existsb_app_string (f : ascii -> bool) s t :
  existsb f (list_ascii_of_string (s +:+ t))
  = existsb f (list_ascii_of_string s) || existsb f (list_ascii_of_string t).
Proof.
  induction s as [|ch s IH]; [reflexivity|].
  rewrite app_String. cbn [list_ascii_of_string existsb].
  rewrite IH, orb_assoc. reflexivity.
Qed.

Lemma includes_first first needle s :
  includes (String first needle) s = true ->
  existsb (Ascii.eqb first) (list_ascii_of_string s) = true.
Proof.
  induction s as [|ch s IH]; cbn [includes list_ascii_of_string existsb].
  - discriminate.
  - intros [H|H]%orb_true_iff.
    + apply prefix_occurs in H as [rest H]. rewrite app_String in H.
      injection H as -> _. rewrite Ascii.eqb_refl. reflexivity.
    + rewrite (IH H). apply orb_true_r.
Qed.

Lemma byte_text_digits b :
  existsb (Ascii.eqb "C")
    (list_ascii_of_string (string_of_Z (Z.of_nat (Byte.to_nat b)))) = false.
Proof. destruct b; vm_compute; reflexivity. Qed.

Lemma typed_array_text_digits bytes :
  existsb (Ascii.eqb "C") (list_ascii_of_string (chunk_text (CUint8Array bytes)))
  = false.
Proof.
  cbn [chunk_text]. induction bytes as [|b bytes IH]; [reflexivity|].
  destruct bytes as [|b' bytes].
  - apply byte_text_digits.
  - change (String.concat "," (List.map ?f (b :: b' :: bytes)))
      with (f b +:+ "," +:+ String.concat "," (List.map f (b' :: bytes))).
    rewrite !existsb_app_string, byte_text_digits, IH. reflexivity.
Qed.

Lemma typed_array_forwarded bytes : ~ memory_diagnostic (CUint8Array bytes).
Proof.
  intros [H _]. apply includes_occurs, includes_first in H.
  rewrite typed_array_text_digits in H. discriminate H.
Qed.

Lemma startsWith_app p rest : startsWith p (p +:+ rest) = true.
Proof. apply prefix_occurs. eauto. Qed.

(** ** The monad *)

Section Pipeline.
Context `{RT : Runtime}.

Lemma bind_Return {A B} (m : M A) (f : A -> M B) p p' y :
  (x ← m; f x) p = (p', Return y) ->
  exists p1 x, m p = (p1, Return x) /\ f x p1 = (p', Return y).
Proof.
  unfold mbind, M_bind. destruct (m p) as [p1 [x|e]]; [eauto | discriminate].
Qed.

Lemma bind_run {A B} (m : M A) (f : A -> M B) p p1 x :
  m p = (p1, Return x) -> (x ← m; f x) p = f x p1.
Proof. unfold mbind, M_bind. intros ->. reflexivity. Qed.

Lemma bind_Throw {A B} (m : M A) (f : A -> M B) p p1 e :
  m p = (p1, Throw e) -> (x ← m; f x) p = (p1, Throw e).
Proof. unfold mbind, M_bind. intros ->. reflexivity. Qed.

Lemma run_Return {A} (m : M A) p x :
  snd (m p) = Return x -> m p = (fst (m p), Return x).
Proof. destruct (m p) as [p' r]. simpl. intros ->. reflexivity. Qed.

(** ** The standard-error filter and the two proof formats *)

Lemma stderrFilter_suppresses orig ch enc cb sink :
  memory_diagnostic ch ->
  stderrFilter orig ch enc cb sink
    = (sink ++ List.map Ran (callback_of enc cb), Return true).
Proof.
  intros H%memory_diagnostic_test. unfold stderrFilter. rewrite H.
  destruct enc, cb; simpl; rewrite ?app_nil_r; reflexivity.
Qed.

Lemma stderrFilter_forwards orig ch enc cb sink :
  ~ memory_diagnostic ch ->
  stderrFilter orig ch enc cb sink = orig ch enc cb sink.
Proof.
  intros H. unfold stderrFilter.
  destruct (includes _ _ && includes _ _) eqn:E; [|reflexivity].
  apply memory_diagnostic_test in E. contradiction.
Qed.

(** C5, as amended.  In whatever state the awaited prover settles, the
    [finally] block installs the function that was installed when the call
    started.  So for a call that runs from its start to its settlement with
    nothing else replacing [process.stderr.write] meanwhile: whatever it
    settles to (fulfilled or rejected), [process.stderr.write] is afterwards
    the function it was before the call; the prover runs with the filter
    over that function installed; the filter acknowledges a chunk whose
    text, as [toString] gives it, has both phrases without writing it
    (running its callback), and passes every other call on to the original
    function with the same arguments and the same result; a typed array
    that is not a [Buffer] prints as numbers and is always passed on. *)
Theorem generateProof_scopes_stderr_filter this input p :
  (forall q,
     stderr_write
       (CircuitSegments.generateProof_finally
          (snd (CircuitSegments.generateProof_start p)) q)
     = stderr_write p) /\
  stderr_write (fst (CircuitSegments.generateProof_start p))
    = stderrFilter (stderr_write p) /\
  stderr_write (fst (generateProof this input p)) = stderr_write p /\
  stderr (fst (generateProof this input p))
    = fst (fullProve input (wasmPath this) (zkeyPath this) (fs p)
             (stderrFilter (stderr_write p)) (stderr p)) /\
  forall ch enc cb sink,
    (memory_diagnostic ch ->
     stderrFilter (stderr_write p) ch enc cb sink
       = (sink ++ List.map Ran (callback_of enc cb), Return true)) /\
    (~ memory_diagnostic ch ->
     stderrFilter (stderr_write p) ch enc cb sink
       = stderr_write p ch enc cb sink) /\
    (forall bytes,
       ch = CUint8Array bytes ->
       stderrFilter (stderr_write p) ch enc cb sink
         = stderr_write p ch enc cb sink).
Proof.
  split; [intros q; reflexivity|]. split; [reflexivity|].
  split; [|split].
  - unfold generateProof, mbind, M_bind, groth16_fullProve. simpl.
    destruct (fullProve _ _ _ _ _ _) as [sink [[native sigs]|e]]; simpl;
      [destruct (toOnchain native)|]; reflexivity.
  - unfold generateProof, mbind, M_bind, groth16_fullProve. simpl.
    destruct (fullProve _ _ _ _ _ _) as [sink [[native sigs]|e]]; simpl;
      [destruct (toOnchain native)|]; reflexivity.
  - intros ch enc cb sink. split; [|split].
    + apply stderrFilter_suppresses.
    + apply stderrFilter_forwards.
    + intros bytes ->. apply stderrFilter_forwards, typed_array_forwarded.
Qed.

(** What a fulfilled [generateProof] is made of. *)
Lemma generateProof_Return this input p p' res :
  generateProof this input p = (p', Return res) ->
  exists sink native publicSignals onchainProof,
    fullProve input (wasmPath this) (zkeyPath this) (fs p)
      (stderrFilter (stderr_write p)) (stderr p)
      = (sink, Return (native, publicSignals)) /\
    toOnchain native = Return onchainProof /\
    res = {| offchain := {| ProofData.proof := native;
                            ProofData.publicSignals := publicSignals |};
             onchain := {| OnchainProofData.proof := onchainProof;
                           OnchainProofData.publicSignals := publicSignals |} |}.
Proof.
  unfold generateProof, mbind, M_bind, groth16_fullProve. simpl.
  destruct (fullProve _ _ _ _ _ _) as [sink [[native sigs]|e]] eqn:E; simpl;
    [|discriminate].
  destruct (toOnchain native) as [oc|e] eqn:Eo; simpl; [|discriminate].
  intros [= <- <-]. eauto 10.
Qed.

(** The conversion succeeds exactly on proofs that have the eight
    coordinates, and then lays them out as follows. *)
Lemma toOnchain_Return native oc :
  toOnchain native = Return oc ->
  exists a0 a1 row0 row1 b00 b01 b10 b11 c0 c1,
    pi_a native !! 0%nat = Some a0 /\ pi_a native !! 1%nat = Some a1 /\
    pi_b native !! 0%nat = Some row0 /\ pi_b native !! 1%nat = Some row1 /\
    row0 !! 0%nat = Some b00 /\ row0 !! 1%nat = Some b01 /\
    row1 !! 0%nat = Some b10 /\ row1 !! 1%nat = Some b11 /\
    pi_c native !! 0%nat = Some c0 /\ pi_c native !! 1%nat = Some c1 /\
    oc = {| a := [a0; a1]; b := [[b01; b00]; [b11; b10]]; c := [c0; c1] |}.
Proof.
  unfold toOnchain, index2.
  destruct (pi_b native !! 0%nat) as [row0|] eqn:Erow0; simpl; [|discriminate].
  destruct (pi_b native !! 1%nat) as [row1|] eqn:Erow1; simpl; [|discriminate].
  destruct (pi_a native !! 0%nat) as [a0|] eqn:Ea0; simpl; [|discriminate].
  destruct (pi_a native !! 1%nat) as [a1|] eqn:Ea1; simpl; [|discriminate].
  destruct (row0 !! 1%nat) as [b01|] eqn:Eb01; simpl; [|discriminate].
  destruct (row0 !! 0%nat) as [b00|] eqn:Eb00; simpl; [|discriminate].
  destruct (row1 !! 1%nat) as [b11|] eqn:Eb11; simpl; [|discriminate].
  destruct (row1 !! 0%nat) as [b10|] eqn:Eb10; simpl; [|discriminate].
  destruct (pi_c native !! 0%nat) as [c0|] eqn:Ec0; simpl; [|discriminate].
  destruct (pi_c native !! 1%nat) as [c1|] eqn:Ec1; simpl; [|discriminate].
  intros [= <-].
  exists a0, a1, row0, row1, b00, b01, b10, b11, c0, c1.
  repeat split; assumption || reflexivity.
Qed.

Lemma toOnchain_total native a0 a1 row0 row1 b00 b01 b10 b11 c0 c1 :
  pi_a native !! 0%nat = Some a0 -> pi_a native !! 1%nat = Some a1 ->
  pi_b native !! 0%nat = Some row0 -> pi_b native !! 1%nat = Some row1 ->
  row0 !! 0%nat = Some b00 -> row0 !! 1%nat = Some b01 ->
  row1 !! 0%nat = Some b10 -> row1 !! 1%nat = Some b11 ->
  pi_c native !! 0%nat = Some c0 -> pi_c native !! 1%nat = Some c1 ->
  toOnchain native
    = Return {| a := [a0; a1]; b := [[b01; b00]; [b11; b10]]; c := [c0; c1] |}.
Proof.
  intros Ha0 Ha1 Hr0 Hr1 H00 H01 H10 H11 Hc0 Hc1.
  unfold toOnchain, index2.
  rewrite Ha0, Ha1, Hr0, Hr1, Hc0, Hc1. simpl.
  rewrite H00, H01, H10, H11. reflexivity.
Qed.

(** [generateProof] is fulfilled whenever the prover returns a proof that
    has the eight coordinates. *)
Lemma generateProof_fulfils this input p sink native publicSignals
    a0 a1 row0 row1 b00 b01 b10 b11 c0 c1 :
  fullProve input (wasmPath this) (zkeyPath this) (fs p)
    (stderrFilter (stderr_write p)) (stderr p)
    = (sink, Return (native, publicSignals)) ->
  pi_a native !! 0%nat = Some a0 -> pi_a native !! 1%nat = Some a1 ->
  pi_b native !! 0%nat = Some row0 -> pi_b native !! 1%nat = Some row1 ->
  row0 !! 0%nat = Some b00 -> row0 !! 1%nat = Some b01 ->
  row1 !! 0%nat = Some b10 -> row1 !! 1%nat = Some b11 ->
  pi_c native !! 0%nat = Some c0 -> pi_c native !! 1%nat = Some c1 ->
  snd (generateProof this input p)
  = Return {| offchain := {| ProofData.proof := native;
                             ProofData.publicSignals := publicSignals |};
              onchain :=
                {| OnchainProofData.proof :=
                     {| a := [a0; a1]; b := [[b01; b00]; [b11; b10]]; c := [c0; c1] |};
                   OnchainProofData.publicSignals := publicSignals |} |}.
Proof.
  intros Hprove Ha0 Ha1 Hr0 Hr1 H00 H01 H10 H11 Hc0 Hc1.
  unfold generateProof, mbind, M_bind, groth16_fullProve. simpl.
  destruct (fullProve _ _ _ _ _ _) as [sink' r] eqn:E.
  injection Hprove as -> ->. simpl.
  rewrite (toOnchain_total native a0 a1 row0 row1 b00 b01 b10 b11 c0 c1)
    by assumption.
  reflexivity.
Qed.

(** C1.  In every result of [generateProof], the on-chain proof is made of
    the coordinates of the native proof of the same result: [a] is
    [pi_a[0], pi_a[1]] and [c] is [pi_c[0], pi_c[1]], in that order, and row
    [i] of [b] is [pi_b[i][1], pi_b[i][0]]; so [a] and [c] have length 2 and
    [b] has two rows of length 2. *)
Theorem generateProof_onchain_format this input p p' res :
  generateProof this input p = (p', Return res) ->
  let native := ProofData.proof (offchain res) in
  let onchainProof := OnchainProofData.proof (onchain res) in
  (exists a0 a1 row0 row1 b00 b01 b10 b11 c0 c1,
     pi_a native !! 0%nat = Some a0 /\ pi_a native !! 1%nat = Some a1 /\
     pi_b native !! 0%nat = Some row0 /\ pi_b native !! 1%nat = Some row1 /\
     row0 !! 0%nat = Some b00 /\ row0 !! 1%nat = Some b01 /\
     row1 !! 0%nat = Some b10 /\ row1 !! 1%nat = Some b11 /\
     pi_c native !! 0%nat = Some c0 /\ pi_c native !! 1%nat = Some c1 /\
     a onchainProof = [a0; a1] /\
     b onchainProof = [[b01; b00]; [b11; b10]] /\
     c onchainProof = [c0; c1]) /\
  length (a onchainProof) = 2%nat /\
  List.map length (b onchainProof) = [2%nat; 2%nat] /\
  length (c onchainProof) = 2%nat.
Proof.
  intros Hrun.
  destruct (generateProof_Return _ _ _ _ _ Hrun)
    as (sink & native & sigs & oc & _ & Hoc & ->).
  destruct (toOnchain_Return _ _ Hoc)
    as (a0 & a1 & row0 & row1 & b00 & b01 & b10 & b11 & c0 & c1 &
        ? & ? & ? & ? & ? & ? & ? & ? & ? & ? & ->).
  simpl. split; [|auto].
  exists a0, a1, row0, row1, b00, b01, b10, b11, c0, c1.
  repeat split; assumption || reflexivity.
Qed.

(** C9.  In every result of [generateProof], the public signals of the
    on-chain part are those of the off-chain part: the list the prover
    returned, in both places. *)
Theorem generateProof_same_publicSignals this input p p' res :
  generateProof this input p = (p', Return res) ->
  OnchainProofData.publicSignals (onchain res)
    = ProofData.publicSignals (offchain res) /\
  exists sink native,
    fullProve input (wasmPath this) (zkeyPath this) (fs p)
      (stderrFilter (stderr_write p)) (stderr p)
      = (sink, Return (native, ProofData.publicSignals (offchain res))).
Proof.
  intros Hrun.
  destruct (generateProof_Return _ _ _ _ _ Hrun)
    as (sink & native & sigs & oc & Hprove & _ & ->).
  simpl. eauto.
Qed.

(** [verifyProof] adds nothing to the library's verdict: with a key that
    exports, it settles to whatever [groth16.verify] settles to. *)
Lemma verifyProof_forwards this proof publicSignals p vkey :
  exportVerificationKey (zkeyPath this) (fs p) = Return vkey ->
  verifyProof this proof publicSignals p = (p, verify vkey publicSignals proof).
Proof. unfold verifyProof. intros ->. reflexivity. Qed.

(** C4, as amended.  [verifyProof] has no handler of its own and changes
    nothing: it returns a verdict exactly when the key exports and
    [groth16.verify] returns that verdict for it (so it returns false
    exactly when the library returns false), and it throws exactly when the
    export throws or the library throws, with the same error. *)
Theorem verifyProof_follows_library this proof publicSignals p :
  fst (verifyProof this proof publicSignals p) = p /\
  (forall verdict,
     snd (verifyProof this proof publicSignals p) = Return verdict <->
     exists vkey,
       exportVerificationKey (zkeyPath this) (fs p) = Return vkey /\
       verify vkey publicSignals proof = Return verdict) /\
  (forall e,
     snd (verifyProof this proof publicSignals p) = Throw e <->
     exportVerificationKey (zkeyPath this) (fs p) = Throw e \/
     exists vkey,
       exportVerificationKey (zkeyPath this) (fs p) = Return vkey /\
       verify vkey publicSignals proof = Throw e).
Proof.
  unfold verifyProof.
  destruct (exportVerificationKey (zkeyPath this) (fs p)) as [vkey|e0]; cbn [fst snd].
  - split; [reflexivity|]. split.
    + intros verdict. split.
      * intros H. exists vkey. auto.
      * intros (k & [= <-] & H). exact H.
    + intros e. split.
      * intros H. right. exists vkey. auto.
      * intros [H|(k & [= <-] & H)]; [discriminate H|exact H].
  - split; [reflexivity|]. split.
    + intros verdict. split; [discriminate|].
      intros (k & H & _). discriminate H.
    + intros e. split.
      * intros [= <-]. left. reflexivity.
      * intros [[= <-]|(k & H & _)]; [reflexivity|discriminate H].
Qed.

(** ** The toolchain locator *)

Lemma unshift_matches files entries acc :
  fold_left
    (fun acc entry =>
       if startsWith "circom2@" entry then
         if existsSync (storePath entry) files then storePath entry :: acc else acc
       else acc)
    entries acc
  = rev (List.filter (fun path => existsSync path files)
           (List.map storePath (List.filter (startsWith "circom2@") entries)))
    ++ acc.
Proof.
  revert acc. induction entries as [|entry entries IH]; intros acc; simpl.
  - reflexivity.
  - rewrite IH. destruct (startsWith "circom2@" entry); simpl; [|reflexivity].
    destruct (existsSync (storePath entry) files); simpl; [|reflexivity].
    rewrite <- app_assoc. reflexivity.
Qed.

Lemma findCircom2_candidates files :
  findCircom2 files
  = List.find (fun path => existsSync path files)
      (rev (storeMatches files) ++ [directPath; aliasPath]).
Proof.
  unfold findCircom2, storeMatches, storeEntries.
  fold storeDir directPath aliasPath.
  destruct (existsSync storeDir files); [|reflexivity].
  destruct (readdirSync storeDir files) as [entries|e]; [|reflexivity].
  f_equal. apply unshift_matches.
Qed.

Lemma storeMatches_exist files path :
  In path (storeMatches files) -> existsSync path files = true.
Proof. unfold storeMatches. rewrite filter_In. tauto. Qed.

Lemma find_first_of_all {A} (f : A -> bool) (xs rest : list A) :
  (forall x, In x xs -> f x = true) ->
  List.find f (rev xs ++ rest)
  = match last xs with Some x => Some x | None => List.find f rest end.
Proof.
  intros Hall. destruct xs as [|x xs _] using rev_ind; [reflexivity|].
  rewrite rev_app_distr, last_snoc. simpl.
  rewrite Hall; [reflexivity|]. apply in_or_app. right. left. reflexivity.
Qed.

(** C6.  The locator returns what the specification describes (the store
    match discovered last, else the direct installation, else the alias);
    a path it returns exists; it returns nothing exactly when none of the
    candidates exists; and a store that is missing or that cannot be read
    contributes no match.  It is a total function: it cannot throw. *)
Theorem findCircom2_first_existing files :
  findCircom2 files = locate files /\
  (forall path, findCircom2 files = Some path -> existsSync path files = true) /\
  (findCircom2 files = None <->
   storeMatches files = [] /\
   existsSync directPath files = false /\ existsSync aliasPath files = false) /\
  (existsSync storeDir files = false \/
   (exists e, readdirSync storeDir files = Throw e) ->
   storeMatches files = []).
Proof.
  assert (Hloc : findCircom2 files = locate files).
  { rewrite findCircom2_candidates, find_first_of_all
      by apply storeMatches_exist.
    unfold locate. destruct (last (storeMatches files)); [reflexivity|].
    simpl. destruct (existsSync directPath files); [reflexivity|].
    destruct (existsSync aliasPath files); reflexivity. }
  split; [exact Hloc|]. split; [|split].
  - intros path. rewrite findCircom2_candidates.
    intros H. apply find_some in H. tauto.
  - rewrite Hloc. unfold locate.
    destruct (storeMatches files) as [|m ms] eqn:Em using rev_ind.
    + simpl. destruct (existsSync directPath files); [split; [discriminate|intros (_ & ? & _); discriminate]|].
      destruct (existsSync aliasPath files); [split; [discriminate|intros (_ & _ & ?); discriminate]|].
      tauto.
    + rewrite last_snoc. split; [discriminate|].
      intros (H & _). destruct ms; discriminate.
  - unfold storeMatches, storeEntries.
    intros [->|[e ->]]; [reflexivity|].
    destruct (existsSync storeDir files); reflexivity.
Qed.

End Pipeline.

(** ** Construction *)

Section Construction.
Context `{RT : Runtime}.

Lemma keeps_refl this files : keeps this files files.
Proof. intros path _ H. exact H. Qed.

Lemma keeps_trans this f1 f2 f3 :
  keeps this f1 f2 -> keeps this f2 f3 -> keeps this f1 f3.
Proof. intros H12 H23 path Hin H. apply H23, H12; assumption. Qed.

Lemma commands_app evs1 evs2 : commands (evs1 ++ evs2) = commands evs1 ++ commands evs2.
Proof. unfold commands. apply omap_app. Qed.

(** [runCommand "pnpm"] is one [spawnSync] from the project directory,
    followed by the two checks of its result. *)
Lemma runCommand_pnpm args p :
  exists executable options,
    spawn_cwd options = cwd /\
    runCommand "pnpm" args p
    = (with_trace (fun t => t ++ [Spawned executable args options])
         (with_fs (fun _ => fst (spawnSync executable args options (fs p))) p),
       match error (snd (spawnSync executable args options (fs p))) with
       | Some e => Throw e
       | None =>
           match status (snd (spawnSync executable args options (fs p))) with
           | Some 0 => Return tt
           | st => Throw (Error ("Command " +:+ dquote +:+ "pnpm" +:+ dquote +:+
                                 " exited with code " +:+ show_status st))
           end
       end).
Proof.
  unfold runCommand. change (String.eqb "pnpm" "pnpm") with true. cbv iota.
  destruct (String.eqb platform "win32").
  - exists "pnpm", {| stdio := "inherit"; spawn_cwd := cwd; shell := true |}.
    split; [reflexivity|].
    unfold mbind, M_bind, mret, M_ret, child_spawnSync, check_result, throw.
    destruct (spawnSync _ _ _ _) as [files' [err st]]; simpl.
    destruct err; [reflexivity|]. destruct st as [[| |]|]; reflexivity.
  - eexists _, {| stdio := "inherit"; spawn_cwd := cwd; shell := false |}.
    split; [reflexivity|].
    unfold mbind, M_bind, mret, M_ret, child_spawnSync, check_result, throw.
    destruct (spawnSync _ _ _ _) as [files' [err st]] eqn:E; simpl.
    rewrite E. simpl.
    destruct err; [reflexivity|]. destruct st as [[| |]|]; reflexivity.
Qed.

(** The same, with the call named: it is [pnpm_call]. *)
Lemma runCommand_pnpm_call args p :
  runCommand "pnpm" args p
  = (with_trace
       (fun t => t ++ [Spawned (fst (fst (pnpm_call args (fs p)))) args
                         (snd (pnpm_call args (fs p)))])
       (with_fs (fun _ => fst (run_pnpm args (fs p))) p),
     match error (snd (run_pnpm args (fs p))) with
     | Some e => Throw e
     | None =>
         match status (snd (run_pnpm args (fs p))) with
         | Some 0 => Return tt
         | st => Throw (Error ("Command " +:+ dquote +:+ "pnpm" +:+ dquote +:+
                               " exited with code " +:+ show_status st))
         end
     end).
Proof.
  unfold runCommand, run_pnpm, pnpm_call.
  change (String.eqb "pnpm" "pnpm") with true. cbv iota.
  destruct (String.eqb platform "win32");
    unfold mbind, M_bind, mret, M_ret, child_spawnSync, check_result, throw;
    cbn [fst snd];
    destruct (spawnSync _ _ _ _) as [files' [err st]]; simpl;
    (destruct err; [reflexivity|]); destruct st as [[| |]|]; reflexivity.
Qed.

Lemma runCommand_pnpm_Return this args p p' :
  well_behaved this ->
  In args [ptau_new_args this; ptau_prepare_args this; zkey_setup_args this] ->
  runCommand "pnpm" args p = (p', Return tt) ->
  keeps this (fs p) (fs p') /\
  (exists ev, trace p' = trace p ++ [ev] /\ commands [ev] = [args]) /\
  (args = ptau_prepare_args this ->
   existsSync (ptauPreparedPath this) (fs p') = true) /\
  (args = zkey_setup_args this -> existsSync (zkeyPath this) (fs p') = true).
Proof.
  intros WB Hin Hrun. rewrite runCommand_pnpm_call in Hrun.
  destruct (error _) eqn:Eerr; [discriminate|].
  destruct (status _) as [[| |]|] eqn:Est; try discriminate.
  injection Hrun as <-. simpl.
  split; [apply (snarkjs_keeps this WB), Hin|]. split; [eauto|]. split; intros ->.
  - apply (prepare_writes this WB); assumption.
  - apply (setup_writes this WB); assumption.
Qed.

Lemma console_log_run line p :
  console_log line p = (with_trace (fun t => t ++ [ConsoleLog line]) p, Return tt).
Proof. reflexivity. Qed.

(** The build directory. *)
Lemma ensureBuildDir_Return this p p' :
  well_behaved this ->
  ensureBuildDir this p = (p', Return tt) ->
  existsSync (buildDir this) (fs p') = true /\
  keeps this (fs p) (fs p') /\ trace p' = trace p.
Proof.
  intros WB. unfold ensureBuildDir, mbind, M_bind, fs_existsSync, fs_mkdirSync, mret, M_ret.
  destruct (existsSync (buildDir this) (fs p)) eqn:E; simpl.
  - intros [= <-]. auto using keeps_refl.
  - destruct (mkdirSync _ _) as [files'|e] eqn:Em; [|discriminate].
    intros [= <-]. simpl.
    split; [exact (mkdir_makes this WB _ _ Em)|].
    split; [exact (mkdir_keeps this WB _ _ Em) | reflexivity].
Qed.

(** The compilation block. *)
Lemma compileIfMissing_Return this p p' :
  well_behaved this ->
  compileIfMissing this p = (p', Return tt) ->
  existsSync (wasmPath this) (fs p') = true /\
  keeps this (fs p) (fs p') /\
  (existsSync (wasmPath this) (fs p) = true -> p' = p) /\
  exists evs path,
    trace p' = trace p ++ evs /\
    commands evs = compile_due (snd (fst (compiler_call this path))) this (fs p).
Proof.
  intros WB. unfold compileIfMissing, compile_due.
  unfold mbind at 1, M_bind at 1, fs_existsSync at 1.
  destruct (existsSync (wasmPath this) (fs p)) eqn:Ewasm; simpl.
  { intros [= <-]. repeat split; auto using keeps_refl.
    exists [], "". rewrite app_nil_r. auto. }
  unfold mbind, M_bind, console_log, try_catch, throw. simpl.
  destruct (findCircom2 (fs p)) as [[|ch path]|] eqn:Efind; try discriminate.
  set (path0 := String ch path) in *.
  unfold child_spawnSync, check_result, fs_existsSync, throw, mret, M_ret. simpl.
  destruct (endsWith "cli.js" path0) eqn:Ecli; simpl.
  - destruct (spawnSync _ _ _ _) as [files' [err st]] eqn:Es; simpl.
    destruct err; [discriminate|]. simpl.
    destruct st as [[| |]|]; try discriminate. simpl.
    destruct (existsSync (wasmPath this) files') eqn:Ew'; [|discriminate].
    simpl. intros [= <-]. simpl. repeat split; [assumption| |discriminate|].
    + replace files' with (fst (run_compiler this path0 (fs p)))
        by (unfold run_compiler, compiler_call; rewrite Ecli, Es; reflexivity).
      apply (compiler_keeps this WB), Efind.
    + eexists _, path0. rewrite <- app_assoc. split; [reflexivity|].
      unfold compiler_call. rewrite Ecli. reflexivity.
  - destruct (spawnSync _ _ _ _) as [files' [err st]] eqn:Es; simpl.
    destruct err; [discriminate|]. simpl.
    destruct st as [[| |]|]; try discriminate. simpl.
    destruct (existsSync (wasmPath this) files') eqn:Ew'; [|discriminate].
    simpl. intros [= <-]. simpl. repeat split; [assumption| |discriminate|].
    + replace files' with (fst (run_compiler this path0 (fs p)))
        by (unfold run_compiler, compiler_call; rewrite Ecli, Es; reflexivity).
      apply (compiler_keeps this WB), Efind.
    + eexists _, path0. rewrite <- app_assoc. split; [reflexivity|].
      unfold compiler_call. rewrite Ecli. reflexivity.
Qed.

Lemma console_log_Return line p p' :
  console_log line p = (p', Return tt) ->
  fs p' = fs p /\ trace p' = trace p ++ [ConsoleLog line].
Proof. intros [= <-]. auto. Qed.

Lemma fs_existsSync_Return path p p' present :
  fs_existsSync path p = (p', Return present) ->
  p' = p /\ present = existsSync path (fs p).
Proof. intros [= <- <-]. auto. Qed.

(** The ceremony and key block. *)
Lemma setupIfMissing_Return this p p' :
  well_behaved this ->
  setupIfMissing this p = (p', Return tt) ->
  existsSync (zkeyPath this) (fs p') = true /\
  keeps this (fs p) (fs p') /\
  (existsSync (zkeyPath this) (fs p) = true -> p' = p) /\
  exists evs,
    trace p' = trace p ++ evs /\
    commands evs = setup_due this (fs p) /\
    (existsSync (zkeyPath this) (fs p) = false ->
     existsSync (ptauPreparedPath this) (fs p') = true).
Proof.
  intros WB. unfold setupIfMissing, setup_due. intros H.
  apply bind_Return in H as (p0 & zkey & [-> ->]%fs_existsSync_Return & H).
  destruct (existsSync (zkeyPath this) (fs p)) eqn:Ezkey; simpl in H.
  { injection H as <-. repeat split; auto using keeps_refl.
    exists []. rewrite app_nil_r. repeat split. discriminate. }
  apply bind_Return in H as (p1 & [] & [Hf1 Ht1]%console_log_Return & H).
  apply bind_Return in H as (p1' & prepared & [-> ->]%fs_existsSync_Return & H).
  apply bind_Return in H as (p2 & [] & Hceremony & H).
  apply bind_Return in H as (p3 & [] & [Hf3 Ht3]%console_log_Return & H).
  apply (runCommand_pnpm_Return this _ _ _ WB) in H
    as (Hk4 & (ev4 & Ht4 & Hc4) & _ & Hzkey); [|simpl; tauto].
  specialize (Hzkey eq_refl).
  assert (Hcer : keeps this (fs p1) (fs p2) /\
                 existsSync (ptauPreparedPath this) (fs p2) = true /\
                 exists evs, trace p2 = trace p1 ++ evs /\
                   commands evs =
                     if existsSync (ptauPreparedPath this) (fs p) then []
                     else (if existsSync (ptauPath this) (fs p) then []
                           else [ptau_new_args this]) ++ [ptau_prepare_args this]).
  { rewrite Hf1 in Hceremony.
    destruct (existsSync (ptauPreparedPath this) (fs p)) eqn:Eprep;
      simpl in Hceremony.
    { injection Hceremony as <-. rewrite Hf1. repeat split; auto using keeps_refl.
      exists []. rewrite app_nil_r. auto. }
    apply bind_Return in Hceremony
      as (q0 & raw & [-> ->]%fs_existsSync_Return & Hceremony).
    apply bind_Return in Hceremony as (q1 & [] & Hnew & Hceremony).
    apply bind_Return in Hceremony
      as (q2 & [] & [Hfq2 Htq2]%console_log_Return & Hprep).
    apply (runCommand_pnpm_Return this _ _ _ WB) in Hprep
      as (Hkp & (evp & Htp & Hcp) & Hprepared & _); [|simpl; tauto].
    specialize (Hprepared eq_refl).
    rewrite Hf1 in Hnew.
    destruct (existsSync (ptauPath this) (fs p)) eqn:Eraw; simpl in Hnew.
    - injection Hnew as <-. rewrite Hfq2 in Hkp.
      split; [exact Hkp|]. split; [exact Hprepared|].
      exists ([ConsoleLog "Preparing powers of tau for phase2..."] ++ [evp]).
      rewrite Htp, Htq2, <- app_assoc. split; [reflexivity|].
      rewrite commands_app, Hcp. reflexivity.
    - apply bind_Return in Hnew as (r1 & [] & [Hfr1 Htr1]%console_log_Return & Hnew).
      apply (runCommand_pnpm_Return this _ _ _ WB) in Hnew
        as (Hkn & (evn & Htn & Hcn) & _ & _); [|simpl; tauto].
      rewrite Hfr1 in Hkn. rewrite Hfq2 in Hkp.
      split; [exact (keeps_trans _ _ _ _ Hkn Hkp)|]. split; [exact Hprepared|].
      exists ([ConsoleLog ("Generating initial trusted setup file (pot" +:+
                           string_of_Z ptauSize +:+ ")...")] ++ [evn] ++
              [ConsoleLog "Preparing powers of tau for phase2..."] ++ [evp]).
      rewrite Htp, Htq2, Htn, Htr1, <- !app_assoc. split; [reflexivity|].
      rewrite !commands_app, Hcp, Hcn. reflexivity. }
  destruct Hcer as (Hk2 & Hprepared & evs & Ht2 & Hc2).
  rewrite Hf3 in Hk4. rewrite Hf1 in Hk2.
  split; [exact Hzkey|]. split; [exact (keeps_trans _ _ _ _ Hk2 Hk4)|].
  split; [discriminate|].
  exists ([ConsoleLog ("Generating zkey for " +:+ circuitName this +:+ "...")] ++
          evs ++ [ConsoleLog "Generating zkey..."] ++ [ev4]).
  rewrite Ht4, Ht3, Ht2, Ht1, <- !app_assoc. split; [reflexivity|].
  split.
  - rewrite !commands_app, Hc4, Hc2. reflexivity.
  - intros _. apply Hk4; [|exact Hprepared].
    unfold artifacts. simpl. tauto.
Qed.

Lemma setup_due_mono this f1 f2 :
  keeps this f1 f2 -> setup_due this f2 `sublist_of` setup_due this f1.
Proof.
  intros Hk. unfold setup_due.
  assert (Hz := Hk (zkeyPath this)).
  assert (Hp := Hk (ptauPreparedPath this)).
  assert (Hr := Hk (ptauPath this)).
  unfold artifacts in Hz, Hp, Hr. simpl in Hz, Hp, Hr.
  destruct (existsSync (zkeyPath this) f1);
    [rewrite Hz by tauto; reflexivity|].
  destruct (existsSync (zkeyPath this) f2); [apply sublist_nil_l|].
  apply sublist_app; [|reflexivity].
  destruct (existsSync (ptauPreparedPath this) f1);
    [rewrite Hp by tauto; reflexivity|].
  destruct (existsSync (ptauPreparedPath this) f2); [apply sublist_nil_l|].
  apply sublist_app; [|reflexivity].
  destruct (existsSync (ptauPath this) f1);
    [rewrite Hr by tauto; reflexivity|].
  destruct (existsSync (ptauPath this) f2); [apply sublist_nil_l|reflexivity].
Qed.

Lemma compile_due_mono compile this f1 f2 :
  keeps this f1 f2 ->
  compile_due compile this f2 `sublist_of` compile_due compile this f1.
Proof.
  intros Hk. unfold compile_due.
  assert (Hw := Hk (wasmPath this)). unfold artifacts in Hw. simpl in Hw.
  destruct (existsSync (wasmPath this) f1);
    [rewrite Hw by tauto; reflexivity|].
  destruct (existsSync (wasmPath this) f2); [apply sublist_nil_l|reflexivity].
Qed.

Lemma stages_due_all compile this files :
  stages_due compile this files
  `sublist_of` [compile; ptau_new_args this; ptau_prepare_args this;
                zkey_setup_args this].
Proof.
  unfold stages_due, compile_due, setup_due.
  destruct (existsSync (wasmPath this) files),
           (existsSync (zkeyPath this) files),
           (existsSync (ptauPreparedPath this) files),
           (existsSync (ptauPath this) files); simpl;
    repeat constructor.
Qed.

Lemma compiler_call_not_setup this path :
  snd (fst (compiler_call this path)) <> zkey_setup_args this.
Proof.
  unfold compiler_call, compile_args, zkey_setup_args.
  destruct (endsWith "cli.js" path); simpl; intros H; inversion H.
Qed.

Lemma stages_distinct this path :
  NoDup [snd (fst (compiler_call this path)); ptau_new_args this;
         ptau_prepare_args this; zkey_setup_args this].
Proof.
  unfold compiler_call, compile_args, ptau_new_args, ptau_prepare_args,
    zkey_setup_args.
  destruct (endsWith "cli.js" path); simpl;
    repeat (constructor; [rewrite ?list_elem_of_In; simpl;
                          intros H; intuition (try discriminate; try congruence)|]);
    constructor.
Qed.

(** What a construction that returns has done. *)
Lemma constructor_Return name p p' this :
  well_behaved (fields name) ->
  constructor name p = (p', Return this) ->
  this = fields name /\
  existsSync (buildDir this) (fs p') = true /\
  existsSync (wasmPath this) (fs p') = true /\
  existsSync (zkeyPath this) (fs p') = true /\
  exists evs path,
    trace p' = trace p ++ evs /\
    commands evs
      `sublist_of` stages_due (snd (fst (compiler_call this path))) this (fs p) /\
    (In (zkey_setup_args this) (commands evs) ->
     existsSync (ptauPreparedPath this) (fs p') = true).
Proof.
  intros WB H. unfold constructor in H.
  apply bind_Return in H as (p0 & [] & Hdir & H).
  apply bind_Return in H as (p2 & [] & Hensure & H).
  injection H as <- <-.
  unfold ensureCompiled in Hensure.
  apply bind_Return in Hensure as (p1 & [] & Hcompile & Hsetup).
  apply (ensureBuildDir_Return _ _ _ WB) in Hdir as (Hd0 & Hk0 & Ht0).
  apply (compileIfMissing_Return _ _ _ WB) in Hcompile
    as (Hw1 & Hk1 & _ & evs1 & path & Ht1 & Hc1).
  apply (setupIfMissing_Return _ _ _ WB) in Hsetup
    as (Hz2 & Hk2 & _ & evs2 & Ht2 & Hc2 & Hprep).
  set (this := fields name) in *.
  assert (Hin : forall path, In path (artifacts this) -> In path (artifacts this))
    by auto.
  split; [reflexivity|].
  split; [apply Hk2, Hk1; unfold artifacts; simpl; tauto|].
  split; [apply Hk2; unfold artifacts; simpl; tauto|].
  split; [exact Hz2|].
  exists (evs1 ++ evs2), path.
  split; [rewrite Ht2, Ht1, Ht0, app_assoc; reflexivity|].
  rewrite commands_app, Hc1, Hc2. split.
  - unfold stages_due. apply sublist_app.
    + apply compile_due_mono, Hk0.
    + apply setup_due_mono. exact (keeps_trans _ _ _ _ Hk0 Hk1).
  - intros [Hin1|Hin2]%in_app_or.
    + exfalso. unfold compile_due in Hin1.
      destruct (existsSync (wasmPath this) (fs p0)); [destruct Hin1|].
      destruct Hin1 as [Heq|[]].
      exact (compiler_call_not_setup this path Heq).
    + apply Hprep. unfold setup_due in Hin2.
      destruct (existsSync (zkeyPath this) (fs p1)); [destruct Hin2|reflexivity].
Qed.

(** C2, as amended.  With well-behaved tools, a construction that returns
    has the witness generator and the key in place, and the prepared
    ceremony file whenever it ran the key derivation; the commands it ran
    are, in order, among the stages due when it started: the compilation
    only if the witness generator was missing, the ceremony steps and the
    key derivation only if the key was missing.  When the witness generator
    and the key are there at the start, nothing is run, whatever the
    ceremony files. *)
Theorem constructor_ensures_artifacts name p p' this :
  well_behaved (fields name) ->
  constructor name p = (p', Return this) ->
  this = fields name /\
  existsSync (wasmPath this) (fs p') = true /\
  existsSync (zkeyPath this) (fs p') = true /\
  exists evs path,
    trace p' = trace p ++ evs /\
    commands evs
      `sublist_of` stages_due (snd (fst (compiler_call this path))) this (fs p) /\
    (In (zkey_setup_args this) (commands evs) ->
     existsSync (ptauPreparedPath this) (fs p') = true) /\
    (existsSync (wasmPath this) (fs p) = true ->
     existsSync (zkeyPath this) (fs p) = true -> commands evs = []).
Proof.
  intros WB H.
  destruct (constructor_Return _ _ _ _ WB H)
    as (Hthis & _ & Hw & Hz & evs & path & Ht & Hsub & Hprep).
  split; [exact Hthis|]. split; [exact Hw|]. split; [exact Hz|].
  exists evs, path. split; [exact Ht|]. split; [exact Hsub|].
  split; [exact Hprep|].
  intros Ew Ez. unfold stages_due, compile_due, setup_due in Hsub.
  rewrite Ew, Ez in Hsub. simpl in Hsub.
  apply sublist_nil_r in Hsub. exact Hsub.
Qed.

(** C3, as amended.  With well-behaved tools, after a construction that
    returned, a second construction for the same name finds the build
    directory, the witness generator and the key, runs nothing and changes
    nothing; the commands of the two constructions together are those of the
    first, which are, in order, among the four external steps (compilation,
    new ceremony, phase-2 preparation, key derivation), none of them
    twice. *)
Theorem constructor_idempotent name p p1 this :
  well_behaved (fields name) ->
  constructor name p = (p1, Return this) ->
  constructor name p1 = (p1, Return this) /\
  existsSync (buildDir this) (fs p1) = true /\
  existsSync (wasmPath this) (fs p1) = true /\
  existsSync (zkeyPath this) (fs p1) = true /\
  exists evs path,
    trace p1 = trace p ++ evs /\
    commands evs
      `sublist_of` [snd (fst (compiler_call this path)); ptau_new_args this;
                    ptau_prepare_args this; zkey_setup_args this] /\
    NoDup (commands evs).
Proof.
  intros WB H.
  destruct (constructor_Return _ _ _ _ WB H)
    as (-> & Hd & Hw & Hz & evs & path & Ht & Hsub & _).
  split; [|split; [exact Hd|split; [exact Hw|split; [exact Hz|]]]].
  - assert (H0 : ensureBuildDir (fields name) p1 = (p1, Return tt)).
    { unfold ensureBuildDir, mbind, M_bind, fs_existsSync.
      rewrite Hd. reflexivity. }
    assert (H1 : compileIfMissing (fields name) p1 = (p1, Return tt)).
    { unfold compileIfMissing, mbind, M_bind, fs_existsSync.
      rewrite Hw. reflexivity. }
    assert (H2 : setupIfMissing (fields name) p1 = (p1, Return tt)).
    { unfold setupIfMissing, mbind, M_bind, fs_existsSync.
      rewrite Hz. reflexivity. }
    unfold constructor, ensureCompiled.
    rewrite (bind_run _ _ _ _ _ H0).
    rewrite (bind_run _ _ _ _ _ (eq_trans (bind_run _ _ _ _ _ H1) H2)).
    reflexivity.
  - assert (Hall : commands evs
                     `sublist_of` [snd (fst (compiler_call (fields name) path));
                                   ptau_new_args (fields name);
                                   ptau_prepare_args (fields name);
                                   zkey_setup_args (fields name)])
      by (etransitivity; [exact Hsub|apply stages_due_all]).
    exists evs, path. split; [exact Ht|]. split; [exact Hall|].
    exact (sublist_NoDup _ _ (stages_distinct _ _) Hall).
Qed.

(** C7, as amended.  With the build directory in place and the witness
    generator missing: when the locator finds nothing, the construction
    throws the toolchain error as it is, and its message does not begin as a
    compilation error does; when the compiler that was found fails to spawn,
    the construction throws a compilation error around the message of the
    spawn error; when it exits with a status other than 0, the construction
    throws a compilation error that names that status. *)
Theorem constructor_toolchain_errors name p p0 :
  ensureBuildDir (fields name) p = (p0, Return tt) ->
  existsSync (wasmPath (fields name)) (fs p0) = false ->
  startsWith "Circuit compilation error: "
    "circom2 not found. Install it with: pnpm add -D circom2" = false /\
  (findCircom2 (fs p0) = None ->
   exists p',
     constructor name p
     = (p', Throw (Error "circom2 not found. Install it with: pnpm add -D circom2"))) /\
  (forall path, findCircom2 (fs p0) = Some path -> path <> "" ->
   (forall e,
      error (snd (run_compiler (fields name) path (fs p0))) = Some e ->
      exists p',
        constructor name p
        = (p', Throw (Error ("Circuit compilation error: " +:+ message e +:+
                             manual_hint (fields name))))) /\
   (error (snd (run_compiler (fields name) path (fs p0))) = None ->
    status (snd (run_compiler (fields name) path (fs p0))) <> Some 0 ->
    exists p',
      constructor name p
      = (p', Throw (Error ("Circuit compilation error: " +:+
                           ("circom2" +:+ " exited with code " +:+
                            show_status
                              (status (snd (run_compiler (fields name) path (fs p0))))) +:+
                           manual_hint (fields name)))))).
Proof.
  intros Hdir Ewasm. split; [reflexivity|].
  assert (Hctor : forall p' e,
            compileIfMissing (fields name) p0 = (p', Throw e) ->
            constructor name p = (p', Throw e)).
  { intros p' e Hc. unfold constructor.
    rewrite (bind_run _ _ _ _ _ Hdir). unfold ensureCompiled.
    apply bind_Throw. apply bind_Throw. exact Hc. }
  split.
  - intros Hnone. eexists. apply Hctor.
    unfold compileIfMissing, mbind, M_bind, fs_existsSync, console_log, throw.
    rewrite Ewasm. simpl. rewrite Hnone. reflexivity.
  - intros path Hsome Hpath.
    destruct path as [|ch path]; [contradiction|].
    set (path0 := String ch path) in *.
    unfold run_compiler, compiler_call.
    split.
    + intros e He.
      destruct (endsWith "cli.js" path0) eqn:Ecli; simpl in He;
        destruct (spawnSync _ _ _ _) as [files' [err st]] eqn:Es; simpl in He;
        subst err;
        (eexists; apply Hctor;
         unfold compileIfMissing, mbind, M_bind, fs_existsSync, console_log,
           throw, try_catch, child_spawnSync, check_result;
         rewrite Ewasm; simpl; rewrite Hsome; fold path0; rewrite Ecli; simpl;
         rewrite Es; reflexivity).
    + intros He Hst.
      destruct (endsWith "cli.js" path0) eqn:Ecli; simpl in He, Hst;
        destruct (spawnSync _ _ _ _) as [files' [err st]] eqn:Es;
        simpl in He, Hst; subst err;
        (destruct st as [[| |]|]; try contradiction);
        (eexists; apply Hctor;
         unfold compileIfMissing, mbind, M_bind, fs_existsSync, console_log,
           throw, try_catch, child_spawnSync, check_result;
         rewrite Ewasm; simpl; rewrite Hsome; fold path0; rewrite Ecli; simpl;
         rewrite Es; reflexivity).
Qed.

End Construction.

(* ===================================================================== *)
(** * The POSIX-like runtime is well behaved *)
(* ===================================================================== *)

Section PosixFacts.
Import Posix.

Lemma lookup_path_app path files more k :
  lookup_path path files = Some k -> lookup_path path (files ++ more) = Some k.
Proof.
  unfold lookup_path. induction files as [|[q kq] files IH]; simpl.
  - discriminate.
  - destruct (String.eqb q path); [trivial|exact IH].
Qed.

Lemma lookup_path_touch path k' path' files :
  is_Some (lookup_path path files) ->
  is_Some (lookup_path path (touch k' path' files)).
Proof.
  intros [k Hk]. unfold touch.
  destruct (lookup_path path' files); [eauto|].
  exists k. apply lookup_path_app, Hk.
Qed.

Lemma lookup_path_touched k path files :
  is_Some (lookup_path path (touch k path files)).
Proof.
  unfold touch. destruct (lookup_path path files) eqn:E; [rewrite E; eauto|].
  exists k. unfold lookup_path in *.
  induction files as [|[q kq] files IH]; simpl in *.
  - rewrite String.eqb_refl. reflexivity.
  - destruct (String.eqb q path); [discriminate|exact (IH E)].
Qed.

Lemma lookup_path_mkdir_p path dir files :
  is_Some (lookup_path path files) ->
  is_Some (lookup_path path (mkdir_p dir files)).
Proof.
  unfold mkdir_p. generalize (ancestors "" (normalize_segments true [] (split_path dir))).
  intros dirs. revert files. induction dirs as [|d dirs IH]; intros files H; simpl.
  - exact H.
  - apply IH, lookup_path_touch, H.
Qed.

Lemma lookup_path_mkdir_p_made path dirs files :
  In path dirs ->
  is_Some (lookup_path path (fold_left (fun acc dir => touch Dir dir acc) dirs files)).
Proof.
  revert files. induction dirs as [|d dirs IH]; intros files; simpl; [tauto|].
  intros [->|Hin]; [|apply IH, Hin].
  generalize (lookup_path_touched Dir path files).
  generalize (touch Dir path files). clear. intros files H.
  revert files H. induction dirs as [|d dirs IH]; intros files H; simpl.
  - exact H.
  - apply IH, lookup_path_touch, H.
Qed.

Lemma lookup_path_write_file path out files :
  is_Some (lookup_path path files) ->
  is_Some (lookup_path path (write_file out files)).
Proof.
  intros H. unfold write_file. apply lookup_path_touch, lookup_path_mkdir_p, H.
Qed.

Lemma lookup_path_written out files :
  is_Some (lookup_path out (write_file out files)).
Proof. unfold write_file. apply lookup_path_touched. Qed.

Lemma lookup_path_write_all path written files :
  is_Some (lookup_path path files) ->
  is_Some (lookup_path path
             (fold_left (fun acc out => write_file out acc) written files)).
Proof.
  revert files. induction written as [|out written IH]; intros files H; simpl.
  - exact H.
  - apply IH, lookup_path_write_file, H.
Qed.

Lemma exists_at_is_Some base path files :
  exists_at base path files = true <-> is_Some (lookup_path (resolve base path) files).
Proof.
  unfold exists_at. destruct (lookup_path _ files); split; eauto.
  - discriminate.
  - intros [? ?]. discriminate.
Qed.

Lemma posix_spawn_keeps executable args options files base path :
  exists_at base path files = true ->
  exists_at base path (fst (posix_spawnSync executable args options files)) = true.
Proof.
  rewrite !exists_at_is_Some. unfold posix_spawnSync.
  destruct (run_child _ _ _ _) as [written result]. simpl.
  apply lookup_path_write_all.
Qed.

End PosixFacts.

Section PosixTools.
Import Posix.

Lemma posix_prepare_writes executable options files :
  spawn_cwd options = posix_cwd ->
  status (snd (posix_spawnSync executable
                 (ptau_prepare_args (RT := runtime) multiplier2) options files))
    = Some 0 ->
  exists_at posix_cwd (ptauPreparedPath (RT := runtime) multiplier2)
    (fst (posix_spawnSync executable
            (ptau_prepare_args (RT := runtime) multiplier2) options files)) = true.
Proof.
  intros Hcwd.
  change (ptau_prepare_args multiplier2)
    with ["exec"; "snarkjs"; "powersoftau"; "prepare"; "phase2";
          "circuits/build/pot8_0000.ptau"; "circuits/build/pot8_0000_final.ptau"; "-v"].
  change (ptauPreparedPath multiplier2) with "circuits/build/pot8_0000_final.ptau".
  unfold posix_spawnSync, run_child. rewrite Hcwd.
  destruct (String.eqb executable "node").
  - change (endsWith "circom2/cli.js" (resolve posix_cwd "exec")) with false.
    rewrite andb_false_r.
    destruct (exists_at "/" "/usr/bin/node" files); discriminate.
  - destruct (endsWith "pnpm" executable).
    + destruct (exists_at "/" "/usr/local/bin/pnpm" files); [|discriminate].
      unfold run_snarkjs.
      destruct (exists_at posix_cwd "circuits/build/pot8_0000.ptau" files);
        [|discriminate].
      intros _. apply exists_at_is_Some, lookup_path_written.
    + unfold run_circom.
      destruct (exists_at posix_cwd executable files && endsWith "circom2" executable);
        discriminate.
Qed.

Lemma posix_setup_writes executable options files :
  spawn_cwd options = posix_cwd ->
  status (snd (posix_spawnSync executable
                 (zkey_setup_args (RT := runtime) multiplier2) options files))
    = Some 0 ->
  exists_at posix_cwd (zkeyPath multiplier2)
    (fst (posix_spawnSync executable
            (zkey_setup_args (RT := runtime) multiplier2) options files)) = true.
Proof.
  intros Hcwd.
  change (zkey_setup_args multiplier2)
    with ["exec"; "snarkjs"; "groth16"; "setup";
          "/work/circuits/build/multiplier2.r1cs";
          "/work/circuits/build/pot8_0000_final.ptau";
          "/work/circuits/build/multiplier2.zkey"].
  change (zkeyPath multiplier2) with "circuits/build/multiplier2.zkey".
  unfold posix_spawnSync, run_child. rewrite Hcwd.
  destruct (String.eqb executable "node").
  - change (endsWith "circom2/cli.js" (resolve posix_cwd "exec")) with false.
    rewrite andb_false_r.
    destruct (exists_at "/" "/usr/bin/node" files); discriminate.
  - destruct (endsWith "pnpm" executable).
    + destruct (exists_at "/" "/usr/local/bin/pnpm" files); [|discriminate].
      unfold run_snarkjs.
      destruct (exists_at posix_cwd "/work/circuits/build/multiplier2.r1cs" files &&
                exists_at posix_cwd "/work/circuits/build/pot8_0000_final.ptau" files);
        [|discriminate].
      intros _. apply exists_at_is_Some.
      change (resolve posix_cwd "circuits/build/multiplier2.zkey")
        with (resolve posix_cwd "/work/circuits/build/multiplier2.zkey").
      apply lookup_path_written.
    + unfold run_circom.
      destruct (exists_at posix_cwd executable files && endsWith "circom2" executable);
        discriminate.
Qed.

(** The tools of the POSIX-like runtime are well behaved for [multiplier2]. *)
Lemma posix_well_behaved : well_behaved (RT := runtime) multiplier2.
Proof.
  assert (Hmk : forall files files',
            posix_mkdirSync (buildDir multiplier2) files
            = Return files' ->
            files' = mkdir_p (resolve posix_cwd (buildDir multiplier2))
                       files).
  { intros files files'. unfold posix_mkdirSync.
    destruct (is_file _ files); [discriminate|].
    destruct (existsb _ _); [discriminate|]. intros [= <-]. reflexivity. }
  split.
  - intros files files' ->%Hmk. apply exists_at_is_Some.
    apply lookup_path_mkdir_p_made. vm_compute. auto.
  - intros files files' ->%Hmk path _ H.
    apply exists_at_is_Some, lookup_path_mkdir_p, exists_at_is_Some, H.
  - intros files circom2Path _ path _. unfold run_compiler.
    destruct (compiler_call _ _) as [[executable args] options].
    apply posix_spawn_keeps.
  - intros files args _ path _. unfold run_pnpm.
    destruct (pnpm_call _ _) as [[executable args'] options].
    apply posix_spawn_keeps.
  - intros files _ Hst. unfold run_pnpm, pnpm_call in *.
    change (String.eqb platform "win32") with false in *. cbv iota in *.
    apply posix_prepare_writes; [reflexivity|exact Hst].
  - intros files _ Hst. unfold run_pnpm, pnpm_call in *.
    change (String.eqb platform "win32") with false in *. cbv iota in *.
    apply posix_setup_writes; [reflexivity|exact Hst].
Qed.

Lemma posix_new_writes_spawn executable options files :
  spawn_cwd options = posix_cwd ->
  status (snd (posix_spawnSync executable
                 (ptau_new_args (RT := runtime) multiplier2) options files))
    = Some 0 ->
  exists_at posix_cwd (ptauPath (RT := runtime) multiplier2)
    (fst (posix_spawnSync executable
            (ptau_new_args (RT := runtime) multiplier2) options files)) = true.
Proof.
  intros Hcwd.
  change (ptau_new_args multiplier2)
    with ["exec"; "snarkjs"; "powersoftau"; "new"; "bn128"; "8";
          "circuits/build/pot8_0000.ptau"; "-v"].
  change (ptauPath multiplier2) with "circuits/build/pot8_0000.ptau".
  unfold posix_spawnSync, run_child. rewrite Hcwd.
  destruct (String.eqb executable "node").
  - change (endsWith "circom2/cli.js" (resolve posix_cwd "exec")) with false.
    rewrite andb_false_r.
    destruct (exists_at "/" "/usr/bin/node" files); discriminate.
  - destruct (endsWith "pnpm" executable).
    + destruct (exists_at "/" "/usr/local/bin/pnpm" files); [|discriminate].
      unfold run_snarkjs.
      intros _. apply exists_at_is_Some, lookup_path_written.
    + unfold run_circom.
      destruct (exists_at posix_cwd executable files && endsWith "circom2" executable);
        discriminate.
Qed.

(** Its [powersoftau new] writes its output too. *)
Lemma posix_new_writes : new_writes (RT := runtime) multiplier2.
Proof.
  intros files _ Hst. unfold run_pnpm, pnpm_call in *.
  change (String.eqb platform "win32") with false in *. cbv iota in *.
  apply posix_new_writes_spawn; [reflexivity|exact Hst].
Qed.

End PosixTools.

(* ===================================================================== *)
(** * Concrete runs on the POSIX-like runtime *)
(* ===================================================================== *)

Section Runs.
Import Posix.

Example findCircom2_prefers_last_listed :
  findCircom2 (RT := runtime) two_versions
  = Some "/work/node_modules/.pnpm/circom2@0.2.13/node_modules/circom2/cli.js".
Proof. vm_compute. reflexivity. Qed.

Example findCircom2_unreadable_store :
  findCircom2 (RT := runtime) broken_store = Some "/work/node_modules/.bin/circom2".
Proof. vm_compute. reflexivity. Qed.

Example findCircom2_nothing_installed :
  findCircom2 (RT := runtime) uninstalled = None.
Proof. vm_compute. reflexivity. Qed.

Example constructor_runs_four_steps :
  List.map (take 4)
    (commands (trace (fst (constructor "multiplier2" (boot checkout)))))
  = [ ["../node_modules/.pnpm/circom2@0.2.22/node_modules/circom2/cli.js";
       "multiplier2.circom"; "--r1cs"; "--wasm"];
      ["exec"; "snarkjs"; "powersoftau"; "new"];
      ["exec"; "snarkjs"; "powersoftau"; "prepare"];
      ["exec"; "snarkjs"; "groth16"; "setup"] ].
Proof. vm_compute. reflexivity. Qed.

Example constructor_rejected_source :
  snd (constructor "multiplier2" (boot without_source))
  = Throw (Error "Circuit compilation error: circom2 exited with code 1. Compile manually with: cd circuits && circom2 multiplier2.circom --r1cs --wasm --sym -o build").
Proof. vm_compute. reflexivity. Qed.

Example generateProof_3_11 :
  snd (generateProof multiplier2 input_3_11 (boot built)) = Return result_3_11.
Proof. vm_compute. reflexivity. Qed.

Example generateProof_filters_warning :
  stderr (fst (generateProof multiplier2 input_3_11 (boot built)))
  = [Wrote (CString "witness computed")].
Proof. vm_compute. reflexivity. Qed.

Example generateProof_missing_input :
  let run := generateProof multiplier2 {[ "a" := Scalar "3" ]} (boot built) in
  snd run = Throw (Error "Not all inputs have been set") /\
  stderr_write (fst run) = native_write.
Proof. vm_compute. split; reflexivity. Qed.

End Runs.

(* ===================================================================== *)
(** * Instances and counterexamples *)
(* ===================================================================== *)

Section Instances.
Import Posix.

Lemma generateProof_onchain_format_witness :
  generateProof multiplier2 input_3_11 (boot built)
    = (fst (generateProof multiplier2 input_3_11 (boot built)), Return result_3_11) /\
  a (OnchainProofData.proof (onchain result_3_11)) = ["ax"; "ay"] /\
  b (OnchainProofData.proof (onchain result_3_11)) = [["bx1"; "bx0"]; ["by1"; "by0"]] /\
  c (OnchainProofData.proof (onchain result_3_11)) = ["cx"; "33"] /\
  length (a (OnchainProofData.proof (onchain result_3_11))) = 2%nat /\
  List.map length (b (OnchainProofData.proof (onchain result_3_11))) = [2%nat; 2%nat] /\
  length (c (OnchainProofData.proof (onchain result_3_11))) = 2%nat.
Proof.
  assert (Hrun : generateProof multiplier2 input_3_11 (boot built)
                 = (fst (generateProof multiplier2 input_3_11 (boot built)),
                    Return result_3_11))
    by (apply run_Return; vm_compute; reflexivity).
  split; [exact Hrun|].
  destruct (generateProof_onchain_format multiplier2 input_3_11 (boot built) _
              result_3_11 Hrun) as (_ & Hlen).
  repeat split; try reflexivity; apply Hlen.
Defined.

Lemma generateProof_same_publicSignals_witness :
  generateProof multiplier2 input_3_11 (boot built)
    = (fst (generateProof multiplier2 input_3_11 (boot built)), Return result_3_11) /\
  OnchainProofData.publicSignals (onchain result_3_11)
    = ProofData.publicSignals (offchain result_3_11).
Proof.
  assert (Hrun : generateProof multiplier2 input_3_11 (boot built)
                 = (fst (generateProof multiplier2 input_3_11 (boot built)),
                    Return result_3_11))
    by (apply run_Return; vm_compute; reflexivity).
  split; [exact Hrun|].
  exact (proj1 (generateProof_same_publicSignals multiplier2 input_3_11
                  (boot built) _ result_3_11 Hrun)).
Defined.

Lemma constructor_ensures_artifacts_witness :
  constructor "multiplier2" (boot checkout)
    = (fst (constructor "multiplier2" (boot checkout)), Return multiplier2) /\
  existsSync (wasmPath multiplier2)
    (fs (fst (constructor "multiplier2" (boot checkout)))) = true /\
  existsSync (zkeyPath multiplier2)
    (fs (fst (constructor "multiplier2" (boot checkout)))) = true.
Proof.
  assert (Hrun : constructor "multiplier2" (boot checkout)
                 = (fst (constructor "multiplier2" (boot checkout)),
                    Return multiplier2))
    by (apply run_Return; vm_compute; reflexivity).
  split; [exact Hrun|].
  destruct (constructor_ensures_artifacts "multiplier2" (boot checkout) _
              multiplier2 posix_well_behaved Hrun) as (_ & Hwasm & Hzkey & _).
  split; [exact Hwasm | exact Hzkey].
Defined.

Lemma constructor_idempotent_witness :
  constructor "multiplier2" (boot checkout)
    = (fst (constructor "multiplier2" (boot checkout)), Return multiplier2) /\
  constructor "multiplier2" (fst (constructor "multiplier2" (boot checkout)))
    = (fst (constructor "multiplier2" (boot checkout)), Return multiplier2).
Proof.
  assert (Hrun : constructor "multiplier2" (boot checkout)
                 = (fst (constructor "multiplier2" (boot checkout)),
                    Return multiplier2))
    by (apply run_Return; vm_compute; reflexivity).
  split; [exact Hrun|].
  exact (proj1 (constructor_idempotent "multiplier2" (boot checkout) _
                  multiplier2 posix_well_behaved Hrun)).
Defined.

Lemma constructor_toolchain_errors_witness :
  ensureBuildDir multiplier2 (boot uninstalled)
    = (fst (ensureBuildDir multiplier2 (boot uninstalled)), Return tt) /\
  existsSync (wasmPath multiplier2)
    (fs (fst (ensureBuildDir multiplier2 (boot uninstalled)))) = false /\
  exists p',
    constructor "multiplier2" (boot uninstalled)
    = (p', Throw (Error "circom2 not found. Install it with: pnpm add -D circom2")).
Proof.
  assert (Hdir : ensureBuildDir multiplier2 (boot uninstalled)
                 = (fst (ensureBuildDir multiplier2 (boot uninstalled)), Return tt))
    by (apply run_Return; vm_compute; reflexivity).
  assert (Hwasm : existsSync (wasmPath multiplier2)
                    (fs (fst (ensureBuildDir multiplier2 (boot uninstalled)))) = false)
    by (vm_compute; reflexivity).
  split; [exact Hdir|]. split; [exact Hwasm|].
  destruct (constructor_toolchain_errors "multiplier2" (boot uninstalled) _
              Hdir Hwasm) as (_ & Hnone & _).
  apply Hnone. vm_compute. reflexivity.
Defined.

(** C2 as stated fails: the key and the witness generator exist, the
    ceremony files do not, and the construction returns without them. *)
Lemma constructor_skips_ceremony_counterexample :
  existsSync (zkeyPath multiplier2) keyed = true /\
  existsSync (ptauPreparedPath multiplier2) keyed = false /\
  ~ (forall p' this,
       constructor "multiplier2" (boot keyed) = (p', Return this) ->
       existsSync (ptauPath this) (fs p') = true /\
       existsSync (ptauPreparedPath this) (fs p') = true).
Proof.
  split; [vm_compute; reflexivity|]. split; [vm_compute; reflexivity|].
  intros H.
  assert (Hrun : constructor "multiplier2" (boot keyed)
                 = (fst (constructor "multiplier2" (boot keyed)), Return multiplier2))
    by (apply run_Return; vm_compute; reflexivity).
  destruct (H _ _ Hrun) as [Hraw _]. vm_compute in Hraw. discriminate Hraw.
Qed.

(** C3 as stated fails when a tool is not well behaved: the key derivation
    exits with 0 and leaves no key, the construction returns all the same,
    and the second construction runs the key derivation again. *)
Lemma constructor_repeats_setup_counterexample :
  snd (constructor (RT := Idle.runtime) "multiplier2" (Idle.boot unkeyed))
    = Return (fields (RT := Idle.runtime) "multiplier2") /\
  ~ (forall p1 this p2 outcome,
       constructor (RT := Idle.runtime) "multiplier2" (Idle.boot unkeyed)
       = (p1, Return this) ->
       constructor (RT := Idle.runtime) "multiplier2" p1 = (p2, outcome) ->
       commands (trace p2) = commands (trace p1)).
Proof.
  split; [vm_compute; reflexivity|]. intros H.
  assert (Hrun : constructor (RT := Idle.runtime) "multiplier2" (Idle.boot unkeyed)
                 = (fst (constructor (RT := Idle.runtime) "multiplier2"
                           (Idle.boot unkeyed)),
                    Return (fields (RT := Idle.runtime) "multiplier2")))
    by (apply (run_Return (RT := Idle.runtime)); vm_compute; reflexivity).
  specialize (H _ _ _ _ Hrun (surjective_pairing _)).
  vm_compute in H. discriminate H.
Qed.

(** C4 as stated fails: in the stand-in, as in the library, a proof checked
    against a list of another value gives false, and against a list one
    entry too long it makes the verifier throw, which [verifyProof] passes
    on. *)
Lemma verifyProof_longer_list_counterexample :
  snd (verifyProof multiplier2 (ProofData.proof (offchain result_3_11)) ["7"]
         (boot built)) = Return false /\
  ~ (forall publicSignals,
       publicSignals <> ProofData.publicSignals (offchain result_3_11) ->
       snd (verifyProof multiplier2 (ProofData.proof (offchain result_3_11))
              publicSignals (boot built)) = Return false).
Proof.
  split; [vm_compute; reflexivity|]. intros H.
  specialize (H ["33"; "0"]). vm_compute in H.
  assert (Hne : ["33"; "0"] <> ["33"]) by discriminate.
  specialize (H Hne). discriminate H.
Qed.

(** C5 as stated fails for calls that overlap: the second call starts while
    the first awaits its prover, the first settles, then the second.  While
    the second prover still runs the warning is written, and after both
    calls have settled [process.stderr.write] is not the function it was: it
    still suppresses the warning. *)
Lemma generateProof_overlap_counterexample :
  let warning := CString memory_warning in
  let q1 := fst (CircuitSegments.generateProof_start (boot built)) in
  let q2 := fst (CircuitSegments.generateProof_start q1) in
  let q3 := CircuitSegments.generateProof_finally
              (snd (CircuitSegments.generateProof_start (boot built))) q2 in
  let q4 := CircuitSegments.generateProof_finally
              (snd (CircuitSegments.generateProof_start q1)) q3 in
  stderr_write q3 warning EncUndefined None [] = ([Wrote warning], Return true) /\
  stderr_write q4 warning EncUndefined None [] = ([], Return true) /\
  stderr_write q4 <> stderr_write (boot built).
Proof.
  intros warning q1 q2 q3 q4.
  assert (H3 : stderr_write q3 warning EncUndefined None []
               = ([Wrote warning], Return true)) by (vm_compute; reflexivity).
  assert (H4 : stderr_write q4 warning EncUndefined None [] = ([], Return true))
    by (vm_compute; reflexivity).
  split; [exact H3|]. split; [exact H4|]. intros Heq.
  rewrite Heq in H4. vm_compute in H4. discriminate H4.
Qed.

(** C7 as stated fails: the compiler was located, [node] could not be
    spawned, so there is no exit status, and the compilation error that the
    construction throws carries the message of the spawn error, not a
    status. *)
Lemma constructor_spawn_failure_counterexample :
  (exists path,
     findCircom2 (fs (fst (ensureBuildDir multiplier2 (boot without_node)))) = Some path /\
     status (snd (run_compiler multiplier2 path
                    (fs (fst (ensureBuildDir multiplier2 (boot without_node)))))) = None) /\
  snd (constructor "multiplier2" (boot without_node))
    = Throw (Error spawn_failure_message) /\
  includes "exited with code" spawn_failure_message = false /\
  ~ (exists p' shown,
       constructor "multiplier2" (boot without_node)
       = (p', Throw (Error ("Circuit compilation error: circom2 exited with code " +:+
                            shown +:+ manual_hint multiplier2)))).
Proof.
  split.
  { exists "/work/node_modules/.pnpm/circom2@0.2.22/node_modules/circom2/cli.js".
    split; vm_compute; reflexivity. }
  split; [vm_compute; reflexivity|]. split; [vm_compute; reflexivity|].
  intros (p' & shown & H).
  assert (Hthrown : snd (constructor "multiplier2" (boot without_node))
                    = Throw (Error spawn_failure_message))
    by (vm_compute; reflexivity).
  rewrite H in Hthrown. cbn [snd] in Hthrown. injection Hthrown as Hmsg.
  vm_compute in Hmsg. discriminate Hmsg.
Qed.

End Instances.

(* ===================================================================== *)
(** * More properties of proof generation *)
(* ===================================================================== *)

Import CircuitSegments.

Section ProofGeneration.
Context `{RT : Runtime}.

(** [generateProof] is its three segments in a row. *)
Lemma generateProof_segments this input p :
  generateProof this input p
  = (generateProof_finally (snd (generateProof_start p))
       (fst (generateProof_body this input (fst (generateProof_start p)))),
     snd (generateProof_body this input (fst (generateProof_start p)))).
Proof.
  change (generateProof this input p)
    with (let '(p', r) :=
            generateProof_body this input (fst (generateProof_start p)) in
          (generateProof_finally (snd (generateProof_start p)) p', r)).
  destruct (generateProof_body this input _) as [p' r]. reflexivity.
Qed.

Lemma generateProof_body_frame this input p :
  fs (fst (generateProof_body this input p)) = fs p /\
  trace (fst (generateProof_body this input p)) = trace p /\
  stderr_write (fst (generateProof_body this input p)) = stderr_write p.
Proof.
  unfold generateProof_body, mbind, M_bind, groth16_fullProve.
  destruct (fullProve _ _ _ _ _ _) as [sink [[native sigs]|e]]; simpl;
    [destruct (toOnchain native)|]; simpl; auto.
Qed.

Lemma has_coordinates_lookups native :
  has_coordinates native = true <->
  exists a0 a1 row0 row1 b00 b01 b10 b11 c0 c1,
    pi_a native !! 0%nat = Some a0 /\ pi_a native !! 1%nat = Some a1 /\
    pi_b native !! 0%nat = Some row0 /\ pi_b native !! 1%nat = Some row1 /\
    row0 !! 0%nat = Some b00 /\ row0 !! 1%nat = Some b01 /\
    row1 !! 0%nat = Some b10 /\ row1 !! 1%nat = Some b11 /\
    pi_c native !! 0%nat = Some c0 /\ pi_c native !! 1%nat = Some c1.
Proof.
  unfold has_coordinates. split.
  - destruct (pi_a native) as [|a0 [|a1 ?]]; simpl; try discriminate.
    destruct (pi_b native) as [|[|b00 [|b01 ?]] [|[|b10 [|b11 ?]] ?]]; simpl;
      try discriminate.
    destruct (pi_c native) as [|c0 [|c1 ?]]; simpl; try discriminate.
    intros _. exists a0, a1, (b00 :: b01 :: l0), (b10 :: b11 :: l1),
      b00, b01, b10, b11, c0, c1.
    repeat split; reflexivity.
  - intros (a0 & a1 & row0 & row1 & b00 & b01 & b10 & b11 & c0 & c1 &
            Ha0 & Ha1 & Hr0 & Hr1 & H00 & H01 & H10 & H11 & Hc0 & Hc1).
    destruct (pi_a native) as [|? [|? ?]]; try discriminate.
    destruct (pi_b native) as [|? [|? ?]]; try discriminate.
    injection Hr0 as ->. injection Hr1 as ->.
    destruct row0 as [|? [|? ?]]; try discriminate.
    destruct row1 as [|? [|? ?]]; try discriminate.
    destruct (pi_c native) as [|? [|? ?]]; try discriminate.
    reflexivity.
Qed.

Lemma toOnchain_TypeError native e :
  toOnchain native = Throw e -> exists msg, e = TypeError msg.
Proof.
  unfold toOnchain, index2.
  destruct (pi_b native !! 0%nat) as [row0|]; simpl; [|intros [= <-]; eauto].
  destruct (pi_b native !! 1%nat) as [row1|]; simpl; [|intros [= <-]; eauto].
  destruct (pi_a native !! 0%nat); simpl; [|intros [= <-]; eauto].
  destruct (pi_a native !! 1%nat); simpl; [|intros [= <-]; eauto].
  destruct (row0 !! 1%nat); simpl; [|intros [= <-]; eauto].
  destruct (row0 !! 0%nat); simpl; [|intros [= <-]; eauto].
  destruct (row1 !! 1%nat); simpl; [|intros [= <-]; eauto].
  destruct (row1 !! 0%nat); simpl; [|intros [= <-]; eauto].
  destruct (pi_c native !! 0%nat); simpl; [|intros [= <-]; eauto].
  destruct (pi_c native !! 1%nat); simpl; [|intros [= <-]; eauto].
  discriminate.
Qed.

(** X1.  The conversion to the on-chain format returns exactly for the
    native proofs that have the eight coordinates it reads; for every other
    proof it throws, and what it throws is a [TypeError]. *)
Theorem toOnchain_returns_iff_coordinates native :
  (has_coordinates native = true <-> exists oc, toOnchain native = Return oc) /\
  (has_coordinates native = false <->
   exists msg, toOnchain native = Throw (TypeError msg)).
Proof.
  assert (Hret : has_coordinates native = true <->
                 exists oc, toOnchain native = Return oc).
  { rewrite has_coordinates_lookups. split.
    - intros (a0 & a1 & row0 & row1 & b00 & b01 & b10 & b11 & c0 & c1 &
              Ha0 & Ha1 & Hr0 & Hr1 & H00 & H01 & H10 & H11 & Hc0 & Hc1).
      eexists. eapply toOnchain_total; eassumption.
    - intros [oc Hoc].
      destruct (toOnchain_Return _ _ Hoc)
        as (a0 & a1 & row0 & row1 & b00 & b01 & b10 & b11 & c0 & c1 &
            ? & ? & ? & ? & ? & ? & ? & ? & ? & ? & _).
      exists a0, a1, row0, row1, b00, b01, b10, b11, c0, c1.
      repeat split; assumption. }
  split; [exact Hret|]. split.
  - intros Hno. destruct (toOnchain native) as [oc|e] eqn:E.
    + assert (has_coordinates native = true) by (apply Hret; eauto). congruence.
    + destruct (toOnchain_TypeError _ _ E) as [msg ->]. eauto.
  - intros [msg Hthrow]. destruct (has_coordinates native) eqn:E; [|reflexivity].
    destruct (proj1 Hret eq_refl) as [oc Hoc]. congruence.
Qed.

Lemma lookup_take_2 {A} (l1 l2 : list A) (i : nat) :
  take 2 l1 = take 2 l2 -> (i < 2)%nat -> l1 !! i = l2 !! i.
Proof.
  intros Htake Hi.
  rewrite <- (lookup_take_lt l1 2 i Hi), <- (lookup_take_lt l2 2 i Hi), Htake.
  reflexivity.
Qed.

(** X2.  The on-chain proof depends on the first two entries of [pi_a] and
    of [pi_c] and on the first two entries of the first two rows of [pi_b],
    and on nothing else: not on a third (projective) coordinate, not on
    [protocol], not on [curve]. *)
Theorem toOnchain_reads_first_two native1 native2 :
  take 2 (pi_a native1) = take 2 (pi_a native2) ->
  List.map (take 2) (take 2 (pi_b native1))
    = List.map (take 2) (take 2 (pi_b native2)) ->
  take 2 (pi_c native1) = take 2 (pi_c native2) ->
  toOnchain native1 = toOnchain native2.
Proof.
  intros Ha Hb Hc. unfold toOnchain, index2.
  rewrite (lookup_take_2 _ _ 0 Ha), (lookup_take_2 _ _ 1 Ha) by lia.
  rewrite (lookup_take_2 _ _ 0 Hc), (lookup_take_2 _ _ 1 Hc) by lia.
  destruct (pi_b native1) as [|r0 [|r1 ?]], (pi_b native2) as [|s0 [|s1 ?]];
    simpl in Hb; try discriminate; simpl; try reflexivity.
  injection Hb as Hb0 Hb1.
  rewrite (lookup_take_2 _ _ 0 Hb0), (lookup_take_2 _ _ 1 Hb0) by lia.
  rewrite (lookup_take_2 _ _ 0 Hb1), (lookup_take_2 _ _ 1 Hb1) by lia.
  reflexivity.
Qed.

(** X3.  [generateProof] is rejected in two cases only: with the prover's
    own error when the prover is rejected, and with the conversion's
    [TypeError] when the prover returns a proof that lacks one of the eight
    coordinates. *)
Theorem generateProof_rejections this input p :
  forall e,
    snd (generateProof this input p) = Throw e <->
    snd (fullProve input (wasmPath this) (zkeyPath this) (fs p)
           (stderrFilter (stderr_write p)) (stderr p)) = Throw e \/
    exists native publicSignals,
      snd (fullProve input (wasmPath this) (zkeyPath this) (fs p)
             (stderrFilter (stderr_write p)) (stderr p))
        = Return (native, publicSignals) /\
      has_coordinates native = false /\ toOnchain native = Throw e.
Proof.
  unfold generateProof, mbind, M_bind, groth16_fullProve. simpl.
  destruct (fullProve _ _ _ _ _ _) as [sink [[native sigs]|e0]] eqn:E; simpl.
  - destruct (toOnchain native) as [oc|e0] eqn:Eo; simpl.
    + intros e. split.
      * discriminate.
      * intros [H|(n & s & H & _ & Hn)]; [discriminate|].
        injection H as <- <-. congruence.
    + intros e. split.
      * intros [= <-]. right. exists native, sigs.
        split; [reflexivity|]. split; [|exact Eo].
        destruct (has_coordinates native) eqn:Ec; [|reflexivity].
        apply has_coordinates_lookups in Ec
          as (a0 & a1 & row0 & row1 & b00 & b01 & b10 & b11 & c0 & c1 &
              Ha0 & Ha1 & Hr0 & Hr1 & H00 & H01 & H10 & H11 & Hc0 & Hc1).
        rewrite (toOnchain_total native a0 a1 row0 row1 b00 b01 b10 b11 c0 c1)
          in Eo by assumption.
        discriminate.
      * intros [H|(n & s & H & _ & Hn)]; [discriminate|].
        injection H as <- <-. congruence.
  - intros e. split.
    + intros [= <-]. left. reflexivity.
    + intros [[= <-]|(n & s & H & _)]; [reflexivity|discriminate].
Qed.

(** X4.  A filter installed over a filter behaves as one filter: what the
    inner one would suppress the outer one has suppressed already, and
    everything else passes both. *)
Theorem stderrFilter_idempotent write ch enc cb sink :
  stderrFilter (stderrFilter write) ch enc cb sink
  = stderrFilter write ch enc cb sink.
Proof.
  unfold stderrFilter.
  destruct (includes "Could not allocate" (chunk_text ch) &&
            includes "severe instability" (chunk_text ch)); reflexivity.
Qed.

(** X5.  Two calls of [generateProof] that overlap.  The second call starts
    while the first is awaiting its prover, so it saves the first call's
    filter as its original.  If the first call settles first, its [finally]
    puts the true original back while the second prover still runs (from
    then on unfiltered), and the [finally] of the second call then installs
    the saved filter: after both calls have settled, [process.stderr.write]
    is the filter, not the function it was before the calls.  If the second
    call settles first, the original is restored. *)
Theorem generateProof_overlapping_calls p q1 q2 q3 :
  stderr_write q1 = stderr_write (fst (generateProof_start p)) ->
  stderr_write q2 = stderr_write (fst (generateProof_start q1)) ->
  (forall ch enc cb sink,
     stderr_write q2 ch enc cb sink = stderrFilter (stderr_write p) ch enc cb sink) /\
  (stderr_write q3
     = stderr_write (generateProof_finally (snd (generateProof_start p)) q2) ->
   stderr_write q3 = stderr_write p /\
   stderr_write (generateProof_finally (snd (generateProof_start q1)) q3)
     = stderrFilter (stderr_write p)) /\
  (stderr_write q3
     = stderr_write (generateProof_finally (snd (generateProof_start q1)) q2) ->
   stderr_write q3 = stderrFilter (stderr_write p) /\
   stderr_write (generateProof_finally (snd (generateProof_start p)) q3)
     = stderr_write p).
Proof.
  unfold generateProof_start, generateProof_finally. simpl.
  intros H1 H2. split; [|split; intros H3].
  - intros ch enc cb sink. rewrite H2. unfold bind_this at 1. rewrite H1.
    unfold stderrFilter, bind_this.
    destruct (includes "Could not allocate" (chunk_text ch) &&
              includes "severe instability" (chunk_text ch)); reflexivity.
  - split; [exact H3|]. unfold bind_this at 1. rewrite H1. reflexivity.
  - split; [|reflexivity]. rewrite H3. unfold bind_this at 1.
    rewrite H1. reflexivity.
Qed.

End ProofGeneration.

(* ===================================================================== *)
(** * More properties of construction *)
(* ===================================================================== *)

Section ConstructionErrors.
Context `{RT : Runtime}.

Lemma bind_Throw_inv {A B} (m : M A) (f : A -> M B) p p' e :
  (x ← m; f x) p = (p', Throw e) ->
  m p = (p', Throw e) \/
  exists p1 x, m p = (p1, Return x) /\ f x p1 = (p', Throw e).
Proof.
  unfold mbind, M_bind. destruct (m p) as [p1 [x|e0]]; [eauto|].
  intros [= <- <-]. auto.
Qed.

Lemma find_first {A} (f : A -> bool) (l : list A) x :
  List.find f l = Some x ->
  f x = true /\
  exists before after, l = before ++ x :: after /\ forall y, In y before -> f y = false.
Proof.
  induction l as [|y l IH]; simpl; [discriminate|].
  destruct (f y) eqn:E.
  - intros [= <-]. split; [exact E|]. exists [], l. split; [reflexivity|].
    intros ? [].
  - intros H. destruct (IH H) as (Hx & before & after & -> & Hb).
    split; [exact Hx|]. exists (y :: before), after. split; [reflexivity|].
    intros z [<-|Hz]; [exact E|exact (Hb z Hz)].
Qed.

(** X6.  [runCommand] spawns one child, once, whether it then returns or
    throws: with the arguments as given, standard streams inherited, in the
    project directory, through a shell only for [pnpm] on win32.  For [pnpm]
    off win32 the executable is the first of the three known locations that
    exists, and [pnpm] itself only when none of them exists; in every other
    case it is the command as given.  It returns when the child has no spawn
    error and exits with 0, throws the spawn error when there is one, and
    otherwise throws an error that names the command as given and the
    status. *)
Theorem runCommand_spawns_once command args p :
  exists executable options,
    runCommand command args p
    = (with_trace (fun t => t ++ [Spawned executable args options])
         (with_fs (fun _ => fst (spawnSync executable args options (fs p))) p),
       match error (snd (spawnSync executable args options (fs p))) with
       | Some e => Throw e
       | None =>
           match status (snd (spawnSync executable args options (fs p))) with
           | Some 0 => Return tt
           | st => Throw (Error (exit_message command st))
           end
       end) /\
    options = {| stdio := "inherit"; spawn_cwd := cwd;
                 shell := String.eqb command "pnpm" && String.eqb platform "win32" |} /\
    (if String.eqb command "pnpm" && negb (String.eqb platform "win32")
     then
       (existsSync executable (fs p) = true /\
        exists before after,
          pnpm_candidates = before ++ executable :: after /\
          forall other, In other before -> existsSync other (fs p) = false) \/
       (executable = command /\
        forall other, In other pnpm_candidates -> existsSync other (fs p) = false)
     else executable = command).
Proof.
  assert (Hrun : forall executable useShell,
    (result ← child_spawnSync executable args
                {| stdio := "inherit"; spawn_cwd := cwd; shell := useShell |};
     check_result ("Command " +:+ dquote +:+ command +:+ dquote) result) p
    = (with_trace (fun t => t ++ [Spawned executable args
                                    {| stdio := "inherit"; spawn_cwd := cwd;
                                       shell := useShell |}])
         (with_fs (fun _ => fst (spawnSync executable args
                                   {| stdio := "inherit"; spawn_cwd := cwd;
                                      shell := useShell |} (fs p))) p),
       match error (snd (spawnSync executable args
                           {| stdio := "inherit"; spawn_cwd := cwd;
                              shell := useShell |} (fs p))) with
       | Some e => Throw e
       | None =>
           match status (snd (spawnSync executable args
                                {| stdio := "inherit"; spawn_cwd := cwd;
                                   shell := useShell |} (fs p))) with
           | Some 0 => Return tt
           | st => Throw (Error (exit_message command st))
           end
       end)).
  { intros executable useShell.
    unfold mbind, M_bind, mret, M_ret, child_spawnSync, check_result, throw,
      exit_message.
    destruct (spawnSync _ _ _ _) as [files' [err st]]; simpl.
    destruct err; [reflexivity|]. destruct st as [[| |]|]; reflexivity. }
  unfold runCommand.
  destruct (String.eqb command "pnpm") eqn:Ecmd.
  - apply String.eqb_eq in Ecmd. subst command.
    destruct (String.eqb platform "win32") eqn:Ewin.
    + exists "pnpm", {| stdio := "inherit"; spawn_cwd := cwd; shell := true |}.
      split; [apply (Hrun "pnpm" true)|]. split; [reflexivity|]. reflexivity.
    + fold pnpm_candidates.
      destruct (List.find (fun path => existsSync path (fs p)) pnpm_candidates)
        as [found|] eqn:Efind.
      * exists found, {| stdio := "inherit"; spawn_cwd := cwd; shell := false |}.
        split.
        { unfold mbind at 1, M_bind at 1. rewrite Efind. apply (Hrun found false). }
        split; [reflexivity|]. left.
        destruct (find_first _ _ _ Efind) as (Hex & before & after & Heq & Hb).
        split; [exact Hex|].
        exists before, after. split; [exact Heq | exact Hb].
      * exists "pnpm", {| stdio := "inherit"; spawn_cwd := cwd; shell := false |}.
        split.
        { unfold mbind at 1, M_bind at 1. rewrite Efind. apply (Hrun "pnpm" false). }
        split; [reflexivity|]. right. split; [reflexivity|].
        intros other Hin.
        exact (find_none _ _ Efind other Hin).
  - exists command, {| stdio := "inherit"; spawn_cwd := cwd; shell := false |}.
    split; [apply (Hrun command false)|]. split; [reflexivity|]. reflexivity.
Qed.

Lemma runCommand_pnpm_Throw args p p' e :
  runCommand "pnpm" args p = (p', Throw e) ->
  exists executable options,
    spawn_cwd options = cwd /\
    fails_with "pnpm" (snd (spawnSync executable args options (fs p))) e.
Proof.
  intros Hrun.
  destruct (runCommand_pnpm args p) as (executable & options & Hcwd & Heq).
  rewrite Heq in Hrun. clear Heq.
  exists executable, options. split; [exact Hcwd|]. unfold fails_with.
  destruct (error _) as [e0|] eqn:Eerr.
  - injection Hrun as _ <-. left. reflexivity.
  - right. split; [reflexivity|].
    destruct (status _) as [[| |]|] eqn:Est; try discriminate;
      injection Hrun as _ <-; (split; [discriminate|reflexivity]).
Qed.

Lemma ensureBuildDir_Throw this p p' e :
  ensureBuildDir this p = (p', Throw e) ->
  existsSync (buildDir this) (fs p) = false /\
  mkdirSync (buildDir this) (fs p) = Throw e.
Proof.
  unfold ensureBuildDir, mbind, M_bind, fs_existsSync, fs_mkdirSync, mret, M_ret.
  destruct (existsSync (buildDir this) (fs p)); simpl; [discriminate|].
  destruct (mkdirSync _ _) as [files'|e0]; [discriminate|].
  intros [= _ <-]. auto.
Qed.

Lemma compileIfMissing_Throw this p p' e :
  compileIfMissing this p = (p', Throw e) ->
  e = Error "circom2 not found. Install it with: pnpm add -D circom2" \/
  exists msg, e = Error ("Circuit compilation error: " +:+ msg +:+ manual_hint this).
Proof.
  unfold compileIfMissing.
  unfold mbind at 1, M_bind at 1, fs_existsSync at 1.
  destruct (existsSync (wasmPath this) (fs p)); simpl; [discriminate|].
  unfold mbind, M_bind, console_log, try_catch, throw. simpl.
  destruct (findCircom2 (fs p)) as [[|ch path]|];
    [intros [= _ <-]; auto| |intros [= _ <-]; auto].
  unfold child_spawnSync, check_result, fs_existsSync, throw, mret, M_ret. simpl.
  destruct (endsWith "cli.js" (String ch path)); simpl;
    destruct (spawnSync _ _ _ _) as [files' [err st]]; simpl;
    (destruct err; simpl; [intros [= _ <-]; right; eexists; reflexivity|]);
    (destruct st as [[| |]|]; simpl;
     try (intros [= _ <-]; right; eexists; reflexivity));
    (destruct (existsSync (wasmPath this) files'); simpl;
     [discriminate | intros [= _ <-]; right; eexists; reflexivity]).
Qed.

Lemma setupIfMissing_Throw this p p' e :
  setupIfMissing this p = (p', Throw e) ->
  exists executable args options files,
    In args [ptau_new_args this; ptau_prepare_args this; zkey_setup_args this] /\
    spawn_cwd options = cwd /\
    fails_with "pnpm" (snd (spawnSync executable args options files)) e.
Proof.
  unfold setupIfMissing. intros H.
  apply bind_Throw_inv in H as [H|(p0 & zkey & [-> ->]%fs_existsSync_Return & H)];
    [discriminate|].
  destruct (existsSync (zkeyPath this) (fs p)); simpl in H; [discriminate|].
  apply bind_Throw_inv in H as [H|(p1 & [] & _ & H)]; [discriminate|].
  apply bind_Throw_inv in H as [H|(p1' & prepared & [-> ->]%fs_existsSync_Return & H)];
    [discriminate|].
  apply bind_Throw_inv in H as [H|(p2 & [] & _ & H)].
  - destruct (existsSync (ptauPreparedPath this) (fs p1)); simpl in H;
      [discriminate|].
    apply bind_Throw_inv in H as [H|(q0 & raw & [-> ->]%fs_existsSync_Return & H)];
      [discriminate|].
    apply bind_Throw_inv in H as [H|(q1 & [] & _ & H)].
    + destruct (existsSync (ptauPath this) (fs p1)); simpl in H; [discriminate|].
      apply bind_Throw_inv in H as [H|(r1 & [] & _ & H)]; [discriminate|].
      apply runCommand_pnpm_Throw in H as (executable & options & Hcwd & Hf).
      exists executable, (ptau_new_args this), options, (fs r1).
      simpl. auto.
    + apply bind_Throw_inv in H as [H|(q2 & [] & _ & H)]; [discriminate|].
      apply runCommand_pnpm_Throw in H as (executable & options & Hcwd & Hf).
      exists executable, (ptau_prepare_args this), options, (fs q2).
      simpl. auto.
  - apply bind_Throw_inv in H as [H|(p3 & [] & _ & H)]; [discriminate|].
    apply runCommand_pnpm_Throw in H as (executable & options & Hcwd & Hf).
    exists executable, (zkey_setup_args this), options, (fs p3).
    simpl. auto.
Qed.

(** X7.  Every error a construction throws is of one of four kinds: the
    error of [mkdirSync] for the build directory; the toolchain error; a
    compilation error, whose message begins with "Circuit compilation
    error: " and ends with the manual-compilation hint; or the failure of
    one of the three [snarkjs] steps, which is the spawn error of that step
    or an error with the message [Command "pnpm" exited with code N], the
    same for the three steps. *)
Theorem constructor_errors_classified name p p' e :
  constructor name p = (p', Throw e) ->
  (existsSync (buildDir (fields name)) (fs p) = false /\
   mkdirSync (buildDir (fields name)) (fs p) = Throw e) \/
  e = Error "circom2 not found. Install it with: pnpm add -D circom2" \/
  (exists msg,
     e = Error ("Circuit compilation error: " +:+ msg +:+ manual_hint (fields name))) \/
  (exists executable args options files,
     In args [ptau_new_args (fields name); ptau_prepare_args (fields name);
              zkey_setup_args (fields name)] /\
     spawn_cwd options = cwd /\
     fails_with "pnpm" (snd (spawnSync executable args options files)) e).
Proof.
  unfold constructor. intros H.
  apply bind_Throw_inv in H as [H|(p0 & [] & _ & H)].
  { left. exact (ensureBuildDir_Throw _ _ _ _ H). }
  right.
  apply bind_Throw_inv in H as [H|(p2 & [] & _ & H)]; [|discriminate].
  unfold ensureCompiled in H.
  apply bind_Throw_inv in H as [H|(p1 & [] & _ & H)].
  - destruct (compileIfMissing_Throw _ _ _ _ H) as [->|Hmsg]; auto.
  - right. right. exact (setupIfMissing_Throw _ _ _ _ H).
Qed.

End ConstructionErrors.

Section ConstructionEdges.
Context `{RT : Runtime}.

(** X8.  The compiler is not taken at its word: when it was found, spawned
    without error and exited with 0, but the witness generator is still
    missing, the construction throws a compilation error around "Circuit
    compilation failed. Check errors above.", with the files as the compiler
    left them. *)
Theorem constructor_checks_compiler_output name p p0 path :
  ensureBuildDir (fields name) p = (p0, Return tt) ->
  existsSync (wasmPath (fields name)) (fs p0) = false ->
  findCircom2 (fs p0) = Some path -> path <> "" ->
  error (snd (run_compiler (fields name) path (fs p0))) = None ->
  status (snd (run_compiler (fields name) path (fs p0))) = Some 0 ->
  existsSync (wasmPath (fields name))
    (fst (run_compiler (fields name) path (fs p0))) = false ->
  exists p',
    constructor name p
    = (p', Throw (Error ("Circuit compilation error: " +:+
                         "Circuit compilation failed. Check errors above." +:+
                         manual_hint (fields name)))) /\
    fs p' = fst (run_compiler (fields name) path (fs p0)).
Proof.
  intros Hdir Ewasm Hsome Hpath.
  assert (Hctor : forall p' e,
            compileIfMissing (fields name) p0 = (p', Throw e) ->
            constructor name p = (p', Throw e)).
  { intros p' e Hc. unfold constructor.
    rewrite (bind_run _ _ _ _ _ Hdir). unfold ensureCompiled.
    apply bind_Throw. apply bind_Throw. exact Hc. }
  destruct path as [|ch path]; [contradiction|].
  set (path0 := String ch path) in *.
  unfold run_compiler, compiler_call.
  destruct (endsWith "cli.js" path0) eqn:Ecli; simpl;
    destruct (spawnSync _ _ _ _) as [files' [err st]] eqn:Es; simpl;
    intros -> -> Ew';
    (eexists; split;
     [apply Hctor;
      unfold compileIfMissing, mbind, M_bind, fs_existsSync, console_log,
        throw, try_catch, child_spawnSync, check_result, mret, M_ret;
      rewrite Ewasm; simpl; rewrite Hsome; fold path0; rewrite Ecli; simpl;
      rewrite Es; simpl; rewrite Ew'; reflexivity
     | reflexivity]).
Qed.

(** X9.  The key derivation is taken at its word: with the build directory,
    the witness generator and the prepared ceremony file in place and the
    key missing, if the [groth16 setup] step, run as [runCommand] runs it,
    spawns without error and exits with 0, the construction returns, with
    the files exactly as that step left them; whether the key is among them
    is not looked at. *)
Theorem constructor_trusts_setup_exit name p :
  existsSync (buildDir (fields name)) (fs p) = true ->
  existsSync (wasmPath (fields name)) (fs p) = true ->
  existsSync (zkeyPath (fields name)) (fs p) = false ->
  existsSync (ptauPreparedPath (fields name)) (fs p) = true ->
  error (snd (run_pnpm (zkey_setup_args (fields name)) (fs p))) = None ->
  status (snd (run_pnpm (zkey_setup_args (fields name)) (fs p))) = Some 0 ->
  exists p',
    constructor name p = (p', Return (fields name)) /\
    fs p' = fst (run_pnpm (zkey_setup_args (fields name)) (fs p)) /\
    commands (trace p') = commands (trace p) ++ [zkey_setup_args (fields name)].
Proof.
  intros Hd Hw Hz Hprep Herr Hst.
  set (this := fields name) in *.
  set (q := with_trace (fun t => t ++ [ConsoleLog "Generating zkey..."])
              (with_trace
                 (fun t => t ++ [ConsoleLog ("Generating zkey for " +:+
                                             circuitName this +:+ "...")]) p)).
  pose proof (runCommand_pnpm_call (zkey_setup_args this) q) as Hrun.
  change (fs q) with (fs p) in Hrun. rewrite Herr, Hst in Hrun.
  eexists. split; [|split].
  - assert (H0 : ensureBuildDir this p = (p, Return tt)).
    { unfold ensureBuildDir, mbind, M_bind, fs_existsSync.
      rewrite Hd. reflexivity. }
    assert (H1 : compileIfMissing this p = (p, Return tt)).
    { unfold compileIfMissing, mbind, M_bind, fs_existsSync.
      rewrite Hw. reflexivity. }
    assert (H2 : setupIfMissing this p
                 = (with_trace
                      (fun t => t ++ [Spawned
                                        (fst (fst (pnpm_call (zkey_setup_args this) (fs p))))
                                        (zkey_setup_args this)
                                        (snd (pnpm_call (zkey_setup_args this) (fs p)))])
                      (with_fs (fun _ => fst (run_pnpm (zkey_setup_args this) (fs p)))
                         q),
                    Return tt)).
    { unfold setupIfMissing, mbind, M_bind, fs_existsSync, console_log.
      rewrite Hz. simpl. rewrite Hprep. simpl. exact Hrun. }
    unfold constructor, ensureCompiled. fold this.
    rewrite (bind_run _ _ _ _ _ H0).
    rewrite (bind_run _ _ _ _ _ (eq_trans (bind_run _ _ _ _ _ H1) H2)).
    reflexivity.
  - reflexivity.
  - simpl. rewrite !commands_app. simpl. rewrite !app_nil_r. reflexivity.
Qed.

End ConstructionEdges.
Section ConstructionFrames.
Context `{RT : Runtime}.

Lemma preserving_bind this {A B} (m : M A) (f : A -> M B) :
  preserving this m -> (forall x, preserving this (f x)) ->
  preserving this (x ← m; f x).
Proof.
  intros Hm Hf p. unfold mbind, M_bind. specialize (Hm p).
  destruct (m p) as [p1 [x|e]]; simpl in *; [|exact Hm].
  exact (keeps_trans _ _ _ _ Hm (Hf x p1)).
Qed.

Lemma preserving_read this {A} (g : Process -> outcome A) :
  preserving this (fun p => (p, g p)).
Proof. intros p. apply keeps_refl. Qed.

Lemma preserving_try_catch this {A} (body : M A) (handler : exn -> M A) :
  preserving this body -> (forall e, preserving this (handler e)) ->
  preserving this (try_catch body handler).
Proof.
  intros Hb Hh p. unfold try_catch. specialize (Hb p).
  destruct (body p) as [p1 [x|e]]; simpl in *; [exact Hb|].
  exact (keeps_trans _ _ _ _ Hb (Hh e p1)).
Qed.

Lemma preserving_console_log this line : preserving this (console_log line).
Proof. intros p. apply keeps_refl. Qed.

Lemma preserving_check_result this what result :
  preserving this (check_result what result).
Proof.
  intros p. unfold check_result, throw, mret, M_ret.
  destruct (error result); [apply keeps_refl|].
  destruct (status result) as [[| |]|]; apply keeps_refl.
Qed.

(** The three [snarkjs] steps lose no artifact, however they end. *)
Lemma preserving_runCommand this args :
  well_behaved this ->
  In args [ptau_new_args this; ptau_prepare_args this; zkey_setup_args this] ->
  preserving this (runCommand "pnpm" args).
Proof.
  intros WB Hin p. rewrite runCommand_pnpm_call. cbn [fst fs with_trace with_fs].
  apply (snarkjs_keeps this WB), Hin.
Qed.

(** The compilation block loses no artifact, however it ends. *)
Lemma preserving_compileIfMissing this :
  well_behaved this -> preserving this (compileIfMissing this).
Proof.
  intros WB p. unfold compileIfMissing.
  unfold mbind at 1, M_bind at 1, fs_existsSync at 1.
  destruct (existsSync (wasmPath this) (fs p)); simpl; [apply keeps_refl|].
  unfold mbind, M_bind, console_log, try_catch, throw. simpl.
  destruct (findCircom2 (fs p)) as [[|ch path]|] eqn:Efind;
    try apply keeps_refl.
  pose proof (compiler_keeps this WB _ _ Efind) as Hk.
  unfold run_compiler, compiler_call in Hk.
  unfold child_spawnSync, check_result, fs_existsSync, throw, mret, M_ret. simpl.
  destruct (endsWith "cli.js" (String ch path)); simpl in *;
    destruct (spawnSync _ _ _ _) as [files' [err st]]; simpl in *;
    (destruct err; simpl; [exact Hk|]);
    (destruct st as [[| |]|]; simpl; try exact Hk);
    destruct (existsSync (wasmPath this) files'); simpl; exact Hk.
Qed.

Lemma preserving_setupIfMissing this :
  well_behaved this -> preserving this (setupIfMissing this).
Proof.
  intros WB. unfold setupIfMissing. apply preserving_bind.
  - apply (preserving_read this (fun p => Return _)).
  - intros zkey. destruct zkey; simpl;
      [apply (preserving_read this (fun _ => Return _))|].
    apply preserving_bind; [apply preserving_console_log|]. intros _.
    apply preserving_bind; [apply (preserving_read this (fun p => Return _))|].
    intros prepared. apply preserving_bind.
    + destruct prepared; simpl;
        [apply (preserving_read this (fun _ => Return _))|].
      apply preserving_bind; [apply (preserving_read this (fun p => Return _))|].
      intros raw. apply preserving_bind.
      * destruct raw; simpl; [apply (preserving_read this (fun _ => Return _))|].
        apply preserving_bind; [apply preserving_console_log|]. intros _.
        apply preserving_runCommand; [exact WB|simpl; tauto].
      * intros _. apply preserving_bind; [apply preserving_console_log|].
        intros _. apply preserving_runCommand; [exact WB|simpl; tauto].
    + intros _. apply preserving_bind; [apply preserving_console_log|].
      intros _. apply preserving_runCommand; [exact WB|simpl; tauto].
Qed.

Lemma preserving_constructor name :
  well_behaved (fields name) -> preserving (fields name) (constructor name).
Proof.
  intros WB. unfold constructor. apply preserving_bind.
  - unfold ensureBuildDir. apply preserving_bind.
    + apply (preserving_read _ (fun p => Return _)).
    + intros present. destruct present; simpl;
        [apply (preserving_read _ (fun _ => Return _))|].
      intros p. unfold fs_mkdirSync.
      destruct (mkdirSync _ _) as [files'|e] eqn:Em; simpl;
        [exact (mkdir_keeps _ WB _ _ Em)|apply keeps_refl].
  - intros _. apply preserving_bind.
    + unfold ensureCompiled. apply preserving_bind.
      * apply preserving_compileIfMissing, WB.
      * intros _. apply preserving_setupIfMissing, WB.
    + intros _. apply (preserving_read _ (fun _ => Return _)).
Qed.

(** A [snarkjs] step that throws has been spawned once and has lost no
    artifact. *)
Lemma runCommand_pnpm_Throw_frame this args p p' e :
  well_behaved this ->
  In args [ptau_new_args this; ptau_prepare_args this; zkey_setup_args this] ->
  runCommand "pnpm" args p = (p', Throw e) ->
  keeps this (fs p) (fs p') /\ commands (trace p') = commands (trace p) ++ [args].
Proof.
  intros WB Hin Hrun.
  pose proof (preserving_runCommand this args WB Hin p) as Hk.
  rewrite Hrun in Hk. split; [exact Hk|].
  rewrite runCommand_pnpm_call in Hrun. injection Hrun as <- _.
  cbn [trace with_trace with_fs]. rewrite commands_app. reflexivity.
Qed.

Lemma runCommand_pnpm_Return_frame this args p p' :
  well_behaved this ->
  In args [ptau_new_args this; ptau_prepare_args this; zkey_setup_args this] ->
  runCommand "pnpm" args p = (p', Return tt) ->
  keeps this (fs p) (fs p') /\ commands (trace p') = commands (trace p) ++ [args] /\
  (args = ptau_prepare_args this ->
   existsSync (ptauPreparedPath this) (fs p') = true) /\
  (new_writes this -> args = ptau_new_args this ->
   existsSync (ptauPath this) (fs p') = true).
Proof.
  intros WB Hin Hrun.
  destruct (runCommand_pnpm_Return this args p p' WB Hin Hrun)
    as (Hk & (ev & Ht & Hc) & Hprep & _).
  split; [exact Hk|]. split; [rewrite Ht, commands_app, Hc; reflexivity|].
  split; [exact Hprep|]. intros NW ->.
  rewrite runCommand_pnpm_call in Hrun.
  destruct (error _) eqn:Eerr; [discriminate|].
  destruct (status _) as [[| |]|] eqn:Est; try discriminate.
  injection Hrun as <-. cbn [fs with_trace with_fs].
  apply NW; assumption.
Qed.

(** The ceremony and key block that throws: the steps it ran before the one
    that failed have left their outputs. *)
Lemma setupIfMissing_Throw_ran this p p' e :
  well_behaved this -> new_writes this ->
  setupIfMissing this p = (p', Throw e) ->
  exists ran,
    ran <> [] /\
    commands (trace p') = commands (trace p) ++ ran /\
    forall c, In c (removelast ran) ->
      (c = ptau_new_args this /\ existsSync (ptauPath this) (fs p') = true) \/
      (c = ptau_prepare_args this /\
       existsSync (ptauPreparedPath this) (fs p') = true).
Proof.
  intros WB NW. unfold setupIfMissing. intros H.
  apply bind_Throw_inv in H as [H|(p0 & zkey & [-> ->]%fs_existsSync_Return & H)];
    [discriminate|].
  destruct (existsSync (zkeyPath this) (fs p)); simpl in H; [discriminate|].
  apply bind_Throw_inv in H as [H|(p1 & [] & [Hf1 Ht1]%console_log_Return & H)];
    [discriminate|].
  apply bind_Throw_inv in H as [H|(p1' & prepared & [-> ->]%fs_existsSync_Return & H)];
    [discriminate|].
  assert (Hc1 : commands (trace p1) = commands (trace p))
    by (rewrite Ht1, commands_app; apply app_nil_r).
  assert (Hraw_in : In (ptauPath this) (artifacts this))
    by (unfold artifacts; simpl; tauto).
  assert (Hprep_in : In (ptauPreparedPath this) (artifacts this))
    by (unfold artifacts; simpl; tauto).
  apply bind_Throw_inv in H as [H|(p2 & [] & Hcer & H)].
  - (* the ceremony block throws *)
    destruct (existsSync (ptauPreparedPath this) (fs p1)); simpl in H;
      [discriminate|].
    apply bind_Throw_inv in H as [H|(q0 & raw & [-> ->]%fs_existsSync_Return & H)];
      [discriminate|].
    apply bind_Throw_inv in H as [H|(q1 & [] & Hnew & H)].
    + destruct (existsSync (ptauPath this) (fs p1)); simpl in H; [discriminate|].
      apply bind_Throw_inv in H as [H|(r1 & [] & [Hfr Htr]%console_log_Return & H)];
        [discriminate|].
      apply (runCommand_pnpm_Throw_frame this _ _ _ _ WB) in H as [_ Ht];
        [|simpl; tauto].
      exists [ptau_new_args this]. split; [discriminate|]. split.
      * rewrite Ht, Htr, commands_app, Hc1. simpl. rewrite app_nil_r. reflexivity.
      * intros c [].
    + apply bind_Throw_inv in H as [H|(q2 & [] & [Hfq Htq]%console_log_Return & H)];
        [discriminate|].
      apply (runCommand_pnpm_Throw_frame this _ _ _ _ WB) in H as [Hk Ht];
        [|simpl; tauto].
      destruct (existsSync (ptauPath this) (fs p1)); simpl in Hnew.
      * injection Hnew as <-.
        exists [ptau_prepare_args this]. split; [discriminate|]. split.
        -- rewrite Ht, Htq, commands_app, Hc1. simpl. rewrite app_nil_r. reflexivity.
        -- intros c [].
      * apply bind_Return in Hnew as (r1 & [] & [Hfr Htr]%console_log_Return & Hnew).
        apply (runCommand_pnpm_Return_frame this _ _ _ WB) in Hnew
          as (_ & Htn & _ & Hraw); [|simpl; tauto].
        exists [ptau_new_args this; ptau_prepare_args this].
        split; [discriminate|]. split.
        -- rewrite Ht, Htq, commands_app, Htn, Htr, commands_app, Hc1. simpl.
           rewrite !app_nil_r, <- app_assoc. reflexivity.
        -- simpl. intros c [<-|[]]. left. split; [reflexivity|].
           apply Hk; [exact Hraw_in|]. rewrite Hfq. exact (Hraw NW eq_refl).
  - (* the ceremony block returned and the key derivation throws *)
    apply bind_Throw_inv in H as [H|(p3 & [] & [Hf3 Ht3]%console_log_Return & H)];
      [discriminate|].
    apply (runCommand_pnpm_Throw_frame this _ _ _ _ WB) in H as [Hk Ht];
      [|simpl; tauto].
    assert (Hdone : exists cmds,
              commands (trace p2) = commands (trace p1) ++ cmds /\
              forall c, In c cmds ->
                (c = ptau_new_args this /\ existsSync (ptauPath this) (fs p2) = true) \/
                (c = ptau_prepare_args this /\
                 existsSync (ptauPreparedPath this) (fs p2) = true)).
    { destruct (existsSync (ptauPreparedPath this) (fs p1)); simpl in Hcer.
      { injection Hcer as <-. exists []. rewrite app_nil_r.
        split; [reflexivity|]. intros c []. }
      apply bind_Return in Hcer
        as (q0 & raw & [-> ->]%fs_existsSync_Return & Hcer).
      apply bind_Return in Hcer as (q1 & [] & Hnew & Hcer).
      apply bind_Return in Hcer
        as (q2 & [] & [Hfq Htq]%console_log_Return & Hprep).
      apply (runCommand_pnpm_Return_frame this _ _ _ WB) in Hprep
        as (Hkp & Htp & Hprepared & _); [|simpl; tauto].
      specialize (Hprepared eq_refl).
      destruct (existsSync (ptauPath this) (fs p1)); simpl in Hnew.
      - injection Hnew as <-. exists [ptau_prepare_args this]. split.
        + rewrite Htp, Htq, commands_app. simpl. rewrite app_nil_r. reflexivity.
        + intros c [<-|[]]. right. auto.
      - apply bind_Return in Hnew as (r1 & [] & [Hfr Htr]%console_log_Return & Hnew).
        apply (runCommand_pnpm_Return_frame this _ _ _ WB) in Hnew
          as (_ & Htn & _ & Hraw); [|simpl; tauto].
        exists [ptau_new_args this; ptau_prepare_args this]. split.
        + rewrite Htp, Htq, commands_app, Htn, Htr, commands_app. simpl.
          rewrite !app_nil_r, <- app_assoc. reflexivity.
        + intros c [<-|[<-|[]]]; [left|right]; (split; [reflexivity|]).
          * apply Hkp; [exact Hraw_in|]. rewrite Hfq. exact (Hraw NW eq_refl).
          * exact Hprepared. }
    destruct Hdone as (cmds & Htc & Hout).
    exists (cmds ++ [zkey_setup_args this]).
    split; [destruct cmds; discriminate|]. split.
    + rewrite Ht, Ht3, commands_app, Htc, Hc1. simpl.
      rewrite app_nil_r, <- app_assoc. reflexivity.
    + rewrite removelast_last. intros c Hc.
      destruct (Hout c Hc) as [[-> Hx]|[-> Hx]]; [left|right];
        (split; [reflexivity|]); (apply Hk; [assumption|]); rewrite Hf3; exact Hx.
Qed.

(** The compilation block that throws has run the compiler at most. *)
Lemma compileIfMissing_Throw_ran this p p' e :
  compileIfMissing this p = (p', Throw e) ->
  exists ran,
    commands (trace p') = commands (trace p) ++ ran /\ removelast ran = [].
Proof.
  unfold compileIfMissing.
  unfold mbind at 1, M_bind at 1, fs_existsSync at 1.
  destruct (existsSync (wasmPath this) (fs p)); simpl; [discriminate|].
  unfold mbind, M_bind, console_log, try_catch, throw. simpl.
  destruct (findCircom2 (fs p)) as [[|ch path]|];
    try (intros [= <- _]; exists []; cbn [trace with_trace];
         rewrite commands_app; auto).
  unfold child_spawnSync, check_result, fs_existsSync, throw, mret, M_ret. simpl.
  destruct (endsWith "cli.js" (String ch path)); simpl;
    destruct (spawnSync _ _ _ _) as [files' [err st]]; simpl;
    (destruct err; simpl;
     [|destruct st as [[| |]|]; simpl;
       [destruct (existsSync (wasmPath this) files'); simpl; [discriminate|]| | |]]);
    intros [= <- _]; eexists [_]; cbn [trace with_trace with_fs];
    rewrite !commands_app; simpl; rewrite app_nil_r; auto.
Qed.

(** A construction that throws: the steps it ran before the one that failed
    have left their outputs. *)
Lemma constructor_Throw_ran name p p1 e :
  well_behaved (fields name) -> new_writes (fields name) ->
  constructor name p = (p1, Throw e) ->
  exists ran,
    commands (trace p1) = commands (trace p) ++ ran /\
    forall c, In c (removelast ran) ->
      ((exists path, c = snd (fst (compiler_call (fields name) path))) /\
       existsSync (wasmPath (fields name)) (fs p1) = true) \/
      (c = ptau_new_args (fields name) /\
       existsSync (ptauPath (fields name)) (fs p1) = true) \/
      (c = ptau_prepare_args (fields name) /\
       existsSync (ptauPreparedPath (fields name)) (fs p1) = true).
Proof.
  intros WB NW H. set (this := fields name) in *. unfold constructor in H.
  fold this in H.
  apply bind_Throw_inv in H as [H|(p0 & [] & Hdir & H)].
  { unfold ensureBuildDir, mbind, M_bind, fs_existsSync, fs_mkdirSync, mret, M_ret
      in H.
    destruct (existsSync (buildDir this) (fs p)); simpl in H; [discriminate|].
    destruct (mkdirSync _ _); [discriminate|].
    injection H as <- _. exists []. rewrite app_nil_r. split; [reflexivity|].
    intros c []. }
  apply (ensureBuildDir_Return _ _ _ WB) in Hdir as (_ & _ & Ht0).
  apply bind_Throw_inv in H as [H|(p2 & [] & _ & H)]; [|discriminate].
  unfold ensureCompiled in H.
  apply bind_Throw_inv in H as [H|(p1' & [] & Hcompile & H)].
  - apply compileIfMissing_Throw_ran in H as (ran & Ht & Hlast).
    exists ran. rewrite Ht, Ht0. split; [reflexivity|].
    rewrite Hlast. intros c [].
  - apply (compileIfMissing_Return _ _ _ WB) in Hcompile
      as (Hw & _ & _ & evs & path & Ht1 & Hc1).
    pose proof (preserving_setupIfMissing this WB p1') as Hk. rewrite H in Hk.
    apply (setupIfMissing_Throw_ran _ _ _ _ WB NW) in H as (ran & Hne & Ht & Hout).
    exists (commands evs ++ ran). split.
    + rewrite Ht, Ht1, Ht0, commands_app, <- app_assoc. reflexivity.
    + rewrite removelast_app by exact Hne.
      intros c [Hc|Hc]%in_app_or.
      * left. split.
        -- exists path. rewrite Hc1 in Hc. unfold compile_due in Hc.
           destruct (existsSync (wasmPath this) (fs p0)); [destruct Hc|].
           destruct Hc as [<-|[]]. reflexivity.
        -- apply Hk; [unfold artifacts; simpl; tauto|exact Hw].
      * right. exact (Hout c Hc).
Qed.

Lemma in_compile_due c compile this files :
  In c (compile_due compile this files) ->
  c = compile /\ existsSync (wasmPath this) files = false.
Proof.
  unfold compile_due. destruct (existsSync (wasmPath this) files); [intros []|].
  intros [<-|[]]. auto.
Qed.

Lemma in_setup_due c this files :
  In c (setup_due this files) ->
  (c = ptau_new_args this /\ existsSync (ptauPath this) files = false) \/
  (c = ptau_prepare_args this /\
   existsSync (ptauPreparedPath this) files = false) \/
  c = zkey_setup_args this.
Proof.
  unfold setup_due. destruct (existsSync (zkeyPath this) files); [intros []|].
  destruct (existsSync (ptauPreparedPath this) files); simpl;
    [intuition auto|].
  destruct (existsSync (ptauPath this) files); simpl; intuition auto.
Qed.

Lemma stages_differ this path :
  snd (fst (compiler_call this path)) <> ptau_new_args this /\
  snd (fst (compiler_call this path)) <> ptau_prepare_args this /\
  snd (fst (compiler_call this path)) <> zkey_setup_args this /\
  ptau_new_args this <> ptau_prepare_args this /\
  ptau_new_args this <> zkey_setup_args this /\
  ptau_prepare_args this <> zkey_setup_args this.
Proof.
  unfold compiler_call, compile_args, ptau_new_args, ptau_prepare_args,
    zkey_setup_args.
  destruct (endsWith "cli.js" path); simpl; repeat split; intros H; inversion H.
Qed.

(** X10.  Recovery by retrying.  With well-behaved tools whose
    [powersoftau new] also writes its output when it exits with 0, a
    construction that throws has lost no artifact; when the cause is
    repaired without removing an artifact and the construction is run again
    and returns, the retry runs only stages that are due then, which are
    among those that were due the first time; and no command that the failed
    attempt ran before the one that failed (all of its commands but the
    last) is run again. *)
Theorem constructor_retry_resumes name p p1 e q p2 this :
  well_behaved (fields name) -> new_writes (fields name) ->
  constructor name p = (p1, Throw e) ->
  keeps (fields name) (fs p1) (fs q) ->
  constructor name q = (p2, Return this) ->
  keeps this (fs p) (fs q) /\
  exists ran evs path,
    commands (trace p1) = commands (trace p) ++ ran /\
    trace p2 = trace q ++ evs /\
    commands evs
      `sublist_of` stages_due (snd (fst (compiler_call this path))) this (fs q) /\
    stages_due (snd (fst (compiler_call this path))) this (fs q)
      `sublist_of` stages_due (snd (fst (compiler_call this path))) this (fs p) /\
    forall c, In c (removelast ran) -> ~ In c (commands evs).
Proof.
  intros WB NW Hfail Hrepair Hretry.
  destruct (constructor_Return _ _ _ _ WB Hretry)
    as (-> & _ & _ & _ & evs & path & Ht & Hsub & _).
  set (this := fields name) in *.
  assert (Hk : keeps this (fs p) (fs q)).
  { pose proof (preserving_constructor name WB p) as Hk1.
    rewrite Hfail in Hk1. exact (keeps_trans _ _ _ _ Hk1 Hrepair). }
  destruct (constructor_Throw_ran _ _ _ _ WB NW Hfail) as (ran & Hran & Hout).
  split; [exact Hk|]. exists ran, evs, path. split; [exact Hran|].
  split; [exact Ht|]. split; [exact Hsub|]. split.
  { unfold stages_due. apply sublist_app.
    - apply compile_due_mono, Hk.
    - apply setup_due_mono, Hk. }
  intros c Hc Hin.
  assert (Hdue : In c (stages_due (snd (fst (compiler_call this path))) this (fs q))).
  { apply list_elem_of_In. eapply elem_of_sublist; [|exact Hsub].
    apply list_elem_of_In, Hin. }
  clear Hin Hsub. fold this in Hout.
  unfold stages_due in Hdue. apply in_app_or in Hdue.
  assert (Hart : forall path, In path (artifacts this) ->
            existsSync path (fs p1) = true -> existsSync path (fs q) = true)
    by exact Hrepair.
  unfold artifacts in Hart. simpl in Hart.
  destruct (stages_differ this path) as (Hcn & Hcp & Hcs & Hnp & Hns & Hps).
  destruct (Hout c Hc) as [[[path0 ->] Hx]|[[-> Hx]|[-> Hx]]]; clear Hout Hc.
  - (* the compiler had run: the witness generator is there *)
    apply Hart in Hx; [|tauto].
    destruct (stages_differ this path0) as (Hcn0 & Hcp0 & Hcs0 & _).
    destruct Hdue as [[_ Hw]%in_compile_due|[[Heq _]|[[Heq _]|Heq]]%in_setup_due];
      congruence.
  - (* the new ceremony had run: its file is there *)
    apply Hart in Hx; [|tauto].
    destruct Hdue as [[Heq _]%in_compile_due|[[_ Hr]|[[Heq _]|Heq]]%in_setup_due];
      congruence.
  - (* the preparation had run: its file is there *)
    apply Hart in Hx; [|tauto].
    destruct Hdue as [[Heq _]%in_compile_due|[[Heq _]|[[_ Hr]|Heq]]%in_setup_due];
      congruence.
Qed.

(** X11.  The ceremony files are shared: their paths do not depend on the
    circuit name.  So, with well-behaved tools, a construction for any
    circuit that starts with the prepared ceremony file of some circuit in
    place runs no ceremony step: its commands are among the compilation and
    the key derivation. *)
Theorem constructor_shares_ceremony other name p p' this :
  well_behaved (fields name) ->
  existsSync (ptauPreparedPath (fields other)) (fs p) = true ->
  constructor name p = (p', Return this) ->
  ptauPath this = ptauPath (fields other) /\
  ptauPreparedPath this = ptauPreparedPath (fields other) /\
  exists evs path,
    trace p' = trace p ++ evs /\
    commands evs
      `sublist_of` [snd (fst (compiler_call this path)); zkey_setup_args this].
Proof.
  intros WB Hprep Hrun.
  destruct (constructor_Return _ _ _ _ WB Hrun)
    as (-> & _ & _ & _ & evs & path & Ht & Hsub & _).
  split; [reflexivity|]. split; [reflexivity|].
  exists evs, path. split; [exact Ht|].
  etransitivity; [exact Hsub|].
  unfold stages_due, compile_due, setup_due.
  change (ptauPreparedPath (fields name)) with (ptauPreparedPath (fields other)).
  rewrite Hprep.
  destruct (existsSync (wasmPath (fields name)) (fs p)),
           (existsSync (zkeyPath (fields name)) (fs p)); simpl;
    repeat constructor.
Qed.

End ConstructionFrames.

(* ===================================================================== *)
(** * The contract with its test double *)
(* ===================================================================== *)

Lemma setVerifyResult_fold results s :
  MultiplierTest.mockAddress
    (fold_left (fun s r => MultiplierTest.setVerifyResult r s) results s)
    = MultiplierTest.mockAddress s /\
  MultiplierTest.multiplier
    (fold_left (fun s r => MultiplierTest.setVerifyResult r s) results s)
    = MultiplierTest.multiplier s /\
  MockVerifier.shouldVerify
    (MultiplierTest.mockVerifier
       (fold_left (fun s r => MultiplierTest.setVerifyResult r s) results s))
    = default (MockVerifier.shouldVerify (MultiplierTest.mockVerifier s))
        (last results).
Proof.
  revert s. induction results as [|r results IH]; intros s; simpl; [auto|].
  destruct (IH (MultiplierTest.setVerifyResult r s)) as (Ha & Hm & Hv).
  rewrite Ha, Hm, Hv. simpl. repeat split.
  destruct results as [|r' results']; [reflexivity|].
  change (last (r :: r' :: results')) with (last (r' :: results')).
  destruct (last (r' :: results')) eqn:E; [reflexivity|].
  apply last_None in E. discriminate.
Qed.

(** X12.  A [Multiplier] wired to the [MockVerifier] by [setUp] follows the
    mock's switch: after any sequence of [setVerifyResult] calls, [check]
    with at least one public signal returns true and emits [Verified] with
    the first signal and the caller when the last value set is true (or none
    was set), and reverts with "invalid proof" when it is false, whatever
    the proof arguments. *)
Theorem check_follows_mock mockAddress results caller pA pB pC resultC rest :
  MultiplierTest.check
    (fold_left (fun s r => MultiplierTest.setVerifyResult r s) results
       (MultiplierTest.setUp mockAddress))
    caller pA pB pC (resultC :: rest)
  = if default true (last results)
    then Multiplier.Success true [Multiplier.Verified resultC caller]
    else Multiplier.Reverted (Multiplier.ErrorString "invalid proof").
Proof.
  destruct (setVerifyResult_fold results (MultiplierTest.setUp mockAddress))
    as (Ha & Hm & Hv).
  unfold MultiplierTest.check, Multiplier.check, MultiplierTest.chain.
  rewrite Hm, Ha. simpl. rewrite Z.eqb_refl.
  unfold MockVerifier.verifyProof. rewrite Hv. simpl.
  destruct (default true (last results)); reflexivity.
Qed.

(* ===================================================================== *)
(** * Instances of the further properties *)
(* ===================================================================== *)

Section MoreInstances.
Import Posix.

Lemma toOnchain_reads_first_two_witness :
  toOnchain (ProofData.proof (offchain result_3_11)) = toOnchain other_tags.
Proof.
  apply toOnchain_reads_first_two; reflexivity.
Defined.

Lemma generateProof_overlapping_calls_witness :
  let p := boot [] in
  let q1 := fst (generateProof_start p) in
  let q2 := fst (generateProof_start q1) in
  let q3 := generateProof_finally (snd (generateProof_start p)) q2 in
  stderr_write q3 = native_write /\
  stderr_write (generateProof_finally (snd (generateProof_start q1)) q3)
    = stderrFilter native_write.
Proof.
  intros p q1 q2 q3.
  exact (proj1 (proj2 (generateProof_overlapping_calls p q1 q2 q3 eq_refl eq_refl))
           eq_refl).
Defined.

Lemma constructor_errors_classified_witness :
  constructor "multiplier2" (boot without_source)
    = (fst (constructor "multiplier2" (boot without_source)),
       Throw (Error "Circuit compilation error: circom2 exited with code 1. Compile manually with: cd circuits && circom2 multiplier2.circom --r1cs --wasm --sym -o build")) /\
  ((existsSync (buildDir (fields "multiplier2")) without_source = false /\
    mkdirSync (buildDir (fields "multiplier2")) without_source
      = Throw (Error "Circuit compilation error: circom2 exited with code 1. Compile manually with: cd circuits && circom2 multiplier2.circom --r1cs --wasm --sym -o build")) \/
   Error "Circuit compilation error: circom2 exited with code 1. Compile manually with: cd circuits && circom2 multiplier2.circom --r1cs --wasm --sym -o build"
     = Error "circom2 not found. Install it with: pnpm add -D circom2" \/
   (exists msg,
      Error "Circuit compilation error: circom2 exited with code 1. Compile manually with: cd circuits && circom2 multiplier2.circom --r1cs --wasm --sym -o build"
      = Error ("Circuit compilation error: " +:+ msg +:+
               manual_hint (fields "multiplier2"))) \/
   (exists executable args options files,
      In args [ptau_new_args (fields "multiplier2");
               ptau_prepare_args (fields "multiplier2");
               zkey_setup_args (fields "multiplier2")] /\
      spawn_cwd options = cwd /\
      fails_with "pnpm" (snd (spawnSync executable args options files))
        (Error "Circuit compilation error: circom2 exited with code 1. Compile manually with: cd circuits && circom2 multiplier2.circom --r1cs --wasm --sym -o build"))).
Proof.
  assert (Hrun : constructor "multiplier2" (boot without_source)
                 = (fst (constructor "multiplier2" (boot without_source)),
                    Throw (Error "Circuit compilation error: circom2 exited with code 1. Compile manually with: cd circuits && circom2 multiplier2.circom --r1cs --wasm --sym -o build"))).
  { destruct (constructor "multiplier2" (boot without_source)) as [p' r] eqn:E.
    assert (Hr : snd (constructor "multiplier2" (boot without_source))
                 = Throw (Error "Circuit compilation error: circom2 exited with code 1. Compile manually with: cd circuits && circom2 multiplier2.circom --r1cs --wasm --sym -o build"))
      by (vm_compute; reflexivity).
    rewrite E in Hr. simpl in Hr. rewrite Hr. reflexivity. }
  split; [exact Hrun|].
  exact (constructor_errors_classified "multiplier2" (boot without_source) _ _ Hrun).
Defined.

Lemma constructor_checks_compiler_output_witness :
  exists p',
    constructor (RT := Idle.runtime) "multiplier2" (Idle.boot checkout)
    = (p', Throw (Error ("Circuit compilation error: " +:+
                         "Circuit compilation failed. Check errors above." +:+
                         manual_hint (fields (RT := Idle.runtime) "multiplier2")))) /\
    @existsSync Idle.runtime
      (wasmPath (fields (RT := Idle.runtime) "multiplier2")) (fs p') = false.
Proof.
  assert (Hdir : ensureBuildDir (RT := Idle.runtime)
                   (fields (RT := Idle.runtime) "multiplier2") (Idle.boot checkout)
                 = (fst (ensureBuildDir (RT := Idle.runtime)
                           (fields (RT := Idle.runtime) "multiplier2")
                           (Idle.boot checkout)),
                    Return tt)).
  { destruct (ensureBuildDir _ _) as [p0 r] eqn:E.
    assert (Hr : snd (ensureBuildDir (RT := Idle.runtime)
                        (fields (RT := Idle.runtime) "multiplier2")
                        (Idle.boot checkout)) = Return tt)
      by (vm_compute; reflexivity).
    rewrite E in Hr. simpl in Hr. rewrite Hr. reflexivity. }
  destruct (constructor_checks_compiler_output (RT := Idle.runtime)
              "multiplier2" (Idle.boot checkout) _
              "/work/node_modules/.pnpm/circom2@0.2.22/node_modules/circom2/cli.js"
              Hdir)
    as (p' & Hthrow & Hfs);
    try (vm_compute; reflexivity); [discriminate|].
  exists p'. split; [exact Hthrow|]. rewrite Hfs. vm_compute. reflexivity.
Defined.

Lemma constructor_trusts_setup_exit_witness :
  exists p',
    constructor (RT := Idle.runtime) "multiplier2" (Idle.boot unkeyed)
    = (p', Return (fields (RT := Idle.runtime) "multiplier2")) /\
    @existsSync Idle.runtime
      (zkeyPath (fields (RT := Idle.runtime) "multiplier2")) (fs p') = false.
Proof.
  destruct (constructor_trusts_setup_exit (RT := Idle.runtime) "multiplier2"
              (Idle.boot unkeyed))
    as (p' & Hrun & Hfs & _);
    try (vm_compute; reflexivity).
  exists p'. split; [exact Hrun|]. rewrite Hfs. vm_compute. reflexivity.
Defined.

Lemma repaired_keeps :
  keeps (RT := runtime) multiplier2
    (fs (fst (constructor "multiplier2" (boot without_pnpm)))) repaired.
Proof.
  intros path _.
  change (existsSync path (fs (fst (constructor "multiplier2" (boot without_pnpm)))))
    with (exists_at posix_cwd path
            (fs (fst (constructor "multiplier2" (boot without_pnpm))))).
  change (@existsSync runtime path repaired)
    with (exists_at posix_cwd path repaired).
  rewrite !exists_at_is_Some. intros [k Hk]. exists k.
  assert (Hfiles : repaired
                   = fs (fst (constructor "multiplier2" (boot without_pnpm)))
                     ++ [("/usr/local/bin/pnpm", File)])
    by (vm_compute; reflexivity).
  rewrite Hfiles. apply lookup_path_app, Hk.
Qed.

Lemma constructor_retry_resumes_witness :
  snd (constructor "multiplier2" (boot without_pnpm))
    = Throw (Error "spawnSync pnpm ENOENT") /\
  snd (constructor "multiplier2" (boot repaired)) = Return multiplier2 /\
  keeps (RT := runtime) multiplier2 without_pnpm repaired /\
  exists ran evs,
    commands (trace (fst (constructor "multiplier2" (boot without_pnpm))))
    = commands (trace (boot without_pnpm)) ++ ran /\
    trace (fst (constructor "multiplier2" (boot repaired)))
    = trace (boot repaired) ++ evs /\
    forall c, In c (removelast ran) -> ~ In c (commands evs).
Proof.
  assert (Hfail : constructor "multiplier2" (boot without_pnpm)
                  = (fst (constructor "multiplier2" (boot without_pnpm)),
                     Throw (Error "spawnSync pnpm ENOENT"))).
  { destruct (constructor "multiplier2" (boot without_pnpm)) as [p' r] eqn:E.
    assert (Hr : snd (constructor "multiplier2" (boot without_pnpm))
                 = Throw (Error "spawnSync pnpm ENOENT"))
      by (vm_compute; reflexivity).
    rewrite E in Hr. simpl in Hr. rewrite Hr. reflexivity. }
  assert (Hretry : constructor "multiplier2" (boot repaired)
                   = (fst (constructor "multiplier2" (boot repaired)),
                      Return multiplier2))
    by (apply run_Return; vm_compute; reflexivity).
  split; [vm_compute; reflexivity|]. split; [vm_compute; reflexivity|].
  destruct (constructor_retry_resumes "multiplier2" (boot without_pnpm) _ _
              (boot repaired) _ multiplier2 posix_well_behaved posix_new_writes
              Hfail repaired_keeps Hretry)
    as (Hk & ran & evs & path & Hran & Ht & _ & _ & Hnot).
  split; [exact Hk|]. exists ran, evs. auto.
Defined.

Lemma constructor_shares_ceremony_witness :
  @existsSync runtime (ptauPreparedPath (fields "square")) with_ceremony = true /\
  snd (constructor "multiplier2" (boot with_ceremony)) = Return multiplier2 /\
  ptauPreparedPath multiplier2 = ptauPreparedPath (fields "square").
Proof.
  assert (Hprep : existsSync (ptauPreparedPath (fields "square"))
                    (fs (boot with_ceremony)) = true)
    by (vm_compute; reflexivity).
  assert (Hrun : constructor "multiplier2" (boot with_ceremony)
                 = (fst (constructor "multiplier2" (boot with_ceremony)),
                    Return multiplier2))
    by (apply run_Return; vm_compute; reflexivity).
  split; [exact Hprep|]. split; [vm_compute; reflexivity|].
  exact (proj1 (proj2 (constructor_shares_ceremony "square" "multiplier2"
                         (boot with_ceremony) _ multiplier2 posix_well_behaved
                         Hprep Hrun))).
Defined.

End MoreInstances.
(* ===================================================================== *)
(** * Properties of the compile script *)
(* ===================================================================== *)

Lemma substring_all s : substring 0 (String.length s) s = s.
Proof. induction s as [|ch s IH]; simpl; [reflexivity|]. rewrite IH. reflexivity. Qed.

Lemma replace_first_step pattern replacement s :
  CompileScript.replace_first pattern replacement s
  = if String.prefix pattern s then
      replacement +:+
      substring (String.length pattern) (String.length s - String.length pattern) s
    else
      match s with
      | EmptyString => EmptyString
      | String ch rest =>
          String ch (CompileScript.replace_first pattern replacement rest)
      end.
Proof. destruct s; reflexivity. Qed.

Lemma prefix_String a s b t :
  String.prefix (String a s) (String b t)
  = if ascii_dec a b then String.prefix s t else false.
Proof. reflexivity. Qed.

Ltac straddle_step H pre :=
  destruct pre as [|? pre];
  [ rewrite app_empty, app_String, prefix_String in H;
    destruct (ascii_dec _ _) as [e|]; [discriminate e | discriminate H]
  | rewrite app_String, prefix_String in H;
    destruct (ascii_dec _ _) as [<-|]; [|discriminate H] ].

(** [".circom"] cannot begin inside [pre] and end inside a [".circom"] that
    follows it: it has no proper prefix that is also a suffix. *)
Lemma circom_no_straddle pre rest :
  String.prefix ".circom" (pre +:+ ".circom" +:+ rest) = true ->
  pre = "" \/ String.prefix ".circom" pre = true.
Proof.
  intros H.
  destruct pre as [|? pre]; [left; reflexivity|].
  rewrite app_String, prefix_String in H.
  destruct (ascii_dec _ _) as [<-|]; [|discriminate H].
  do 6 straddle_step H pre.
  right. apply prefix_occurs. exists pre. reflexivity.
Qed.

(** X13.  The circuit name the script derives from a file name.  For a file
    name [pre ++ ".circom" ++ rest] in which [".circom"] does not occur
    inside [pre], [replace(".circom", "")] gives [pre ++ rest]: the first
    occurrence is removed, wherever it stands.  So a file [name.circom]
    gives [name] when [".circom"] does not occur in [name], and a file
    [a.circom.circom] gives [a.circom]. *)
Theorem replace_first_circom pre rest :
  ~ occurs_in ".circom" pre ->
  CompileScript.replace_first ".circom" "" (pre +:+ ".circom" +:+ rest)
  = pre +:+ rest.
Proof.
  induction pre as [|ch pre IH]; intros Hno.
  - rewrite !app_empty, replace_first_step.
    assert (Hp : String.prefix ".circom" (".circom" +:+ rest) = true)
      by (apply prefix_occurs; eauto).
    rewrite Hp, !app_String, !app_empty. cbn.
    rewrite Nat.sub_0_r. apply substring_all.
  - rewrite replace_first_step.
    destruct (String.prefix ".circom" (String ch pre +:+ ".circom" +:+ rest)) eqn:Hp.
    + exfalso. apply circom_no_straddle in Hp as [Hp|Hp]; [discriminate|].
      apply Hno. apply prefix_occurs in Hp as [after Hafter].
      exists "", after. exact Hafter.
    + rewrite !app_String. f_equal. apply IH.
      intros (before & after & Hocc). apply Hno.
      exists (String ch before), after. rewrite Hocc. reflexivity.
Qed.

Lemma replace_first_circom_witness :
  CompileScript.replace_first ".circom" "" ("a" +:+ ".circom" +:+ ".circom")
  = "a" +:+ ".circom".
Proof.
  apply (replace_first_circom "a" ".circom").
  intros H. apply includes_occurs in H. vm_compute in H. discriminate H.
Defined.

Section CompileScriptFacts.
Context `{RT : Runtime}.
Variable args : list string.

Lemma log_then {A} message color (k : M A) p :
  (CompileScript.log message color;; k) p
  = k (with_trace
         (fun t => t ++ [ConsoleLog (color +:+ message +:+ CompileScript.reset)]) p).
Proof. reflexivity. Qed.

Lemma existsSync_then {A} path (k : bool -> M A) p :
  (present ← fs_existsSync path; k present) p = k (existsSync path (fs p)) p.
Proof. reflexivity. Qed.

Lemma mret_then {A} (k : M A) p : (mret tt;; k) p = k p.
Proof. reflexivity. Qed.

Lemma commands_log t line : commands (t ++ [ConsoleLog line]) = commands t.
Proof. rewrite commands_app. apply app_nil_r. Qed.

Lemma commands_spawn t executable a options :
  commands (t ++ [Spawned executable a options]) = commands t ++ [a].
Proof. rewrite commands_app. reflexivity. Qed.

(** The script's [runCommand] is one [spawnSync] of the command itself. *)
Lemma script_runCommand_Return command a dir p p' :
  CompileScript.runCommand command a dir p = (p', Return tt) ->
  exists options,
    error (snd (spawnSync command a options (fs p))) = None /\
    status (snd (spawnSync command a options (fs p))) = Some 0 /\
    fs p' = fst (spawnSync command a options (fs p)) /\
    trace p' = trace p ++ [Spawned command a options].
Proof.
  unfold CompileScript.runCommand, child_spawnSync, check_result.
  unfold mbind, M_bind, mret, M_ret, throw.
  intros Hrun.
  match type of Hrun with
  | context [spawnSync command a ?o (fs p)] => exists o
  end.
  revert Hrun.
  destruct (spawnSync _ _ _ _) as [fs' [[e|] [[| |]|]]]; simpl;
    intros H; try discriminate H; injection H as <-; auto.
Qed.

(** A trusted setup that returns has run the ceremony steps that were left
    to do when it started, and then the key derivation. *)
Lemma generateTrustedSetup_Return name size p p' :
  CompileScript.generateTrustedSetup args name size p = (p', Return tt) ->
  commands (trace p')
  = commands (trace p) ++ CompileScript.ceremony_due size (fs p) ++
    [CompileScript.script_setup_args name size].
Proof.
  unfold CompileScript.generateTrustedSetup, CompileScript.ceremony_due.
  rewrite !log_then, existsSync_then. cbn [fs with_trace].
  destruct (existsSync (CompileScript.script_ptauPreparedPath size) (fs p)); cbn [negb].
  - rewrite mret_then, log_then. intros H.
    apply bind_Return in H as (p1 & [] & Hrun & Hlog).
    apply script_runCommand_Return in Hrun as (o & _ & _ & _ & Ht).
    injection Hlog as <-. cbn [trace with_trace] in *.
    rewrite commands_log, Ht, commands_spawn, !commands_log. reflexivity.
  - intros H. apply bind_Return in H as (p3 & [] & Hcer & Hkey).
    rewrite existsSync_then in Hcer. cbn [fs with_trace] in Hcer.
    apply bind_Return in Hcer as (p1 & [] & Hnew & Hprep).
    rewrite log_then in Hprep.
    apply script_runCommand_Return in Hprep as (o2 & _ & _ & _ & Ht2).
    rewrite log_then in Hkey.
    apply bind_Return in Hkey as (p4 & [] & Hrun & Hlog).
    apply script_runCommand_Return in Hrun as (o3 & _ & _ & _ & Ht3).
    injection Hlog as <-. cbn [trace with_trace] in *.
    rewrite commands_log, Ht3, commands_spawn, commands_log, Ht2,
      commands_spawn, commands_log.
    assert (Hp1 : commands (trace p1)
                  = commands (trace p) ++
                    (if existsSync (CompileScript.script_ptauPath size) (fs p)
                     then [] else [CompileScript.script_new_args size])).
    { destruct (existsSync (CompileScript.script_ptauPath size) (fs p));
        cbn [negb] in Hnew.
      - injection Hnew as <-. cbn [trace with_trace].
        rewrite !commands_log, app_nil_r. reflexivity.
      - rewrite log_then in Hnew.
        apply bind_Return in Hnew as (p0 & [] & Hwarn & Hrun).
        apply script_runCommand_Return in Hrun as (o1 & _ & _ & _ & Ht1).
        rewrite Ht1, commands_spawn. f_equal.
        destruct (CompileScript.isProd args).
        + rewrite !log_then in Hwarn. injection Hwarn as <-.
          cbn [trace with_trace]. rewrite !commands_log. reflexivity.
        + injection Hwarn as <-. cbn [trace with_trace].
          rewrite !commands_log. reflexivity. }
    rewrite Hp1, <- !app_assoc. reflexivity.
Qed.

(** A compilation that returns has located the compiler and run it once,
    and the compiler has exited with 0. *)
Lemma compileCircuit_Return circuitFile p p' :
  CompileScript.compileCircuit circuitFile p = (p', Return tt) ->
  exists circom2Path,
    findCircom2 (fs p) = Some circom2Path /\
    let c := CompileScript.script_compiler_call circuitFile circom2Path in
    error (snd (spawnSync c.1.1 c.1.2 c.2 (fs p))) = None /\
    status (snd (spawnSync c.1.1 c.1.2 c.2 (fs p))) = Some 0 /\
    fs p' = fst (spawnSync c.1.1 c.1.2 c.2 (fs p)) /\
    commands (trace p') = commands (trace p) ++ [c.1.2].
Proof.
  unfold CompileScript.compileCircuit. rewrite log_then. intros H.
  apply bind_Return in H as (p1 & found & Hfind & H).
  injection Hfind as <- <-. cbn [fs with_trace] in *.
  destruct (findCircom2 (fs p)) as [[|ch path]|]; try discriminate H.
  exists (String ch path). split; [reflexivity|].
  apply bind_Return in H as (p2 & [] & Hrun & Hlog).
  injection Hlog as <-. cbn [trace with_trace].
  unfold CompileScript.script_compiler_call.
  destruct (endsWith "cli.js" (String ch path));
    apply bind_Return in Hrun as (p3 & result & Hspawn & Hcheck);
    unfold child_spawnSync in Hspawn; cbn [fs with_trace] in Hspawn;
    cbn [fst snd];
    destruct (spawnSync _ _ _ (fs p)) as [fs' r];
    injection Hspawn as <- <-;
    unfold check_result, throw in Hcheck; cbn [fst snd];
    destruct (error r) as [e|]; try discriminate Hcheck;
    destruct (status r) as [[| |]|]; try discriminate Hcheck;
    injection Hcheck as <-; cbn [trace fs with_trace with_fs];
    rewrite commands_log, commands_spawn, commands_log; auto.
Qed.

(** The [try] block of the loop for one file. *)
Lemma build_circuit_Return circuitFile p p' :
  CompileScript.build_circuit args circuitFile p = (p', Return tt) ->
  exists circom2Path,
    findCircom2 (fs p) = Some circom2Path /\
    commands (trace p')
    = commands (trace p) ++
      CompileScript.build_commands args circuitFile circom2Path (fs p).
Proof.
  unfold CompileScript.build_circuit, CompileScript.build_commands. intros H.
  apply bind_Return in H as (p1 & [] & Hcompile & Hsetup).
  apply compileCircuit_Return in Hcompile
    as (circom2Path & Hfind & _ & _ & Hfs & Ht).
  apply generateTrustedSetup_Return in Hsetup.
  exists circom2Path. split; [exact Hfind|]. cbn zeta.
  rewrite Hsetup, Ht, Hfs, <- !app_assoc. reflexivity.
Qed.

(** One turn of the loop of [main]. *)
Lemma build_each_cons_Return circuitFile rest p p1 :
  CompileScript.build_circuit args circuitFile p = (p1, Return tt) ->
  CompileScript.build_each args (circuitFile :: rest) p
  = CompileScript.build_each args rest p1.
Proof.
  intros H. cbn [CompileScript.build_each].
  unfold mbind at 1. unfold M_bind, try_catch.
  rewrite (bind_run _ _ _ _ _ H). reflexivity.
Qed.

Lemma build_each_cons_Throw circuitFile rest p p1 e :
  CompileScript.build_circuit args circuitFile p = (p1, Throw e) ->
  CompileScript.build_each args (circuitFile :: rest) p
  = (with_trace
       (fun t => t ++ [ConsoleLog (CompileScript.error_line circuitFile e)]) p1,
     Return (CompileScript.Exit 1)).
Proof.
  intros H. cbn [CompileScript.build_each].
  unfold mbind at 1. unfold M_bind, try_catch.
  rewrite (bind_Throw _ _ _ _ _ H). reflexivity.
Qed.

(** The loop never throws; it ends with [Done], or at the first file whose
    build throws, with the error line printed and the exit code 1. *)
Lemma build_each_cases circuitFiles p :
  (exists p', CompileScript.build_each args circuitFiles p
              = (p', Return CompileScript.Done)) \/
  (exists built circuitFile rest p1 p2 e,
     circuitFiles = built ++ circuitFile :: rest /\
     CompileScript.build_each args built p = (p1, Return CompileScript.Done) /\
     CompileScript.build_circuit args circuitFile p1 = (p2, Throw e) /\
     CompileScript.build_each args circuitFiles p
     = (with_trace
          (fun t => t ++ [ConsoleLog (CompileScript.error_line circuitFile e)]) p2,
        Return (CompileScript.Exit 1))).
Proof.
  revert p. induction circuitFiles as [|circuitFile rest IH]; intros p.
  - left. exists p. reflexivity.
  - destruct (CompileScript.build_circuit args circuitFile p) as [p1 [[]|e]] eqn:E.
    + rewrite (build_each_cons_Return _ rest _ _ E).
      destruct (IH p1) as [Hdone|(built & f & rest' & q1 & q2 & e & -> & Hb & Hf & Hrun)].
      * left. exact Hdone.
      * right. exists (circuitFile :: built), f, rest', q1, q2, e.
        rewrite (build_each_cons_Return _ built _ _ E). auto.
    + right. exists [], circuitFile, rest, p, p1, e.
      rewrite (build_each_cons_Throw _ rest _ _ _ E). auto.
Qed.

Lemma bind_assoc_run {A B C} (m : M A) (f : A -> M B) (g : B -> M C) p :
  ((m ≫= f) ≫= g) p = (m ≫= (fun x => f x ≫= g)) p.
Proof. unfold mbind, M_bind. destruct (m p) as [p1 [x|e]]; reflexivity. Qed.

Lemma build_each_no_Throw circuitFiles p p' e :
  CompileScript.build_each args circuitFiles p <> (p', Throw e).
Proof.
  destruct (build_each_cases circuitFiles p)
    as [[q Hq]|(? & ? & ? & ? & ? & ? & _ & _ & _ & Hq)];
    rewrite Hq; discriminate.
Qed.

Ltac main_banner H p :=
  unfold CompileScript.main in H; rewrite log_then in H;
  destruct (CompileScript.isProd args);
  rewrite ?bind_assoc_run, !log_then, existsSync_then in H;
  cbn [fs with_trace] in H;
  match type of H with
  | _ ?q = _ =>
      let p0 := fresh "p0" in
      let Hfs := fresh "Hfs" in
      let Htr := fresh "Htr" in
      assert (Hfs : fs q = fs p) by reflexivity;
      assert (Htr : commands (trace q) = commands (trace p))
        by (cbn [trace with_trace]; rewrite !commands_log; reflexivity);
      generalize dependent q; intros p0 H Hfs Htr
  end.

(** X16.  [main] lets an exception escape only from creating the build
    directory or from listing the circuits directory: whatever a build
    throws is caught in the loop.  When an exception escapes, no command
    has been run. *)
Theorem main_uncaught_before_commands p p' e :
  CompileScript.main args p = (p', Throw e) ->
  commands (trace p') = commands (trace p) /\
  ((existsSync CompileScript.BUILD_DIR (fs p) = false /\
    mkdirSync CompileScript.BUILD_DIR (fs p) = Throw e) \/
   readdirSync CompileScript.CIRCUITS_DIR (fs p') = Throw e).
Proof.
  intros H. main_banner H p.
  all: apply bind_Throw_inv in H as [Hmk|(p1 & [] & Hmk & H)].
  all: destruct (existsSync CompileScript.BUILD_DIR (fs p)) eqn:Hdir;
    cbn [negb] in Hmk; try discriminate Hmk.
  all: try (unfold fs_mkdirSync in Hmk; rewrite Hfs in Hmk;
            destruct (mkdirSync CompileScript.BUILD_DIR (fs p)) as [fs'|e0] eqn:Hmkdir;
            [discriminate Hmk|]; injection Hmk as <- <-; auto).
  all: assert (Htr1 : commands (trace p1) = commands (trace p))
    by (first [ injection Hmk as <-; exact Htr
              | unfold fs_mkdirSync in Hmk;
                destruct (mkdirSync _ _); [|discriminate Hmk];
                injection Hmk as <-; exact Htr ]).
  all: apply bind_Throw_inv in H as [Hrd|(p2 & files & Hrd & H)];
    [injection Hrd as <- Hrd; auto|injection Hrd as <- Hrd].
  all: destruct (length (List.filter (endsWith ".circom") files) =? 0)%nat;
    rewrite log_then in H; [discriminate H|].
  all: apply bind_Throw_inv in H as [Hb|(p3 & built & Hb & H)];
    [exfalso; exact (build_each_no_Throw _ _ _ _ Hb)|].
  all: destruct built; [rewrite !log_then in H|]; discriminate H.
Qed.

(** X17.  When [main] ends the script itself, a build has thrown: the exit
    code is 1, and the last line printed is the error line of a file whose
    name ends with [".circom"]. *)
Theorem main_exit_code p p' code :
  CompileScript.main args p = (p', Return (CompileScript.Exit code)) ->
  code = 1 /\
  exists circuitFile e,
    endsWith ".circom" circuitFile = true /\
    last (trace p') = Some (ConsoleLog (CompileScript.error_line circuitFile e)).
Proof.
  intros H. main_banner H p.
  all: apply bind_Return in H as (p1 & [] & _ & H).
  all: apply bind_Return in H as (p2 & files & _ & H).
  all: destruct (length (List.filter (endsWith ".circom") files) =? 0)%nat;
    rewrite log_then in H; [discriminate H|].
  all: apply bind_Return in H as (p3 & built & Hb & H).
  all: destruct built as [|code']; [rewrite !log_then in H; discriminate H|].
  all: injection H as <- <-.
  all: match type of Hb with
       | CompileScript.build_each _ ?fs ?q = _ =>
           destruct (build_each_cases fs q)
             as [[q' Hq]|(done & f & rest & q1 & q2 & e & Hfiles & _ & _ & Hq)]
       end;
    rewrite Hq in Hb; [discriminate Hb|]; injection Hb as <- <-.
  all: split; [reflexivity|]; exists f, e; split;
    [|cbn [trace with_trace]; apply last_snoc].
  all: assert (Hin : In f (List.filter (endsWith ".circom") files))
    by (rewrite Hfiles; apply in_or_app; right; left; reflexivity).
  all: apply filter_In in Hin as [_ Hin]; exact Hin.
Qed.

(** X14.  The loop of [main] never throws.  It runs to its end, or it stops
    at the first file whose build throws: the files before it were built,
    the error line of that file is the last thing it does, the exit code
    is 1, and the outcome does not depend on the files after it. *)
Theorem build_each_stops_at_first_failure circuitFiles p :
  (exists p', CompileScript.build_each args circuitFiles p
              = (p', Return CompileScript.Done)) \/
  (exists built circuitFile rest p1 p2 e,
     circuitFiles = built ++ circuitFile :: rest /\
     CompileScript.build_each args built p = (p1, Return CompileScript.Done) /\
     CompileScript.build_circuit args circuitFile p1 = (p2, Throw e) /\
     forall others,
       CompileScript.build_each args (built ++ circuitFile :: others) p
       = (with_trace
            (fun t => t ++ [ConsoleLog (CompileScript.error_line circuitFile e)]) p2,
          Return (CompileScript.Exit 1))).
Proof.
  destruct (build_each_cases circuitFiles p)
    as [Hdone|(built & f & rest & p1 & p2 & e & Hfiles & Hbuilt & Hf & _)];
    [left; exact Hdone|right].
  exists built, f, rest, p1, p2, e. repeat split; try assumption.
  intros others. clear Hfiles. revert p Hbuilt.
  induction built as [|g built IH]; intros p Hbuilt.
  - injection Hbuilt as <-. apply build_each_cons_Throw. exact Hf.
  - destruct (CompileScript.build_circuit args g p) as [q [[]|e0]] eqn:E.
    + rewrite (build_each_cons_Return _ _ _ _ E) in Hbuilt.
      cbn [app]. rewrite (build_each_cons_Return _ _ _ _ E). apply IH, Hbuilt.
    + rewrite (build_each_cons_Throw _ _ _ _ _ E) in Hbuilt. discriminate Hbuilt.
Qed.

(** X15.  The build of one circuit file that returns has located the
    compiler, the compiler has exited with 0, and the commands run are the
    compiler, the ceremony steps that were due when the compiler had run,
    and the key derivation, in this order, and no other.  Unlike the class,
    the script compiles and derives the key whatever exists already. *)
Theorem build_circuit_runs_all_stages circuitFile p p' :
  CompileScript.build_circuit args circuitFile p = (p', Return tt) ->
  exists circom2Path,
    findCircom2 (fs p) = Some circom2Path /\
    (let c := CompileScript.script_compiler_call circuitFile circom2Path in
     error (snd (spawnSync c.1.1 c.1.2 c.2 (fs p))) = None /\
     status (snd (spawnSync c.1.1 c.1.2 c.2 (fs p))) = Some 0) /\
    commands (trace p')
    = commands (trace p) ++
      CompileScript.build_commands args circuitFile circom2Path (fs p).
Proof.
  unfold CompileScript.build_circuit, CompileScript.build_commands. intros H.
  apply bind_Return in H as (p1 & [] & Hcompile & Hsetup).
  apply compileCircuit_Return in Hcompile
    as (circom2Path & Hfind & Herror & Hstatus & Hfs & Ht).
  apply generateTrustedSetup_Return in Hsetup.
  exists circom2Path. split; [exact Hfind|]. split.
  - split; [exact Herror|exact Hstatus].
  - cbn zeta. rewrite Hsetup, Ht, Hfs, <- !app_assoc. reflexivity.
Qed.

(** X18.  When the loop of [main] runs to its end, the commands it has run
    are the builds of the circuit files, one after the other in the order of
    the list: no file is skipped and none is built twice. *)
Theorem build_each_builds_every_file circuitFiles p p' :
  CompileScript.build_each args circuitFiles p = (p', Return CompileScript.Done) ->
  exists runs,
    Forall2 (fun circuitFile run =>
               exists circom2Path files,
                 run = CompileScript.build_commands args circuitFile circom2Path files)
      circuitFiles runs /\
    commands (trace p') = commands (trace p) ++ concat runs.
Proof.
  revert p. induction circuitFiles as [|f rest IH]; intros p H.
  - injection H as <-. exists []. split; [constructor|].
    cbn [concat]. rewrite app_nil_r. reflexivity.
  - destruct (CompileScript.build_circuit args f p) as [q [[]|e0]] eqn:E.
    + rewrite (build_each_cons_Return _ _ _ _ E) in H.
      destruct (IH _ H) as (runs & Hruns & Ht).
      apply build_circuit_Return in E as (path & _ & Hq).
      exists (CompileScript.build_commands args f path (fs p) :: runs). split.
      * constructor; [eauto|exact Hruns].
      * cbn [concat]. rewrite Ht, Hq, <- app_assoc. reflexivity.
    + rewrite (build_each_cons_Throw _ _ _ _ _ E) in H. discriminate H.
Qed.

(** X19.  The script's [runCommand] and the method of the class make the
    same call and the same checks, except where the class replaces [pnpm] by
    a path: for another command, on [win32], or when none of the candidates
    of the class exists. *)
Theorem runCommand_script_agrees command a p :
  (command = "pnpm" -> platform <> "win32" ->
   Forall (fun path => existsSync path (fs p) = false) pnpm_candidates) ->
  CompileScript.runCommand command a None p = Circuit.runCommand command a p.
Proof.
  intros Hnone. unfold CompileScript.runCommand, Circuit.runCommand.
  destruct (String.eqb command "pnpm") eqn:Hc; [|reflexivity].
  destruct (String.eqb platform "win32") eqn:Hp; [reflexivity|].
  apply String.eqb_eq in Hc. apply String.eqb_neq in Hp.
  specialize (Hnone Hc Hp). unfold pnpm_candidates in Hnone.
  inversion Hnone as [|? ? H1 Hnone1]; subst.
  inversion Hnone1 as [|? ? H2 Hnone2]; subst.
  inversion Hnone2 as [|? ? H3 _]; subst.
  unfold mbind, M_bind. cbn [find]. rewrite H1, H2, H3. reflexivity.
Qed.

End CompileScriptFacts.

(** ** The script on the toy system *)

Section ScriptInstances.
Import Posix.

Lemma run_Throw {A} (m : M A) p e :
  snd (m p) = Throw e -> m p = (fst (m p), Throw e).
Proof. destruct (m p) as [p' r]. simpl. intros ->. reflexivity. Qed.

Lemma build_circuit_runs_all_stages_witness :
  exists circom2Path,
    findCircom2 (fs (boot checkout)) = Some circom2Path /\
    (let c := CompileScript.script_compiler_call "multiplier2.circom" circom2Path in
     error (snd (spawnSync c.1.1 c.1.2 c.2 (fs (boot checkout)))) = None /\
     status (snd (spawnSync c.1.1 c.1.2 c.2 (fs (boot checkout)))) = Some 0) /\
    commands
      (trace (fst (CompileScript.build_circuit [] "multiplier2.circom"
                     (boot checkout))))
    = commands (trace (boot checkout)) ++
      CompileScript.build_commands [] "multiplier2.circom" circom2Path
        (fs (boot checkout)).
Proof.
  apply (build_circuit_runs_all_stages [] "multiplier2.circom" (boot checkout)).
  apply run_Return. vm_compute. reflexivity.
Defined.

Lemma main_uncaught_before_commands_witness :
  commands (trace (fst (CompileScript.main [] (boot circuits_is_file))))
  = commands (trace (boot circuits_is_file)) /\
  ((existsSync CompileScript.BUILD_DIR (fs (boot circuits_is_file)) = false /\
    mkdirSync CompileScript.BUILD_DIR (fs (boot circuits_is_file))
    = Throw (Error "ENOTDIR: not a directory, mkdir '/work/circuits/build'")) \/
   readdirSync CompileScript.CIRCUITS_DIR
     (fs (fst (CompileScript.main [] (boot circuits_is_file))))
   = Throw (Error "ENOTDIR: not a directory, mkdir '/work/circuits/build'")).
Proof.
  apply (main_uncaught_before_commands [] (boot circuits_is_file)).
  apply run_Throw. vm_compute. reflexivity.
Defined.

Lemma main_exit_code_witness :
  1 = 1 /\
  exists circuitFile e,
    endsWith ".circom" circuitFile = true /\
    last (trace (fst (CompileScript.main [] (boot without_pnpm))))
    = Some (ConsoleLog (CompileScript.error_line circuitFile e)).
Proof.
  apply (main_exit_code [] (boot without_pnpm)).
  apply run_Return. vm_compute. reflexivity.
Defined.

Lemma build_each_builds_every_file_witness :
  exists runs,
    Forall2 (fun circuitFile run =>
               exists circom2Path files,
                 run = CompileScript.build_commands [] circuitFile circom2Path files)
      ["multiplier2.circom"] runs /\
    commands
      (trace (fst (CompileScript.build_each [] ["multiplier2.circom"]
                     (boot checkout))))
    = commands (trace (boot checkout)) ++ concat runs.
Proof.
  apply (build_each_builds_every_file [] ["multiplier2.circom"] (boot checkout)).
  apply run_Return. vm_compute. reflexivity.
Defined.

Lemma runCommand_script_agrees_witness :
  CompileScript.runCommand "pnpm" ["exec"; "snarkjs"] None (boot without_pnpm)
  = Circuit.runCommand "pnpm" ["exec"; "snarkjs"] (boot without_pnpm).
Proof.
  apply (runCommand_script_agrees "pnpm" ["exec"; "snarkjs"] (boot without_pnpm)).
  intros _ _. repeat constructor.
Defined.

End ScriptInstances.
